(** * french-audio: the card generation pipeline

    A shallow embedding of [scripts/generate-cards.py] and of
    [process_words.py], and the properties of the batch generation pipeline:
    lemma extraction, prompt templating, card validation, the retry loop of
    [generate_batch], the card store and the resume logic of [main]; and of
    what surrounds it: the environment file, the code fences of the
    template and of the responses, and the placeholder deck.

    Python library code (the [csv] reader, [json], [re], the file system and
    the remote text service) is not part of the repository.  It is
    represented by what it hands to the scripts: the rows a reader yields,
    the outcome of reading the store file, the outcome of one service call. *)

From Stdlib Require Import String Ascii.
From Stdlib Require Import List ZArith NArith Lia Bool.
From Stdlib Require Import Sorting.Sorted Floats.SpecFloat.
Import ListNotations.

Set Implicit Arguments.
Set Warnings "-register-all".
Local Open Scope Z_scope.

(* ================================================================== *)
(** * Python values *)
(* ================================================================== *)

(** A Python [str] is a sequence of Unicode code points. *)
Definition char := N.
Definition pystr := list char.

(** String literals of the scripts (all of them ASCII). *)
Definition lit (s : string) : pystr :=
  List.map N_of_ascii (list_ascii_of_string s).

Fixpoint str_eqb (a b : pystr) : bool :=
  match a, b with
  | [], [] => true
  | x :: a', y :: b' => N.eqb x y && str_eqb a' b'
  | _, _ => false
  end.

(** [x in l] for a list of strings. *)
Fixpoint str_in (x : pystr) (l : list pystr) : bool :=
  match l with
  | [] => false
  | y :: l' => str_eqb x y || str_in x l'
  end.

(** [s.startswith(p)] *)
Fixpoint startswith (p s : pystr) : bool :=
  match p, s with
  | [], _ => true
  | x :: p', y :: s' => N.eqb x y && startswith p' s'
  | _ :: _, [] => false
  end.

(** [p in s] for two strings: [p] occurs in [s] as a substring. *)
Fixpoint contains (p s : pystr) : bool :=
  startswith p s ||
  match s with
  | [] => false
  | _ :: s' => contains p s'
  end.

(** [str.isspace] on one code point: the code points Python 3 treats as
    white space, which are the ones [str.strip()] removes. *)
Definition isspace (c : char) : bool :=
  ((9 <=? c) && (c <=? 13) || (28 <=? c) && (c <=? 32) ||
   (c =? 133) || (c =? 160) || (c =? 5760) ||
   (8192 <=? c) && (c <=? 8202) ||
   (c =? 8232) || (c =? 8233) || (c =? 8239) || (c =? 8287) ||
   (c =? 12288))%N.

Fixpoint lstrip (s : pystr) : pystr :=
  match s with
  | [] => []
  | c :: s' => if isspace c then lstrip s' else s
  end.

Definition rstrip (s : pystr) : pystr := rev (lstrip (rev s)).

(** [s.strip()] *)
Definition strip (s : pystr) : pystr := rstrip (lstrip s).

(** [sep.join(l)] *)
Fixpoint join (sep : pystr) (l : list pystr) : pystr :=
  match l with
  | [] => []
  | [x] => x
  | x :: l' => x ++ sep ++ join sep l'
  end.

(** ** Exceptions *)

(** The exception classes that occur.  [APIError] stands for any other
    subclass of [Exception] that the client library raises. *)
Inductive exn_class : Type :=
| Exception
| StopIteration
| TypeError
| AttributeError
| ValueError
| OverflowError
| JSONDecodeError
| UnicodeDecodeError
| OSError
| FileNotFoundError
| APIError
| SystemExit.

Definition class_eqb (c d : exn_class) : bool :=
  match c, d with
  | Exception, Exception
  | StopIteration, StopIteration
  | TypeError, TypeError
  | AttributeError, AttributeError
  | ValueError, ValueError
  | OverflowError, OverflowError
  | JSONDecodeError, JSONDecodeError
  | UnicodeDecodeError, UnicodeDecodeError
  | OSError, OSError
  | FileNotFoundError, FileNotFoundError
  | APIError, APIError
  | SystemExit, SystemExit => true
  | _, _ => false
  end.

(** [issubclass(c, d)] on these classes: [JSONDecodeError] and
    [UnicodeDecodeError] derive from [ValueError], [FileNotFoundError] from
    [OSError], and all but [SystemExit] from [Exception]. *)
Definition issubclass (c d : exn_class) : bool :=
  class_eqb c d ||
  match d with
  | Exception => negb (class_eqb c SystemExit)
  | ValueError => class_eqb c JSONDecodeError || class_eqb c UnicodeDecodeError
  | OSError => class_eqb c FileNotFoundError
  | _ => false
  end.

(** An exception object: its class and [str(e)]. *)
Record exn : Type := Exn { exn_class_of : exn_class; exn_msg : pystr }.

(** The outcome of evaluating Python code: a value or a raised exception. *)
Inductive outcome (A : Type) : Type :=
| Ok (a : A)
| Raise (e : exn).
Arguments Ok {A} a.
Arguments Raise {A} e.

Definition is_ok {A} (r : outcome A) : bool :=
  match r with Ok _ => true | Raise _ => false end.

(* ================================================================== *)
(** * Lemma extraction *)
(* ================================================================== *)

(** A row as [csv.reader] yields it: the list of its columns. *)
Definition row := list pystr.

(** The vocabulary file at the path handed to [extract_lemmas]: missing, or
    the rows that [csv.reader] yields on it, in order. *)
Inductive csv_file : Type :=
| NoSuchFile
| Rows (rows : list row).

Definition file_not_found : exn :=
  Exn FileNotFoundError (lit "No such file or directory").
Definition stop_iteration : exn := Exn StopIteration [].

Module GenerateCards.

(** The body of [for row in reader]: one row, with [lemmas] as found so far. *)
Definition scan_row (lemmas : list pystr) (row : row) : list pystr :=
  match row with
  | _ :: col1 :: _ =>                      (* len(row) > 1 *)
      let lemme := strip col1 in           (* row[1].strip() *)
      match lemme with
      | [] => lemmas                       (* not lemme *)
      | _ :: _ =>
          if str_in lemme lemmas then lemmas
          else lemmas ++ [lemme]           (* lemmas.append(lemme) *)
      end
  | _ => lemmas
  end.

(** [extract_lemmas] of scripts/generate-cards.py *)
Definition extract_lemmas (csv_path : csv_file) : outcome (list pystr) :=
  match csv_path with
  | NoSuchFile => Raise file_not_found     (* open(csv_path, ...) *)
  | Rows reader =>
      match reader with
      | [] => Raise stop_iteration         (* next(reader) *)
      | _ :: reader =>
          match reader with
          | [] => Raise stop_iteration     (* next(reader) *)
          | _ :: reader => Ok (fold_left scan_row reader [])
          end
      end
  end.

End GenerateCards.

Module ProcessWords.

(** The body of [for row in reader] in process_words.py. *)
Definition scan_row (lemmas : list pystr) (row : row) : list pystr :=
  match row with
  | _ :: col1 :: _ =>
      let lemme := strip col1 in
      match lemme with
      | [] => lemmas
      | _ :: _ =>
          if str_in lemme lemmas then lemmas
          else lemmas ++ [lemme]
      end
  | _ => lemmas
  end.

(** [extract_lemmas] of process_words.py *)
Definition extract_lemmas (file_path : csv_file) : outcome (list pystr) :=
  match file_path with
  | NoSuchFile => Raise file_not_found     (* open(file_path, ...) *)
  | Rows reader =>
      match reader with
      | [] => Raise stop_iteration         (* next(reader) *)
      | _ :: reader =>
          match reader with
          | [] => Raise stop_iteration     (* next(reader) *)
          | _ :: reader => Ok (fold_left scan_row reader [])
          end
      end
  end.

End ProcessWords.

(* ================================================================== *)
(** * JSON values and dictionaries *)
(* ================================================================== *)

(** What [json.load] produces.  A [dict] is its items in insertion order,
    with pairwise distinct keys; the keys of a JSON object are strings. *)
Inductive pyval : Type :=
| PNone
| PBool (b : bool)
| PInt (z : Z)
| PFloat (f : spec_float)
| PStr (s : pystr)
| PList (l : list pyval)
| PDict (items : list (pystr * pyval)).

Definition dict := list (pystr * pyval).

(** [bool(v)], as [not v] and [if v] use it. *)
Definition truthy (v : pyval) : bool :=
  match v with
  | PNone => false
  | PBool b => b
  | PInt z => negb (Z.eqb z 0)
  | PFloat (S754_zero _) => false
  | PFloat _ => true
  | PStr [] => false
  | PStr _ => true
  | PList [] => false
  | PList _ => true
  | PDict [] => false
  | PDict _ => true
  end.

(** [type(v).__name__], which the messages of [TypeError] carry. *)
Definition type_name (v : pyval) : pystr :=
  match v with
  | PNone => lit "NoneType"
  | PBool _ => lit "bool"
  | PInt _ => lit "int"
  | PFloat _ => lit "float"
  | PStr _ => lit "str"
  | PList _ => lit "list"
  | PDict _ => lit "dict"
  end.

(** [d.get(k)] *)
Fixpoint dict_get (k : pystr) (d : dict) : option pyval :=
  match d with
  | [] => None
  | (k', v) :: d' => if str_eqb k k' then Some v else dict_get k d'
  end.

(** [d.get(k, default)] *)
Definition dict_get_default (k : pystr) (default : pyval) (d : dict) : pyval :=
  match dict_get k d with
  | Some v => v
  | None => default
  end.

(** [k in d] *)
Definition dict_in (k : pystr) (d : dict) : bool :=
  match dict_get k d with
  | Some _ => true
  | None => false
  end.

(** [d[k] = v]: a key already present keeps its place, a new one goes last. *)
Fixpoint dict_set (k : pystr) (v : pyval) (d : dict) : dict :=
  match d with
  | [] => [(k, v)]
  | (k', v') :: d' =>
      if str_eqb k k' then (k', v) :: d' else (k', v') :: dict_set k v d'
  end.

(** [d.update(other)] *)
Definition dict_update (d other : dict) : dict :=
  fold_left (fun acc kv => dict_set (fst kv) (snd kv) acc) other d.

Definition keys (d : dict) : list pystr := List.map fst d.

(** [x == v] for a string [x]: a string equals only an equal string. *)
Definition str_eq_val (x : pystr) (v : pyval) : bool :=
  match v with
  | PStr s => str_eqb x s
  | _ => false
  end.

Definition not_iterable (v : pyval) : exn :=
  Exn TypeError (lit "argument of type '" ++ type_name v ++ lit "' is not iterable").

(** [x in v] for a string [x] and any value [v]. *)
Definition py_in (x : pystr) (v : pyval) : outcome bool :=
  match v with
  | PStr s => Ok (contains x s)
  | PList l => Ok (existsb (str_eq_val x) l)
  | PDict d => Ok (dict_in x d)
  | _ => Raise (not_iterable v)
  end.

(** The elements that [for card in v] runs over. *)
Definition py_iter (v : pyval) : outcome (list pyval) :=
  match v with
  | PList l => Ok l
  | PStr s => Ok (List.map (fun c => PStr [c]) s)
  | PDict d => Ok (List.map PStr (keys d))
  | _ => Raise (Exn TypeError (lit "'" ++ type_name v ++ lit "' object is not iterable"))
  end.

(** [len(v)] *)
Definition py_len (v : pyval) : outcome nat :=
  match v with
  | PStr s => Ok (List.length s)
  | PList l => Ok (List.length l)
  | PDict d => Ok (List.length d)
  | _ => Raise (Exn TypeError (lit "object of type '" ++ type_name v ++ lit "' has no len()"))
  end.

(* ================================================================== *)
(** * Prompt template *)
(* ================================================================== *)

(** [s.replace(old, new)] for a non-empty [old]: the occurrences of [old]
    are found from left to right and do not overlap.  [skip] counts the
    characters of an occurrence still to be passed over. *)
Fixpoint replace_from (old new : pystr) (skip : nat) (s : pystr) : pystr :=
  match s with
  | [] => []
  | c :: s' =>
      match skip with
      | S k => replace_from old new k s'
      | O =>
          if startswith old s
          then new ++ replace_from old new (List.length old - 1)%nat s'
          else c :: replace_from old new 0 s'
      end
  end.

(** [s.replace(old, new)]; an empty [old] matches between any two characters. *)
Definition replace (old new s : pystr) : pystr :=
  match old with
  | [] => new ++ flat_map (fun c => c :: new) s
  | _ :: _ => replace_from old new 0 s
  end.

Definition LEMMA_LIST : pystr := lit "{LEMMA_LIST}".

(** [build_prompt] *)
Definition build_prompt (template : pystr) (lemmas : list pystr) : pystr :=
  let lemma_list := join (lit ", ") lemmas in
  replace LEMMA_LIST lemma_list template.

(* ================================================================== *)
(** * Card validation *)
(* ================================================================== *)

Definition k_sentence : pystr := lit "sentence".
Definition k_hint : pystr := lit "hint".
Definition k_acceptedAnswers : pystr := lit "acceptedAnswers".
Definition blank : pystr := lit "___".

(** One turn of the loop of [validate_card]: [Ok None] is [continue],
    [Ok (Some c)] is [valid.append(c)]. *)
Definition validate_one (card : pyval) : outcome (option pyval) :=
  match card with
  | PDict card =>
      let sentence := dict_get_default k_sentence (PStr []) card in
      let hint := dict_get_default k_hint (PStr []) card in
      let answers := dict_get_default k_acceptedAnswers (PList []) card in
      if negb (truthy sentence) || negb (truthy hint) || negb (truthy answers)
      then Ok None
      else
        match py_in blank sentence with        (* "___" not in sentence *)
        | Raise e => Raise e
        | Ok false => Ok None
        | Ok true =>
            match answers with
            | PList (_ :: _) =>
                Ok (Some (PDict [(k_sentence, sentence);
                                 (k_hint, hint);
                                 (k_acceptedAnswers, answers)]))
            | _ => Ok None          (* not a list, or len(answers) == 0 *)
            end
        end
  | _ => Ok None                    (* not isinstance(card, dict) *)
  end.

(** The loop of [validate_card] over the elements of [cards], with [valid]
    as collected so far. *)
Fixpoint validate_loop (valid : list pyval) (cards : list pyval)
  : outcome (list pyval) :=
  match cards with
  | [] => Ok valid
  | card :: cards' =>
      match validate_one card with
      | Raise e => Raise e
      | Ok None => validate_loop valid cards'
      | Ok (Some c) => validate_loop (valid ++ [c]) cards'
      end
  end.

(** [validate_card]; [cards] is [data[lemma]], any JSON value. *)
Definition validate_card (lemma : pystr) (cards : pyval) : outcome (list pyval) :=
  match py_iter cards with
  | Raise e => Raise e
  | Ok cards => validate_loop [] cards
  end.

(** The loop [for lemma in lemmas] of [generate_batch] over the parsed
    response [data], with [result] as built so far. *)
Fixpoint collect (data : dict) (result : dict) (lemmas : list pystr)
  : outcome dict :=
  match lemmas with
  | [] => Ok result
  | lemma :: lemmas' =>
      match dict_get lemma data with             (* lemma in data *)
      | Some cards =>
          match validate_card lemma cards with
          | Raise e => Raise e
          | Ok [] => collect data result lemmas'
          | Ok validated =>
              collect data (dict_set lemma (PList validated) result) lemmas'
          end
      | None => collect data result lemmas'
      end
  end.

(* ================================================================== *)
(** * The retry hint of a rate-limit error *)
(* ================================================================== *)

(** One pattern character of [r"retry in ([\d.]+)s"] against one character
    of the text under [re.IGNORECASE]: the letters match in both cases, [i]
    also matches U+0130 and U+0131, and [s] also matches U+017F. *)
Definition eq_ignorecase (p c : char) : bool :=
  (N.eqb c p ||
   (97 <=? p) && (p <=? 122) && (c =? p - 32) ||
   (p =? 105) && ((c =? 304) || (c =? 305)) ||
   (p =? 115) && (c =? 383))%N.

Fixpoint startswith_ignorecase (p s : pystr) : bool :=
  match p, s with
  | [], _ => true
  | x :: p', y :: s' => eq_ignorecase x y && startswith_ignorecase p' s'
  | _ :: _, [] => false
  end.

(** The Unicode decimal digits, which [\d] matches in a pattern for [str]
    and which [float] reads: they come in runs of ten, the digits 0 to 9 in
    order.  These are the code points of the zero of every run, for the
    Unicode version 14.0 of Python 3.11. *)
Definition DIGIT_ZEROS : list N :=
  [48; 1632; 1776; 1984; 2406; 2534; 2662; 2790; 2918; 3046; 3174; 3302;
   3430; 3558; 3664; 3792; 3872; 4160; 4240; 6112; 6160; 6470; 6608; 6784;
   6800; 6992; 7088; 7232; 7248; 42528; 43216; 43264; 43472; 43504; 43600;
   44016; 65296; 66720; 68912; 69734; 69872; 69942; 70096; 70384; 70736;
   70864; 71248; 71360; 71472; 71904; 72016; 72784; 73040; 73120; 92768;
   92864; 93008; 120782; 120792; 120802; 120812; 120822; 123200; 123632;
   125264; 130032]%N.

(** The value of a decimal digit; [None] for any other character. *)
Definition decimal_value (c : char) : option N :=
  match find (fun zero => (zero <=? c) && (c <=? zero + 9))%N DIGIT_ZEROS with
  | Some zero => Some (c - zero)%N
  | None => None
  end.

(** The class [[\d.]]. *)
Definition is_digit (c : char) : bool :=
  match decimal_value c with
  | Some _ => true
  | None => false
  end.
Definition is_digit_or_dot (c : char) : bool := is_digit c || N.eqb c 46%N.

(** The longest prefix of [s] made of characters of class [f], and the rest. *)
Fixpoint span (f : char -> bool) (s : pystr) : pystr * pystr :=
  match s with
  | [] => ([], [])
  | c :: s' =>
      if f c then let (a, b) := span f s' in (c :: a, b) else ([], s)
  end.

(** The pattern [retry in ([\d.]+)s] matched at the start of [s]: group 1. *)
Definition match_retry_here (s : pystr) : option pystr :=
  let p := lit "retry in " in
  if startswith_ignorecase p s then
    match span is_digit_or_dot (skipn (List.length p) s) with
    | (c :: g, e :: _) => if eq_ignorecase 115%N e then Some (c :: g) else None
    | _ => None
    end
  else None.

(** [re.search(r"retry in ([\d.]+)s", s, re.IGNORECASE)]: group 1 of the
    leftmost match, [None] when there is none. *)
Fixpoint re_search_retry (s : pystr) : option pystr :=
  match match_retry_here s with
  | Some g => Some g
  | None =>
      match s with
      | [] => None
      | _ :: s' => re_search_retry s'
      end
  end.

(** Reading a text of class [[\d.]+] as a decimal numeral: the integer its
    digits spell, the number of digits after the point, and whether a point
    and a digit have been seen. *)
Fixpoint read_decimal (s : pystr) (n : Z) (frac : nat) (point digit : bool)
  : option (Z * nat) :=
  match s with
  | [] => if digit then Some (n, frac) else None
  | c :: s' =>
      if N.eqb c 46%N then
        if point then None else read_decimal s' n frac true digit
      else
        match decimal_value c with
        | Some d =>
            read_decimal s' (10 * n + Z.of_N d)
                         (if point then S frac else frac) point true
        | None => None
        end
  end.

(** Rounding [num / den] to the nearest integer, ties to even. *)
Definition round_half_even (num den : Z) : Z :=
  let q := num / den in
  let r := num mod den in
  if 2 * r <? den then q
  else if den <? 2 * r then q + 1
  else if Z.even q then q else q + 1.

(** [int(float(g))] for a numeral [num / 10^frac]: the numeral is rounded to
    the nearest binary64 number [m * 2^x], which is then truncated.  A
    numeral that rounds to infinity makes [int] raise [OverflowError]. *)
Definition int_of_binary64 (num : Z) (frac : nat) : outcome Z :=
  if num =? 0 then Ok 0
  else
    let den := 10 ^ Z.of_nat frac in
    let e0 := Z.log2 num - Z.log2 den in
    let e := if (if 0 <=? e0 then den * 2 ^ e0 <=? num
                 else den <=? num * 2 ^ (- e0))
             then e0 else e0 - 1 in
    let x := Z.max (e - 52) (-1074) in
    let m := if 0 <=? x then round_half_even num (den * 2 ^ x)
             else round_half_even (num * 2 ^ (- x)) den in
    if 0 <=? x then
      if 2 ^ 1024 <=? m * 2 ^ x
      then Raise (Exn OverflowError (lit "cannot convert float infinity to integer"))
      else Ok (m * 2 ^ x)
    else Ok (m / 2 ^ (- x)).

(** [int(float(g))] for [g] of class [[\d.]+]. *)
Definition int_float (g : pystr) : outcome Z :=
  match read_decimal g 0 0 false false with
  | None =>
      Raise (Exn ValueError (lit "could not convert string to float: '" ++ g ++ lit "'"))
  | Some (num, frac) => int_of_binary64 num frac
  end.

(* ================================================================== *)
(** * The world of a run *)
(* ================================================================== *)

(** The file at [OUTPUT_PATH], as [load_existing] finds it. *)
Inductive store_file : Type :=
| Absent                      (* os.path.exists(output_path) is False *)
| Unreadable                  (* open(...) raises OSError *)
| Undecodable                 (* the bytes are not UTF-8: reading raises
                                 UnicodeDecodeError *)
| Malformed                   (* the text is not JSON: json.load raises
                                 JSONDecodeError *)
| Document (v : pyval).       (* a JSON document: json.load returns [v] *)

(** What a run does to the outside, in order. *)
Inductive event : Type :=
| Request (prompt : pystr)    (* client.models.generate_content *)
| Sleep (seconds : Z)         (* time.sleep *)
| Save (data : pyval).        (* save_output *)

(** [calls] counts the requests made so far, [disk] is the store file and
    [log] the events so far, oldest first. *)
Record world : Type :=
  World { calls : nat; disk : store_file; log : list event }.

(** A computation reads and changes the world and returns or raises; what
    it did before raising stays done. *)
Definition M (A : Type) : Type := world -> outcome A * world.

Definition ret {A} (a : A) : M A := fun w => (Ok a, w).
Definition raise {A} (e : exn) : M A := fun w => (Raise e, w).
Definition lift {A} (r : outcome A) : M A := fun w => (r, w).

Definition bind {A B} (c : M A) (k : A -> M B) : M B :=
  fun w =>
    match c w with
    | (Ok a, w') => k a w'
    | (Raise e, w') => (Raise e, w')
    end.

(** [try: c  except Exception as e: h e] *)
Definition try_except {A} (c : M A) (h : exn -> M A) : M A :=
  fun w =>
    match c w with
    | (Ok a, w') => (Ok a, w')
    | (Raise e, w') => h e w'
    end.

Declare Scope py_scope.
Delimit Scope py_scope with py.
Notation "x <- c1 ;; c2" := (bind c1 (fun x => c2))
  (at level 61, c1 at next level, right associativity) : py_scope.
Notation "c1 ;; c2" := (bind c1 (fun _ => c2))
  (at level 61, right associativity) : py_scope.
Open Scope py_scope.

(** The largest number of seconds that fits the time type of [time.sleep]. *)
Definition SLEEP_MAX : Z := 9223372036.

(** [time.sleep(seconds)] for a whole number of seconds, on Linux.  A
    negative duration raises [ValueError] and a duration above [SLEEP_MAX]
    raises [OverflowError]; [SLEEP_MAX] itself is a deadline that the
    system call refuses.  Nothing is slept then.  A shorter duration is
    slept; this takes the monotonic clock of the system, which counts from
    boot, to have that much room left below [SLEEP_MAX]. *)
Definition sleep (seconds : Z) : M unit :=
  fun w =>
    if seconds <? 0 then
      (Raise (Exn ValueError (lit "sleep length must be non-negative")), w)
    else if SLEEP_MAX <? seconds then
      (Raise (Exn OverflowError
                (lit "timestamp too large to convert to C _PyTime_t")), w)
    else if seconds =? SLEEP_MAX then
      (Raise (Exn OSError (lit "[Errno 22] Invalid argument")), w)
    else (Ok tt, World (calls w) (disk w) (log w ++ [Sleep seconds])).

(** [save_output(OUTPUT_PATH, data)]: the write is taken to succeed, and
    the file then holds a document that [json.load] reads back as [data].
    A write that fails (a directory or a file without write permission at
    the path, a text that UTF-8 cannot encode) is not among the cases. *)
Definition save_output (data : pyval) : M unit :=
  fun w => (Ok tt, World (calls w) (Document data) (log w ++ [Save data])).

(** [os.path.exists(output_path)] *)
Definition path_exists (output_path : store_file) : bool :=
  match output_path with
  | Absent => false
  | _ => true
  end.

(** [with open(output_path, "r", encoding="utf-8") as f: json.load(f)] *)
Definition json_load (output_path : store_file) : outcome pyval :=
  match output_path with
  | Absent => Raise file_not_found
  | Unreadable => Raise (Exn OSError (lit "Permission denied"))
  | Undecodable =>
      Raise (Exn UnicodeDecodeError (lit "'utf-8' codec can't decode byte"))
  | Malformed => Raise (Exn JSONDecodeError (lit "Expecting value"))
  | Document v => Ok v
  end.

(** [load_existing] *)
Definition load_existing (output_path : store_file) : outcome pyval :=
  if path_exists output_path then
    match json_load output_path with
    | Ok v => Ok v                         (* return json.load(f) *)
    | Raise e =>
        if issubclass (exn_class_of e) JSONDecodeError
           || issubclass (exn_class_of e) OSError       (* IOError *)
        then Ok (PDict [])                 (* pass; return {} *)
        else Raise e
    end
  else Ok (PDict []).

(* ================================================================== *)
(** * Configuration *)
(* ================================================================== *)

Definition BATCH_SIZE : Z := 20.
Definition MAX_RPM : Z := 10.
Definition SLEEP_BETWEEN : Z := 60 / MAX_RPM + 2.
Definition MAX_RETRIES : Z := 5.

(** [range(start, stop)] *)
Definition py_range (start stop : Z) : list Z :=
  List.map (fun i => start + Z.of_nat i) (seq 0 (Z.to_nat (stop - start))).

(** [range(0, stop, step)] *)
Definition py_range_step (stop : nat) (step : Z) : outcome (list nat) :=
  if step =? 0 then
    Raise (Exn ValueError (lit "range() arg 3 must not be zero"))
  else if step <? 0 then Ok []
  else
    let k := Z.to_nat step in
    Ok (List.map (fun j => (j * k)%nat) (seq 0 ((stop + k - 1) / k)%nat)).

(** [l[i:j]] for [0 <= i <= j] *)
Definition slice {A} (i j : nat) (l : list A) : list A :=
  firstn (j - i) (skipn i l).

(* ================================================================== *)
(** * Batch generation *)
(* ================================================================== *)

(** The remote service together with [extract_json_from_response]: the
    outcome of the [n]-th request of the process (counted from 0) for a
    given prompt is the parsed response, or the exception that the call or
    the extraction raises. *)
Definition service := nat -> pystr -> outcome pyval.

Section Pipeline.

Variable client : service.

(** [extract_json_from_response(client.models.generate_content(...).text)] *)
Definition request (prompt : pystr) : M pyval :=
  fun w =>
    (client (calls w) prompt,
     World (S (calls w)) (disk w) (log w ++ [Request prompt])).

(** The [try] block of [generate_batch]. *)
Definition attempt_once (prompt : pystr) (lemmas : list pystr) : M dict :=
  data <- request prompt ;;
  match data with
  | PDict data => lift (collect data [] lemmas)
  | _ => raise (Exn ValueError (lit "Response is not a JSON object"))
  end.

(** [if attempt < MAX_RETRIES: time.sleep(2 ** attempt)] *)
Definition backoff (attempt : Z) : M unit :=
  if attempt <? MAX_RETRIES then sleep (2 ^ attempt) else ret tt.

(** The [except] clauses of [generate_batch] for the exception [e] of
    attempt number [attempt]. *)
Definition on_error (attempt : Z) (e : exn) : M unit :=
  if issubclass (exn_class_of e) JSONDecodeError then
    backoff attempt
  else
    let error_msg := exn_msg e in
    if contains (lit "429") error_msg
       || contains (lit "RESOURCE_EXHAUSTED") error_msg
    then
      let wait := 30 * attempt in
      match re_search_retry error_msg with
      | Some g =>
          v <- lift (int_float g) ;;
          sleep (Z.max (v + 5) wait)
      | None => sleep wait
      end
    else backoff attempt.

(** The loop [for attempt in ...] of [generate_batch] and the final
    [return {}]. *)
Fixpoint attempts (prompt : pystr) (lemmas : list pystr) (todo : list Z)
  : M dict :=
  match todo with
  | [] => ret []
  | attempt :: todo' =>
      try_except (attempt_once prompt lemmas)
        (fun e =>
           if issubclass (exn_class_of e) Exception
           then on_error attempt e ;; attempts prompt lemmas todo'
           else raise e)
  end.

(** [generate_batch] *)
Definition generate_batch (template : pystr) (lemmas : list pystr) : M dict :=
  let prompt := build_prompt template lemmas in
  attempts prompt lemmas (py_range 1 (MAX_RETRIES + 1)).

(* ================================================================== *)
(** * Main *)
(* ================================================================== *)

(** The command line: [--count] and [--batch-size]. *)
Record args : Type := Args { count : Z; batch_size : Z }.

(** What [main] reads besides the store file: the API key after
    [load_dotenv], the vocabulary file, and the outcome of
    [load_prompt_template(PROMPT_PATH)]. *)
Record inputs : Type :=
  Inputs { api_key : option pystr;
           words_csv : csv_file;
           prompt_md : outcome pystr }.

(** The variables of [main] that the summary reports. *)
Record report : Type :=
  Report { target_lemmas : list pystr;
           remaining : list pystr;
           existing : pyval;
           generated_count : nat;
           failed_lemmas : list pystr }.

(** [[l for l in target_lemmas if l not in existing]] *)
Fixpoint not_in_existing (existing : pyval) (target_lemmas : list pystr)
  : outcome (list pystr) :=
  match target_lemmas with
  | [] => Ok []
  | l :: rest =>
      match py_in l existing with
      | Raise e => Raise e
      | Ok b =>
          match not_in_existing existing rest with
          | Raise e => Raise e
          | Ok r => Ok (if b then r else l :: r)
          end
      end
  end.

(** [existing.update(result)] *)
Definition py_update (existing : pyval) (result : dict) : outcome pyval :=
  match existing with
  | PDict d => Ok (PDict (dict_update d result))
  | _ =>
      Raise (Exn AttributeError
               (lit "'" ++ type_name existing ++ lit "' object has no attribute 'update'"))
  end.

(** The state of the batch loop of [main]. *)
Record progress : Type :=
  Progress { p_existing : pyval;
             p_generated_count : nat;
             p_failed_lemmas : list pystr }.

(** The body of [for i, batch in enumerate(batches)]. *)
Definition run_batch (template : pystr) (total_batches i : nat)
  (batch : list pystr) (p : progress) : M progress :=
  result <- generate_batch template batch ;;
  p' <- match result with
        | _ :: _ =>
            existing <- lift (py_update (p_existing p) result) ;;
            let generated_count := (p_generated_count p + List.length result)%nat in
            let failed_lemmas :=
              p_failed_lemmas p
              ++ filter (fun lemma => negb (dict_in lemma result)) batch in
            save_output existing ;;
            ret (Progress existing generated_count failed_lemmas)
        | [] =>
            ret (Progress (p_existing p) (p_generated_count p)
                   (p_failed_lemmas p ++ batch))
        end ;;
  (if Z.of_nat i <? Z.of_nat total_batches - 1
   then sleep SLEEP_BETWEEN else ret tt) ;;
  ret p'.

(** The loop over the batches, from batch number [i] on. *)
Fixpoint run_batches (template : pystr) (total_batches i : nat)
  (batches : list (list pystr)) (p : progress) : M progress :=
  match batches with
  | [] => ret p
  | batch :: batches' =>
      p' <- run_batch template total_batches i batch p ;;
      run_batches template total_batches (S i) batches' p'
  end.

Definition system_exit : exn := Exn SystemExit (lit "1").

(** [main] *)
Definition main (a : args) (inp : inputs) : M report :=
  match api_key inp with
  | None | Some [] => raise system_exit          (* sys.exit(1) *)
  | Some _ =>
      all_lemmas <- lift (GenerateCards.extract_lemmas (words_csv inp)) ;;
      let count := if 0 <? count a then Z.to_nat (count a)
                   else List.length all_lemmas in
      let target_lemmas := firstn count all_lemmas in
      template <- lift (prompt_md inp) ;;
      existing <- (fun w => (load_existing (disk w), w)) ;;
      _ <- lift (py_len existing) ;;
      remaining <- lift (not_in_existing existing target_lemmas) ;;
      match remaining with
      | [] => ret (Report target_lemmas [] existing 0 [])
      | _ :: _ =>
          starts <- lift (py_range_step (List.length remaining) (batch_size a)) ;;
          let batches :=
            List.map (fun i => slice i (i + Z.to_nat (batch_size a)) remaining)
                     starts in
          let total_batches := List.length batches in
          p <- run_batches template total_batches 0 batches
                 (Progress existing 0 []) ;;
          ret (Report target_lemmas remaining (p_existing p)
                 (p_generated_count p) (p_failed_lemmas p))
      end
  end.

End Pipeline.

(* ================================================================== *)
(** * The environment file *)
(* ================================================================== *)

(** [os.environ]: the variables with their values, in the order in which
    they were set. *)
Definition environ := list (pystr * pystr).

(** [os.environ.get(key)] *)
Fixpoint env_get (key : pystr) (e : environ) : option pystr :=
  match e with
  | [] => None
  | (k, v) :: e' => if str_eqb key k then Some v else env_get key e'
  end.

(** [c in s] for one character. *)
Definition has_char (c : char) (s : pystr) : bool := existsb (N.eqb c) s.

(** [os.environ.setdefault(key, value)] on a POSIX system.  A variable that
    is set keeps its value.  Setting a new one goes through [putenv], which
    raises [ValueError] for a NUL character in the name or the value and
    for a [=] in the name, and [OSError] for an empty name. *)
Definition setdefault (key value : pystr) (e : environ)
  : outcome unit * environ :=
  match env_get key e with
  | Some _ => (Ok tt, e)
  | None =>
      if has_char 0%N key || has_char 0%N value then
        (Raise (Exn ValueError (lit "embedded null byte")), e)
      else if has_char 61%N key then
        (Raise (Exn ValueError (lit "illegal environment variable name")), e)
      else
        match key with
        | [] => (Raise (Exn OSError (lit "[Errno 22] Invalid argument")), e)
        | _ :: _ => (Ok tt, e ++ [(key, value)])
        end
  end.

(** The text before and the text after the first occurrence of [sep] in
    [s], if there is one. *)
Fixpoint find_first (sep s : pystr) {struct s} : option (pystr * pystr) :=
  if startswith sep s then Some ([], skipn (List.length sep) s)
  else
    match s with
    | [] => None
    | c :: s' =>
        match find_first sep s' with
        | Some (before, after) => Some (c :: before, after)
        | None => None
        end
    end.

(** [s.partition(sep)] *)
Definition str_partition (sep s : pystr) : pystr * pystr * pystr :=
  match find_first sep s with
  | Some (before, after) => (before, sep, after)
  | None => (s, [], [])
  end.

(** The file at the path handed to [load_dotenv]: missing, or a readable
    UTF-8 text, given by the lines that [for line in f] yields, each with
    its line end.  A file that exists but cannot be opened or decoded is
    not among the cases. *)
Inductive env_file : Type :=
| NoEnvFile
| EnvLines (lines : list pystr).

(** The body of [for line in f] in [load_dotenv]. *)
Definition load_line (line : pystr) (e : environ) : outcome unit * environ :=
  let line := strip line in
  match line with
  | [] => (Ok tt, e)                              (* not line *)
  | _ :: _ =>
      if startswith (lit "#") line || negb (contains (lit "=") line)
      then (Ok tt, e)                             (* continue *)
      else
        let '(key, _, value) := str_partition (lit "=") line in
        setdefault (strip key) (strip value) e
  end.

(** The loop [for line in f]; an exception ends it, and what was set before
    stays set. *)
Fixpoint load_lines (lines : list pystr) (e : environ)
  : outcome unit * environ :=
  match lines with
  | [] => (Ok tt, e)
  | line :: lines' =>
      match load_line line e with
      | (Ok _, e') => load_lines lines' e'
      | (Raise x, e') => (Raise x, e')
      end
  end.

(** [load_dotenv] *)
Definition load_dotenv (env_path : env_file) (e : environ)
  : outcome unit * environ :=
  match env_path with
  | NoEnvFile => (Ok tt, e)                       (* not os.path.exists *)
  | EnvLines lines => load_lines lines e
  end.

(* ================================================================== *)
(** * Code fences *)
(* ================================================================== *)

Definition FENCE : pystr := lit "```".
Definition FENCE_JSON : pystr := lit "```json".

(** Where [re.sub] stands in the text: between matches, or inside a match
    with [k] characters of the fence still to pass before the white space
    that the match takes with it. *)
Inductive sub_state : Type :=
| Copying
| Matched (k : nat).

(** [re.sub(fence + r"\s*\n?", "", s)] for a literal, non-empty [fence]:
    the matches are found from left to right and do not overlap; each is
    the fence and all the white space after it ([\s*] is greedy and leaves
    nothing for [\n?]). *)
Fixpoint sub_fence (fence : pystr) (st : sub_state) (s : pystr) : pystr :=
  match s with
  | [] => []
  | c :: s' =>
      match st with
      | Matched (S k) => sub_fence fence (Matched k) s'
      | _ =>
          if match st with Matched _ => isspace c | Copying => false end
          then sub_fence fence (Matched 0) s'
          else if startswith fence s
          then sub_fence fence (Matched (List.length fence - 1)) s'
          else c :: sub_fence fence Copying s'
      end
  end.

(** A text file that is read whole: missing, or a readable UTF-8 text,
    given by its content. *)
Inductive text_file : Type :=
| NoText
| Text (content : pystr).

(** [load_prompt_template] *)
Definition load_prompt_template (prompt_path : text_file) : outcome pystr :=
  match prompt_path with
  | NoText => Raise file_not_found                (* open(prompt_path, ...) *)
  | Text content =>
      let content := sub_fence FENCE_JSON Copying content in
      let content := sub_fence FENCE Copying content in
      Ok content
  end.

(* ================================================================== *)
(** * The response of the service *)
(* ================================================================== *)

(** Group 1 of [re.search(r"```(?:json)?\s*\n?(.*?)```", text, re.DOTALL)]:
    the search stops at the first fence; after it come an optional [json],
    white space, and the text up to the next fence.  When no fence closes
    the first one, no later fence is closed either, and there is no
    match. *)
Definition re_search_fence (text : pystr) : option pystr :=
  match find_first FENCE text with
  | None => None
  | Some (_, rest) =>
      let rest := if startswith (lit "json") rest then skipn 4 rest else rest in
      match find_first FENCE (lstrip rest) with
      | None => None
      | Some (body, _) => Some body
      end
  end.

Section Response.

(** [json.loads], which is library code: what it makes of a text. *)
Variable json_loads : pystr -> outcome pyval.

(** [extract_json_from_response] *)
Definition extract_json_from_response (text : pystr) : outcome pyval :=
  let text := strip text in
  let text :=
    match re_search_fence text with
    | Some group1 => strip group1
    | None => text
    end in
  json_loads text.

(** The service as [generate_batch] uses it, from the text of each
    response: [response.text], which is [None] when the response has no
    text, goes through [extract_json_from_response]. *)
Definition served (generate_content : nat -> pystr -> outcome (option pystr))
  : service :=
  fun n prompt =>
    match generate_content n prompt with
    | Raise e => Raise e
    | Ok None =>
        Raise (Exn AttributeError
                 (lit "'NoneType' object has no attribute 'strip'"))
    | Ok (Some text) => extract_json_from_response text
    end.

End Response.

(* ================================================================== *)
(** * Placeholder cards *)
(* ================================================================== *)

(** The decimal digits of a number, most significant first. *)
Fixpoint digits (d : Decimal.uint) : pystr :=
  match d with
  | Decimal.Nil => []
  | Decimal.D0 d => 48%N :: digits d
  | Decimal.D1 d => 49%N :: digits d
  | Decimal.D2 d => 50%N :: digits d
  | Decimal.D3 d => 51%N :: digits d
  | Decimal.D4 d => 52%N :: digits d
  | Decimal.D5 d => 53%N :: digits d
  | Decimal.D6 d => 54%N :: digits d
  | Decimal.D7 d => 55%N :: digits d
  | Decimal.D8 d => 56%N :: digits d
  | Decimal.D9 d => 57%N :: digits d
  end.

(** [str(z)] for an integer, as an f-string formats it. *)
Definition str_of_int (z : Z) : pystr :=
  match z with
  | Z0 => [48%N]
  | Zpos p => digits (Pos.to_uint p)
  | Zneg p => 45%N :: digits (Pos.to_uint p)
  end.

Module Placeholders.

(** One turn of the loop of [generate_placeholder_prompts]: the card that
    is appended for [i]. *)
Definition placeholder (lemme : pystr) (i : Z) : pyval :=
  PDict
    [(k_sentence,
      PStr (lit "PLACEHOLDER: Sentence for '" ++ lemme
            ++ lit "' (context " ++ str_of_int (i + 1) ++ lit ")."));
     (k_hint,
      PStr (lit "PLACEHOLDER: Hint for '" ++ lemme
            ++ lit "' (concept " ++ str_of_int (i + 1) ++ lit ")."));
     (k_acceptedAnswers, PList [PStr lemme])].

(** [generate_placeholder_prompts] of process_words.py *)
Definition generate_placeholder_prompts (lemme : pystr) (num_prompts : Z)
  : list pyval :=
  List.map (placeholder lemme) (py_range 0 num_prompts).

(** The body of [for i, lemme in enumerate(lemmas)] in [main]. *)
Definition add_cards (cards_data : dict) (lemme : pystr) : dict :=
  let prompts := generate_placeholder_prompts lemme 3 in
  match prompts with
  | _ :: _ => dict_set lemme (PList prompts) cards_data     (* if prompts *)
  | [] => cards_data
  end.

(** [main] of process_words.py: the mapping it hands to [json.dump]. *)
Definition main (csv_file : csv_file) : outcome dict :=
  match ProcessWords.extract_lemmas csv_file with
  | Raise e => Raise e
  | Ok lemmas => Ok (fold_left add_cards lemmas [])
  end.

End Placeholders.

(* ================================================================== *)
(** * The vocabulary of the properties *)
(* ================================================================== *)

(** What the statements below speak of: the candidates of a vocabulary
    file, valid cards, the events of a run, and sample inputs. *)

(** ** Lemma extraction: deduplication and order *)

(** The lemma a row offers: its second column, trimmed, when the row has
    two columns and the trimmed text is not empty. *)
Definition candidate (r : row) : list pystr :=
  match r with
  | _ :: col1 :: _ =>
      match strip col1 with
      | [] => []
      | c :: s => [c :: s]
      end
  | _ => []
  end.

(** The lemmas the rows offer, in row order, repeats included. *)
Definition candidates (rows : list row) : list pystr := flat_map candidate rows.

(** Appending a candidate unless it is already there. *)
Definition add_new (lemmas : list pystr) (c : pystr) : list pystr :=
  if str_in c lemmas then lemmas else lemmas ++ [c].

(** The list of first occurrences of [l], as the loop builds it. *)
Definition firsts (l : list pystr) : list pystr := fold_left add_new l [].

(** ** Card validation *)

(** A candidate as the specification accepts it: a mapping whose
    [sentence] is a non-empty text containing the blank marker, whose [hint]
    is not empty and whose [acceptedAnswers] is a non-empty list. *)
Definition is_valid_card (card : pyval) : bool :=
  match card with
  | PDict d =>
      match dict_get k_sentence d, dict_get k_hint d,
            dict_get k_acceptedAnswers d with
      | Some (PStr (c :: s)), Some hint, Some (PList (_ :: _)) =>
          contains blank (c :: s) && truthy hint
      | _, _, _ => false
      end
  | _ => false
  end.

(** The record [validate_card] stores for a candidate it keeps. *)
Definition cleaned (card : pyval) : pyval :=
  match card with
  | PDict d =>
      PDict [(k_sentence, dict_get_default k_sentence (PStr []) d);
             (k_hint, dict_get_default k_hint (PStr []) d);
             (k_acceptedAnswers, dict_get_default k_acceptedAnswers (PList []) d)]
  | _ => card
  end.

(** The candidate is not a mapping, or its [sentence] is absent or a text. *)
Definition sentence_is_text (card : pyval) : bool :=
  match card with
  | PDict d =>
      match dict_get k_sentence d with
      | Some (PStr _) | None => true
      | Some _ => false
      end
  | _ => true
  end.

(** A card object with the three fields of a card. *)
Definition card (sentence : pyval) (hint : string) (answers : list string) : pyval :=
  PDict [(k_sentence, sentence); (k_hint, PStr (lit hint));
         (k_acceptedAnswers, PList (List.map (fun a => PStr (lit a)) answers))].

(** ** The retry loop *)

(** The exception takes the rate-limit branch of [generate_batch] once
    [except Exception] has caught it: it is no [JSONDecodeError], which the
    clause before takes, and its text carries one of the two markers. *)
Definition is_rate_limit (e : exn) : bool :=
  negb (issubclass (exn_class_of e) JSONDecodeError)
  && (contains (lit "429") (exn_msg e)
      || contains (lit "RESOURCE_EXHAUSTED") (exn_msg e)).

(** The durations slept, in order. *)
Definition sleeps (l : list event) : list Z :=
  flat_map (fun ev => match ev with Sleep s => [s] | _ => [] end) l.

(** The prompts sent, in order. *)
Definition requests (l : list event) : list pystr :=
  flat_map (fun ev => match ev with Request p => [p] | _ => [] end) l.

(** The stores written, in order. *)
Definition saves (l : list event) : list pyval :=
  flat_map (fun ev => match ev with Save d => [d] | _ => [] end) l.

(** The world after one more request. *)
Definition requested (prompt : pystr) (w : world) : world :=
  World (S (calls w)) (disk w) (log w ++ [Request prompt]).

(** The world after one more sleep. *)
Definition slept (seconds : Z) (w : world) : world :=
  World (calls w) (disk w) (log w ++ [Sleep seconds]).

(** What the [try] block makes of the outcome of the request. *)
Definition response_outcome (lemmas : list pystr) (r : outcome pyval)
  : outcome dict :=
  match r with
  | Ok (PDict data) => collect data [] lemmas
  | Ok _ => Raise (Exn ValueError (lit "Response is not a JSON object"))
  | Raise e => Raise e
  end.

(** The sleeps of the exponential backoff for the attempts [todo], should
    each of them fail. *)
Definition backoff_delays (todo : list Z) : list Z :=
  flat_map (fun attempt => if attempt <? MAX_RETRIES then [2 ^ attempt] else [])
           todo.

(** None of the [k] requests for [prompt] from the [n]-th on is answered by
    a rate-limit error. *)
Definition transient_from (client : service) (prompt : pystr) (n k : nat) : Prop :=
  forall i e, (i < k)%nat ->
    client (n + i)%nat prompt = Raise e -> is_rate_limit e = false.

(** A service that fails every request with one and the same exception. *)
Definition failing (cls : exn_class) (msg : string) : service :=
  fun _ _ => Raise (Exn cls (lit msg)).

(** A wait that [time.sleep] is sure to sleep: a billion seconds, some 31
    years, are far from where the monotonic clock of a system ends. *)
Definition SURE_WAIT : Z := 1000000000.

(** The handler of [generate_batch] takes the exception and returns: the
    exception derives from [Exception], and if it is a rate-limit error with
    a hint in its text, the hint reads as a number, and that number plus
    five is a wait that is sure to be slept. *)
Definition handled (e : exn) : Prop :=
  issubclass (exn_class_of e) Exception = true /\
  (is_rate_limit e = true ->
   forall g, re_search_retry (exn_msg e) = Some g ->
     exists v, int_float g = Ok v /\ v + 5 <= SURE_WAIT).

(** The [k] requests for [prompt] from the [n]-th on all fail, each with
    an exception the handler takes. *)
Definition all_fail (client : service) (prompt : pystr) (lemmas : list pystr)
  (n k : nat) : Prop :=
  forall i, (i < k)%nat ->
    exists e, response_outcome lemmas (client (n + i)%nat prompt) = Raise e /\
              handled e.

(** A service whose first [n] requests fail with [first] and whose later
    requests fail with [later]. *)
Definition failing_then (n : nat) (first later : exn) : service :=
  fun i _ => if (i <? n)%nat then Raise first else Raise later.

(** ** What a batch returns and what it touches *)

(** The world [w'] comes after [w]: requests may have been made and the log
    has grown.  [new] is what the log has gained. *)
Definition log_grows (w w' : world) (new : list event) : Prop :=
  log w' = log w ++ new.

(** ** The batch loop of [main] *)

(** The world after [save_output(OUTPUT_PATH, data)]. *)
Definition saved (data : pyval) (w : world) : world :=
  World (calls w) (Document data) (log w ++ [Save data]).

(** The world after the pause that follows batch number [i]. *)
Definition paused (total_batches i : nat) (w : world) : world :=
  if Z.of_nat i <? Z.of_nat total_batches - 1 then slept SLEEP_BETWEEN w else w.

(** ** The store grows *)

(** Every entry of [d] is an entry of [d']. *)
Definition extends (d d' : dict) : Prop :=
  forall k v, dict_get k d = Some v -> dict_get k d' = Some v.

(** The store [s'] arises from the store [s] by merging a result for
    [batch]: no key is lost, every new key is a lemma of the batch, and the
    entries of all other keys are as they were. *)
Definition merged (batch : list pystr) (s s' : pyval) : Prop :=
  exists d d',
    s = PDict d /\ s' = PDict d' /\
    (forall k, dict_in k d = true -> dict_in k d' = true) /\
    (forall k, dict_in k d' = true -> dict_in k d = true \/ In k batch) /\
    (forall k, ~ In k batch -> dict_get k d' = dict_get k d).

(** Each store of the list has all the keys of the one before it, [s]
    being the first. *)
Fixpoint chain (s : pyval) (stores : list pyval) : Prop :=
  match stores with
  | [] => True
  | s' :: rest =>
      (exists d d', s = PDict d /\ s' = PDict d' /\
                    forall k, dict_in k d = true -> dict_in k d' = true)
      /\ chain s' rest
  end.

(** A service that answers every request with one and the same document. *)
Definition answering (data : pyval) : service := fun _ _ => Ok data.

(** A response with cards for [le] and for a lemma nobody asked for. *)
Definition sample_response : pyval :=
  PDict [(lit "le", PList [card (PStr (lit "J'aime ___ pain.")) "article" ["le"%string]]);
         (lit "zut", PList [card (PStr (lit "___ !")) "interjection" ["zut"%string]])].

(** A vocabulary file with the lemmas [le], [la], [et], and a template. *)
Definition sample_inputs : inputs :=
  Inputs (Some (lit "key"))
         (Rows [[lit "liste"]; [lit "freq"; lit "lemme"];
                [lit "1"; lit "le"]; [lit "2"; lit "la"]; [lit "3"; lit "et"]])
         (Ok (lit "Mots: {LEMMA_LIST}")).

(** A store file that holds cards for [et]. *)
Definition sample_store : dict :=
  [(lit "et", PList [card (PStr (lit "toi ___ moi")) "conjonction" ["et"%string]])].

(** The world before the sample run: no request made, the sample store on
    disk. *)
Definition sample_world : world := World 0 (Document (PDict sample_store)) [].

(** ** Resuming *)

(** A response with cards for [le] and for [la]. *)
Definition full_response : pyval :=
  PDict [(lit "le", PList [card (PStr (lit "J'aime ___ pain.")) "article" ["le"%string]]);
         (lit "la", PList [card (PStr (lit "Voici ___ mer.")) "article" ["la"%string]])].

(** The store after the sample store has been completed with [le] and [la]. *)
Definition full_store : pyval :=
  PDict (sample_store
         ++ [(lit "le", PList [card (PStr (lit "J'aime ___ pain.")) "article" ["le"%string]]);
             (lit "la", PList [card (PStr (lit "Voici ___ mer.")) "article" ["la"%string]])]).

(** ** The environment file *)

(** The variable that a line of the environment file defines: none for a
    blank line, for a comment and for a line without [=]; otherwise the
    trimmed text before the first [=] and the trimmed text after it. *)
Definition dotenv_entry (line : pystr) : option (pystr * pystr) :=
  match strip line with
  | [] => None
  | c :: s =>
      if startswith (lit "#") (c :: s) then None
      else
        match find_first (lit "=") (c :: s) with
        | Some (key, value) => Some (strip key, strip value)
        | None => None
        end
  end.

(** The variables that the lines define, in file order. *)
Definition dotenv_entries (lines : list pystr) : environ :=
  flat_map (fun line => match dotenv_entry line with
                        | Some kv => [kv]
                        | None => []
                        end) lines.

(** A name and a value that can be set: neither holds a NUL character and
    the name is not empty. *)
Definition settable (kv : pystr * pystr) : bool :=
  negb (has_char 0%N (fst kv)) && negb (has_char 0%N (snd kv))
  && match fst kv with [] => false | _ :: _ => true end.

(** ** The cards that are stored *)

(** A record as the store holds it: exactly the three fields of a card, in
    their order, with a [sentence] that is not empty and holds the blank
    marker, a [hint] that is not empty and a list of [acceptedAnswers] that
    is not empty. *)
Definition stored_card (c : pyval) : bool :=
  match c with
  | PDict [(k1, sentence); (k2, hint); (k3, PList (_ :: _))] =>
      str_eqb k1 k_sentence && str_eqb k2 k_hint
      && str_eqb k3 k_acceptedAnswers
      && truthy sentence && truthy hint
      && match py_in blank sentence with
         | Ok true => true
         | _ => false
         end
  | _ => false
  end.

(** ** A response in a code fence *)

(** A parser that reads the one text [DOC] as the sample response. *)
Definition sample_json_loads (text : pystr) : outcome pyval :=
  if str_eqb text (lit "DOC") then Ok sample_response
  else Raise (Exn JSONDecodeError (lit "Expecting value")).

(** A service whose every response is the text [DOC] in a code fence. *)
Definition sample_generate_content (n : nat) (prompt : pystr)
  : outcome (option pystr) :=
  Ok (Some (lit "Voici : " ++ FENCE_JSON ++ lit " DOC " ++ FENCE ++ lit " !")).

(** ** The pauses of a run *)

(** The events of some batches in a row, with the pause of [main] between
    one batch and the next. *)
Fixpoint paced (segments : list (list event)) : list event :=
  match segments with
  | [] => []
  | [s] => s
  | s :: rest => s ++ [Sleep SLEEP_BETWEEN] ++ paced rest
  end.

(* ================================================================== *)
(** * Strings and lists: basic facts *)
(* ================================================================== *)

Lemma str_eqb_eq (a b : pystr) : str_eqb a b = true <-> a = b.
Proof.
  revert b. induction a as [|x a IH]; intros [|y b]; simpl;
    try (split; [discriminate | intros H; inversion H]); try tauto.
  rewrite andb_true_iff, N.eqb_eq, IH. split.
  - intros [-> ->]. reflexivity.
  - intros H. inversion H. auto.
Qed.

Lemma str_eqb_refl (a : pystr) : str_eqb a a = true.
Proof. apply str_eqb_eq. reflexivity. Qed.

Lemma str_eqb_neq (a b : pystr) : str_eqb a b = false <-> a <> b.
Proof.
  rewrite <- str_eqb_eq. destruct (str_eqb a b); split; congruence.
Qed.

Lemma str_eqb_sym (a b : pystr) : str_eqb a b = str_eqb b a.
Proof.
  destruct (str_eqb a b) eqn:E.
  - apply str_eqb_eq in E. subst. symmetry. apply str_eqb_refl.
  - destruct (str_eqb b a) eqn:E'; [|reflexivity].
    apply str_eqb_eq in E'. subst. rewrite str_eqb_refl in E. discriminate.
Qed.

Lemma str_in_In (x : pystr) (l : list pystr) : str_in x l = true <-> In x l.
Proof.
  induction l as [|y l IH]; simpl.
  - split; [discriminate | tauto].
  - rewrite orb_true_iff, str_eqb_eq, IH. split; intros [H|H]; auto.
Qed.

Lemma str_in_not_In (x : pystr) (l : list pystr) :
  str_in x l = false <-> ~ In x l.
Proof.
  rewrite <- str_in_In. destruct (str_in x l); split; congruence.
Qed.

(* ================================================================== *)
(** * Lemma extraction: deduplication and order *)
(* ================================================================== *)

Lemma scan_row_candidate (lemmas : list pystr) (r : row) :
  GenerateCards.scan_row lemmas r = fold_left add_new (candidate r) lemmas.
Proof.
  destruct r as [|c0 [|c1 r]]; simpl; try reflexivity.
  destruct (strip c1); reflexivity.
Qed.

Lemma scan_rows_candidates (rows : list row) (lemmas : list pystr) :
  fold_left GenerateCards.scan_row rows lemmas
  = fold_left add_new (candidates rows) lemmas.
Proof.
  revert lemmas. induction rows as [|r rows IH]; intros lemmas; simpl.
  - reflexivity.
  - unfold candidates in *. rewrite fold_left_app, IH, scan_row_candidate.
    reflexivity.
Qed.

Lemma candidates_nonempty (rows : list row) : ~ In [] (candidates rows).
Proof.
  unfold candidates. rewrite in_flat_map. intros [r [_ H]].
  destruct r as [|c0 [|c1 r]]; simpl in H; try contradiction.
  destruct (strip c1); simpl in H; [contradiction|].
  destruct H as [H|H]; [discriminate | contradiction].
Qed.

Lemma firsts_snoc (l : list pystr) (c : pystr) :
  firsts (l ++ [c]) = add_new (firsts l) c.
Proof. unfold firsts. rewrite fold_left_app. reflexivity. Qed.

Lemma firsts_In (l : list pystr) (x : pystr) : In x (firsts l) <-> In x l.
Proof.
  induction l as [|c l IH] using rev_ind.
  - simpl. tauto.
  - rewrite firsts_snoc. unfold add_new.
    destruct (str_in c (firsts l)) eqn:E.
    + apply str_in_In in E. rewrite in_app_iff, IH. simpl.
      split; [tauto|]. intros [H|[H|[]]]; auto. subst. apply IH, E.
    + rewrite !in_app_iff, IH. tauto.
Qed.

Lemma firsts_NoDup (l : list pystr) : NoDup (firsts l).
Proof.
  induction l as [|c l IH] using rev_ind.
  - constructor.
  - rewrite firsts_snoc. unfold add_new.
    destruct (str_in c (firsts l)) eqn:E; [exact IH|].
    apply str_in_not_In in E.
    apply NoDup_app; [exact IH | repeat constructor; auto | ].
    intros y Hy [<-|[]]. exact (E Hy).
Qed.

(** What stands before [x] in the result is what was seen before the first
    occurrence of [x] in the input. *)
Lemma firsts_order (l before after : list pystr) (x : pystr) :
  firsts l = before ++ x :: after ->
  exists c1 c2, l = c1 ++ x :: c2 /\ ~ In x c1 /\
                (forall y, In y before <-> In y c1).
Proof.
  revert before after. induction l as [|c l IH] using rev_ind;
    intros before after H.
  - destruct before; discriminate.
  - rewrite firsts_snoc in H. unfold add_new in H.
    destruct (str_in c (firsts l)) eqn:E.
    + destruct (IH _ _ H) as (c1 & c2 & -> & Hx & Hb).
      exists c1, (c2 ++ [c]). rewrite <- app_assoc. simpl. auto.
    + destruct after as [|a after] using rev_ind.
      * apply app_inj_tail in H. destruct H as [H1 H2]. subst c before.
        exists l, []. apply str_in_not_In in E.
        split; [reflexivity|]. split.
        -- rewrite <- firsts_In. exact E.
        -- intros y. apply firsts_In.
      * clear IHafter. rewrite app_comm_cons, app_assoc in H.
        apply app_inj_tail in H. destruct H as [H1 H2].
        destruct (IH _ _ H1) as (c1 & c2 & -> & Hx & Hb).
        exists c1, (c2 ++ [c]). rewrite <- app_assoc. simpl. auto.
Qed.

(** C3: on a vocabulary file, [extract_lemmas] passes over the first two
    rows and returns a list determined by the remaining rows: it has no
    repeated entry and no empty string, it holds exactly the candidates of
    those rows (the trimmed non-empty second columns of the rows with at
    least two columns), and each lemma stands after exactly the lemmas seen
    before its first occurrence.  Rows with fewer than two columns offer no
    candidate and raise nothing. *)
Theorem extract_lemmas_dedup_ordered (h1 h2 : row) (rows : list row) :
  exists lemmas,
    GenerateCards.extract_lemmas (Rows (h1 :: h2 :: rows)) = Ok lemmas /\
    NoDup lemmas /\
    ~ In [] lemmas /\
    (forall x, In x lemmas <-> In x (candidates rows)) /\
    (forall before x after, lemmas = before ++ x :: after ->
       exists c1 c2, candidates rows = c1 ++ x :: c2 /\ ~ In x c1 /\
                     (forall y, In y before <-> In y c1)).
Proof.
  exists (firsts (candidates rows)). split.
  - simpl. rewrite scan_rows_candidates. reflexivity.
  - split; [apply firsts_NoDup|].
    split; [rewrite firsts_In; apply candidates_nonempty|].
    split; [intros x; apply firsts_In|].
    intros before x after H. eapply firsts_order. exact H.
Qed.

(** A file with fewer than two rows: the second [next(reader)] at the
    latest raises [StopIteration]. *)
Lemma extract_lemmas_short_file (rows : list row) :
  (List.length rows < 2)%nat ->
  GenerateCards.extract_lemmas (Rows rows) = Raise stop_iteration.
Proof.
  destruct rows as [|h1 [|h2 rows]]; simpl; intros H; try reflexivity; lia.
Qed.

(** The example of the specification: rows [(_, le), (_, la), (_, le)]
    after two header rows give [le; la]. *)
Example extract_lemmas_le_la :
  GenerateCards.extract_lemmas
    (Rows [[lit "liste"]; [lit "freq"; lit "lemme"];
           [lit "1"; lit "le"]; [lit "2"; lit " la "]; [lit "3"];
           [lit "4"; lit "le"; lit "x"]])
  = Ok [lit "le"; lit "la"].
Proof. reflexivity. Qed.

(** C10: the two [extract_lemmas], of process_words.py and of
    scripts/generate-cards.py, agree on every vocabulary file, in what they
    return and in what they raise. *)
Theorem extract_lemmas_implementations_agree (f : csv_file) :
  ProcessWords.extract_lemmas f = GenerateCards.extract_lemmas f.
Proof.
  assert (Hrow : forall lemmas r,
             ProcessWords.scan_row lemmas r = GenerateCards.scan_row lemmas r).
  { intros lemmas [|c0 [|c1 r]]; reflexivity. }
  assert (Hloop : forall rows lemmas,
             fold_left ProcessWords.scan_row rows lemmas
             = fold_left GenerateCards.scan_row rows lemmas).
  { induction rows as [|r rows IH]; intros lemmas; simpl.
    - reflexivity.
    - rewrite Hrow. apply IH. }
  destruct f as [|[|h1 [|h2 rows]]]; simpl; rewrite ?Hloop; reflexivity.
Qed.

(* ================================================================== *)
(** * Template substitution *)
(* ================================================================== *)

Lemma startswith_app (p s : pystr) : startswith p (p ++ s) = true.
Proof.
  induction p as [|x p IH]; simpl; [reflexivity|].
  rewrite N.eqb_refl. exact IH.
Qed.

Lemma startswith_prefix (p s : pystr) :
  startswith p s = true -> exists t, s = p ++ t.
Proof.
  revert s. induction p as [|x p IH]; intros s H.
  - exists s. reflexivity.
  - destruct s as [|y s]; simpl in H; [discriminate|].
    apply andb_true_iff in H. destruct H as [Hxy H].
    apply N.eqb_eq in Hxy. subst y.
    destruct (IH _ H) as [t ->]. exists t. reflexivity.
Qed.

Lemma startswith_extend (p s t : pystr) :
  startswith p s = true -> startswith p (s ++ t) = true.
Proof.
  intros H. destruct (startswith_prefix _ _ H) as [u ->].
  rewrite <- app_assoc. apply startswith_app.
Qed.

(** A prefix [p] of [u ++ v] lies within [u], or [u] is a proper prefix of
    [p] and the rest of [p] is a prefix of [v]. *)
Lemma startswith_app_cases (p u v : pystr) :
  startswith p (u ++ v) = true ->
  startswith p u = true \/
  exists p2, p = u ++ p2 /\ p2 <> [] /\ startswith p2 v = true.
Proof.
  revert p. induction u as [|y u IH]; intros p H.
  - destruct p as [|x p]; [left; reflexivity|].
    right. exists (x :: p). repeat split; [discriminate | exact H].
  - destruct p as [|x p]; [left; reflexivity|].
    simpl in H. apply andb_true_iff in H. destruct H as [Hxy H].
    destruct (IH _ H) as [H1 | (p2 & -> & Hne & H2)].
    + left. simpl. rewrite Hxy. exact H1.
    + right. exists p2. apply N.eqb_eq in Hxy. subst. auto.
Qed.

Lemma contains_cons_false (p : pystr) (c : char) (s : pystr) :
  contains p (c :: s) = false ->
  startswith p (c :: s) = false /\ contains p s = false.
Proof. simpl contains. intros H. apply orb_false_iff in H. exact H. Qed.

Lemma contains_startswith (p s : pystr) :
  startswith p s = true -> contains p s = true.
Proof. intros H. destruct s; simpl contains; rewrite H; reflexivity. Qed.

(** Passing over the rest of an occurrence. *)
Lemma replace_from_skip (old new u tail : pystr) :
  replace_from old new (List.length u) (u ++ tail) = replace_from old new 0 tail.
Proof. induction u as [|c u IH]; simpl; [reflexivity | exact IH]. Qed.

(** Without an occurrence of [old], nothing is replaced. *)
Lemma replace_from_absent (old new s : pystr) :
  contains old s = false -> replace_from old new 0 s = s.
Proof.
  induction s as [|c s IH]; intros H; [reflexivity|].
  apply contains_cons_false in H. destruct H as [H1 H2].
  simpl replace_from. rewrite H1, (IH H2). reflexivity.
Qed.

Lemma LEMMA_LIST_chars :
  LEMMA_LIST = (123 :: [76; 69; 77; 77; 65; 95; 76; 73; 83; 84; 125])%N.
Proof. reflexivity. Qed.

(** The token cannot overlap a copy of itself: its first character occurs
    nowhere else in it.  So an occurrence that begins inside [u], in front
    of a copy of the token, lies within [u]. *)
Lemma token_no_straddle (u tail : pystr) :
  u <> [] ->
  startswith LEMMA_LIST (u ++ LEMMA_LIST ++ tail) = true ->
  startswith LEMMA_LIST u = true.
Proof.
  intros Hu H. apply startswith_app_cases in H.
  destruct H as [H | (p2 & Hp & Hne & H2)]; [exact H|]. exfalso.
  destruct u as [|c u]; [congruence|]. clear Hu.
  destruct p2 as [|x p2]; [congruence|]. clear Hne.
  rewrite LEMMA_LIST_chars in Hp, H2. simpl in H2.
  apply andb_true_iff in H2. destruct H2 as [Hx _].
  apply N.eqb_eq in Hx. subst x.
  simpl in Hp. injection Hp as _ Hp.
  assert (Hin : In 123%N [76; 69; 77; 77; 65; 95; 76; 73; 83; 84; 125]%N).
  { rewrite Hp. apply in_or_app. right. left. reflexivity. }
  simpl in Hin. repeat (destruct Hin as [Hin|Hin]; [discriminate|]).
  exact Hin.
Qed.

(** An occurrence at the head of the text is replaced, and the scan goes
    on behind it. *)
Lemma replace_from_here (c : char) (old' new tail : pystr) :
  replace_from (c :: old') new 0 ((c :: old') ++ tail)
  = new ++ replace_from (c :: old') new 0 tail.
Proof.
  cbn [app replace_from].
  change (c :: old' ++ tail) with ((c :: old') ++ tail).
  rewrite startswith_app. cbn [List.length].
  replace (S (List.length old') - 1)%nat with (List.length old') by lia.
  rewrite replace_from_skip. reflexivity.
Qed.

(** One segment without the token, then the token: the segment stays, the
    token is replaced, and the scan goes on behind it. *)
Lemma replace_segment (new s0 tail : pystr) :
  contains LEMMA_LIST s0 = false ->
  replace_from LEMMA_LIST new 0 (s0 ++ LEMMA_LIST ++ tail)
  = s0 ++ new ++ replace_from LEMMA_LIST new 0 tail.
Proof.
  induction s0 as [|c s0 IH]; intros H.
  - rewrite LEMMA_LIST_chars. apply replace_from_here.
  - apply contains_cons_false in H. destruct H as [H1 H2].
    cbn [app replace_from].
    destruct (startswith LEMMA_LIST (c :: s0 ++ LEMMA_LIST ++ tail)) eqn:E.
    + apply (@token_no_straddle (c :: s0) tail) in E; [|discriminate].
      congruence.
    + rewrite (IH H2). reflexivity.
Qed.

Lemma join_cons2 (sep x y : pystr) (l : list pystr) :
  join sep (x :: y :: l) = x ++ sep ++ join sep (y :: l).
Proof. reflexivity. Qed.

(** A template cut at the occurrences of the token: the pieces are joined
    by the replacement instead. *)
Lemma replace_join (new : pystr) (segments : list pystr) :
  Forall (fun s => contains LEMMA_LIST s = false) segments ->
  replace LEMMA_LIST new (join LEMMA_LIST segments) = join new segments.
Proof.
  change (replace LEMMA_LIST new (join LEMMA_LIST segments))
    with (replace_from LEMMA_LIST new 0 (join LEMMA_LIST segments)).
  induction segments as [|s0 [|s1 segments] IH]; intros H.
  - reflexivity.
  - inversion H; subst. simpl join. apply replace_from_absent. assumption.
  - inversion H; subst. rewrite !join_cons2.
    rewrite replace_segment by assumption. rewrite IH by assumption.
    reflexivity.
Qed.

(** The leftmost occurrence of a non-empty [p] in [t]. *)
Lemma first_occurrence (c : char) (p' t : pystr) :
  contains (c :: p') t = true ->
  exists pre post,
    t = pre ++ (c :: p') ++ post /\ contains (c :: p') pre = false.
Proof.
  induction t as [|a t IH]; intros H.
  - discriminate.
  - destruct (startswith (c :: p') (a :: t)) eqn:E.
    + destruct (startswith_prefix _ _ E) as [post Hpost].
      exists [], post. split; [exact Hpost | reflexivity].
    + simpl contains in H. simpl startswith in E. rewrite E in H.
      simpl in H. destruct (IH H) as (pre & post & -> & Hpre).
      exists (a :: pre), post. split; [reflexivity|].
      simpl contains. rewrite Hpre, orb_false_r.
      destruct (N.eqb c a && startswith p' pre) eqn:E'; [|reflexivity].
      assert (X : startswith (c :: p') ((a :: pre) ++ (c :: p') ++ post) = true)
        by (apply startswith_extend; exact E').
      simpl in X. simpl in E. congruence.
Qed.

Lemma first_token (t : pystr) :
  contains LEMMA_LIST t = true ->
  exists pre post, t = pre ++ LEMMA_LIST ++ post /\ contains LEMMA_LIST pre = false.
Proof.
  exact (@first_occurrence 123%N [76; 69; 77; 77; 65; 95; 76; 73; 83; 84; 125]%N t).
Qed.

(** Every template is a sequence of token-free segments joined by the
    token. *)
Lemma split_at_token (t : pystr) :
  exists segments,
    Forall (fun s => contains LEMMA_LIST s = false) segments /\
    t = join LEMMA_LIST segments.
Proof.
  assert (G : forall n t, (List.length t <= n)%nat ->
            exists s0 segments,
              Forall (fun s => contains LEMMA_LIST s = false) (s0 :: segments) /\
              t = join LEMMA_LIST (s0 :: segments)).
  { clear t. induction n as [|n IH]; intros t Hn.
    - destruct t; [|simpl in Hn; lia]. exists [], []. split.
      + constructor; [reflexivity | constructor].
      + reflexivity.
    - destruct (contains LEMMA_LIST t) eqn:E.
      + destruct (first_token _ E) as (pre & post & Ht & Hpre).
        destruct (IH post) as (s1 & segs & Hall & Hpost).
        { subst t. rewrite !length_app in Hn.
          rewrite LEMMA_LIST_chars in Hn. simpl in Hn. lia. }
        exists pre, (s1 :: segs). split.
        * constructor; assumption.
        * rewrite join_cons2, <- Hpost. exact Ht.
      + exists t, []. split.
        * constructor; [exact E | constructor].
        * reflexivity. }
  destruct (G (List.length t) t (le_n _)) as (s0 & segments & H1 & H2).
  exists (s0 :: segments). auto.
Qed.

(** C9: [build_prompt] puts the lemmas, joined by a comma and a space, in
    the place of every occurrence of the token [{LEMMA_LIST}]: however the
    template is cut into token-free segments around the token, the prompt is
    these segments joined by the lemma list, and every template can be cut
    so.  A template without the token is returned unchanged; nothing is
    raised. *)
Theorem build_prompt_substitutes (template : pystr) (lemmas : list pystr) :
  let lemma_list := join (lit ", ") lemmas in
  (forall segments,
      Forall (fun s => contains LEMMA_LIST s = false) segments ->
      template = join LEMMA_LIST segments ->
      build_prompt template lemmas = join lemma_list segments) /\
  (exists segments,
      Forall (fun s => contains LEMMA_LIST s = false) segments /\
      template = join LEMMA_LIST segments) /\
  (contains LEMMA_LIST template = false ->
   build_prompt template lemmas = template).
Proof.
  intros lemma_list. split; [|split].
  - intros segments Hall ->. unfold build_prompt. apply replace_join. exact Hall.
  - apply split_at_token.
  - intros H. unfold build_prompt.
    apply (replace_join (join (lit ", ") lemmas) (segments := [template])).
    constructor; [exact H | constructor].
Qed.

(** The theorem at work on a template with two occurrences of the token and
    on one with none. *)
Lemma build_prompt_substitutes_witness :
  build_prompt (lit "Words: {LEMMA_LIST}. Again: {LEMMA_LIST}")
               [lit "le"; lit "la"; lit "et"]
  = lit "Words: le, la, et. Again: le, la, et" /\
  build_prompt (lit "No {LEMMA LIST} here") [lit "le"; lit "la"]
  = lit "No {LEMMA LIST} here".
Proof.
  split.
  - apply (proj1 (build_prompt_substitutes
                    (lit "Words: {LEMMA_LIST}. Again: {LEMMA_LIST}")
                    [lit "le"; lit "la"; lit "et"])
             [lit "Words: "; lit ". Again: "; []]).
    + repeat constructor.
    + reflexivity.
  - apply (proj2 (proj2 (build_prompt_substitutes
                           (lit "No {LEMMA LIST} here") [lit "le"; lit "la"]))).
    reflexivity.
Defined.

(* ================================================================== *)
(** * Card validation *)
(* ================================================================== *)

Lemma validate_one_text (card : pyval) :
  sentence_is_text card = true ->
  validate_one card
  = Ok (if is_valid_card card then Some (cleaned card) else None).
Proof.
  destruct card as [| | | | |l|d]; try reflexivity.
  unfold sentence_is_text, validate_one, is_valid_card, cleaned, dict_get_default.
  destruct (dict_get k_sentence d) as [[| | | |[|c s]| |]|]; try discriminate;
    intros _; try reflexivity.
  destruct (dict_get k_hint d) as [hint|]; [|reflexivity].
  cbn [truthy negb orb].
  destruct (truthy hint); [|rewrite andb_false_r; destruct (dict_get k_acceptedAnswers d) as [[| | | | |[|? ?]|]|]; reflexivity].
  cbn [negb orb]. rewrite andb_true_r.
  destruct (dict_get k_acceptedAnswers d) as [answers|]; [|reflexivity].
  destruct (truthy answers) eqn:Ta; cbn [negb].
  - cbn [py_in]. destruct (contains blank (c :: s));
      destruct answers as [| | | | |[|? ?]|]; reflexivity.
  - destruct answers as [| | | | |[|? ?]|]; try reflexivity; discriminate.
Qed.

Lemma validate_loop_text (cards valid : list pyval) :
  forallb sentence_is_text cards = true ->
  validate_loop valid cards
  = Ok (valid ++ List.map cleaned (filter is_valid_card cards)).
Proof.
  revert valid. induction cards as [|card cards IH]; intros valid H.
  - simpl. rewrite app_nil_r. reflexivity.
  - simpl in H. apply andb_true_iff in H. destruct H as [H1 H2].
    simpl. rewrite (validate_one_text _ H1).
    destruct (is_valid_card card).
    + rewrite (IH _ H2). simpl. rewrite <- app_assoc. reflexivity.
    + apply IH. exact H2.
Qed.

(** On candidates whose [sentence], where present, is a text,
    [validate_card] keeps exactly the valid candidates, in order, and drops
    each of the others on its own. *)
Lemma validate_card_text_sentences (lemma : pystr) (cards : list pyval) :
  forallb sentence_is_text cards = true ->
  validate_card lemma (PList cards)
  = Ok (List.map cleaned (filter is_valid_card cards)).
Proof. intros H. unfold validate_card. simpl. apply (validate_loop_text _ [] H). Qed.

(** The example of the specification: of a card with a blank and a card
    without, exactly the first survives. *)
Example validate_card_no_blank :
  validate_card (lit "le")
    (PList [card (PStr (lit "J'aime ___.")) "h" ["le"%string];
            card (PStr (lit "no blank")) "h" ["x"%string]])
  = Ok [card (PStr (lit "J'aime ___.")) "h" ["le"%string]].
Proof. reflexivity. Qed.

(** C2, where the code leaves the claim: a candidate whose [sentence] is a
    number is not dropped on its own.  [validate_card] raises [TypeError] at
    ["___" not in sentence], and the valid candidate before it is lost with
    it; the claim keeps exactly the first candidate. *)
Lemma validate_card_numeric_sentence :
  validate_card (lit "le")
    (PList [card (PStr (lit "J'aime ___.")) "h" ["le"%string];
            card (PInt 5) "h" ["x"%string]])
  = Raise (Exn TypeError (lit "argument of type 'int' is not iterable")) /\
  List.map cleaned
    (filter is_valid_card
       [card (PStr (lit "J'aime ___.")) "h" ["le"%string];
        card (PInt 5) "h" ["x"%string]])
  = [card (PStr (lit "J'aime ___.")) "h" ["le"%string]].
Proof. split; reflexivity. Qed.

(** A [sentence] that is a list holding the marker passes the test
    ["___" not in sentence] as well, and the candidate is kept. *)
Example validate_card_list_sentence :
  validate_card (lit "le") (PList [card (PList [PStr blank]) "h" ["le"%string]])
  = Ok [card (PList [PStr blank]) "h" ["le"%string]].
Proof. reflexivity. Qed.

(* ================================================================== *)
(** * Loading the store *)
(* ================================================================== *)

(** What [load_existing] does on each state of the file. *)
Lemma load_existing_cases (f : store_file) :
  load_existing f =
  match f with
  | Absent | Unreadable | Malformed => Ok (PDict [])
  | Document v => Ok v
  | Undecodable =>
      Raise (Exn UnicodeDecodeError (lit "'utf-8' codec can't decode byte"))
  end.
Proof. destruct f; reflexivity. Qed.

(** C6, where the code leaves the claim: a store file whose bytes are not
    valid UTF-8 makes [json.load] raise [UnicodeDecodeError], which is
    neither a [JSONDecodeError] nor an [IOError]; [load_existing] lets it
    through. *)
Lemma load_existing_undecodable :
  load_existing Undecodable
  = Raise (Exn UnicodeDecodeError (lit "'utf-8' codec can't decode byte")) /\
  issubclass UnicodeDecodeError JSONDecodeError = false /\
  issubclass UnicodeDecodeError OSError = false.
Proof. repeat split. Qed.

(* ================================================================== *)
(** * The retry loop *)
(* ================================================================== *)

Section RetryLoop.

Variable client : service.

Lemma attempt_once_eq (prompt : pystr) (lemmas : list pystr) (w : world) :
  attempt_once client prompt lemmas w
  = (response_outcome lemmas (client (calls w) prompt), requested prompt w).
Proof.
  unfold attempt_once, bind, request, requested, response_outcome, lift, raise.
  destruct (client (calls w) prompt) as [[| | | | | |d]|e]; reflexivity.
Qed.

(** One turn of the loop: a result ends it, an exception is handled and the
    next attempt follows. *)
Lemma attempts_cons (prompt : pystr) (lemmas : list pystr) (attempt : Z)
  (todo : list Z) (w : world) :
  attempts client prompt lemmas (attempt :: todo) w =
  match response_outcome lemmas (client (calls w) prompt) with
  | Ok result => (Ok result, requested prompt w)
  | Raise e =>
      if issubclass (exn_class_of e) Exception then
        match on_error attempt e (requested prompt w) with
        | (Ok _, w') => attempts client prompt lemmas todo w'
        | (Raise e', w') => (Raise e', w')
        end
      else (Raise e, requested prompt w)
  end.
Proof.
  cbn [attempts]. unfold try_except. rewrite attempt_once_eq.
  destruct (response_outcome lemmas (client (calls w) prompt)) as [r|e];
    [reflexivity|].
  destruct (issubclass (exn_class_of e) Exception); [|reflexivity].
  unfold bind. destruct (on_error attempt e (requested prompt w)) as [[[]|e'] w'];
    reflexivity.
Qed.

End RetryLoop.

(** A duration between zero and [SLEEP_MAX] is slept. *)
Lemma sleep_ok (seconds : Z) (w : world) :
  0 <= seconds < SLEEP_MAX ->
  sleep seconds w = (Ok tt, slept seconds w).
Proof.
  intros [H0 H1]. unfold sleep.
  destruct (seconds <? 0) eqn:E0; [apply Z.ltb_lt in E0; lia|].
  destruct (SLEEP_MAX <? seconds) eqn:E1; [apply Z.ltb_lt in E1; lia|].
  destruct (seconds =? SLEEP_MAX) eqn:E2; [apply Z.eqb_eq in E2; lia|].
  reflexivity.
Qed.

(** Whatever the duration, [time.sleep] either sleeps it or raises and
    leaves the world as it is. *)
Lemma sleep_cases (seconds : Z) (w : world) :
  sleep seconds w = (Ok tt, slept seconds w) \/
  exists e, sleep seconds w = (Raise e, w).
Proof.
  unfold sleep.
  destruct (seconds <? 0); [right; eexists; reflexivity|].
  destruct (SLEEP_MAX <? seconds); [right; eexists; reflexivity|].
  destruct (seconds =? SLEEP_MAX); [right; eexists; reflexivity|].
  left. reflexivity.
Qed.

(** The sleeps of the exponential backoff are short. *)
Lemma backoff_eq (attempt : Z) (w : world) :
  backoff attempt w =
  (Ok tt, if attempt <? MAX_RETRIES then slept (2 ^ attempt) w else w).
Proof.
  unfold backoff. destruct (attempt <? MAX_RETRIES) eqn:E; [|reflexivity].
  apply Z.ltb_lt in E. unfold MAX_RETRIES in E. apply sleep_ok.
  assert (H : 2 ^ attempt <= 2 ^ 4) by (apply Z.pow_le_mono_r; lia).
  pose proof (Z.pow_nonneg 2 attempt ltac:(lia)) as H0.
  unfold SLEEP_MAX. change (2 ^ 4) with 16 in H. lia.
Qed.

(** An error that is not a rate-limit error is answered by the exponential
    backoff. *)
Lemma on_error_transient (attempt : Z) (e : exn) (w : world) :
  is_rate_limit e = false ->
  on_error attempt e w = backoff attempt w.
Proof.
  unfold is_rate_limit, on_error. intros H.
  destruct (issubclass (exn_class_of e) JSONDecodeError); [reflexivity|].
  simpl in H. rewrite H. reflexivity.
Qed.

(** A rate-limit error is answered by [time.sleep] for [30 * attempt]
    seconds, or for the hint of the provider plus five seconds when that is
    longer; a hint that is no number makes the handler itself raise. *)
Lemma on_error_rate_limit (attempt : Z) (e : exn) (w : world) :
  is_rate_limit e = true ->
  on_error attempt e w =
  match re_search_retry (exn_msg e) with
  | None => sleep (30 * attempt) w
  | Some g =>
      match int_float g with
      | Ok v => sleep (Z.max (v + 5) (30 * attempt)) w
      | Raise e' => (Raise e', w)
      end
  end.
Proof.
  unfold is_rate_limit, on_error. intros H.
  apply andb_true_iff in H. destruct H as [H1 H2].
  apply negb_true_iff in H1. rewrite H1, H2.
  destruct (re_search_retry (exn_msg e)) as [g|]; [|reflexivity].
  unfold bind, lift. destruct (int_float g); reflexivity.
Qed.

(** ** Exceptions raised while a response is validated *)

Lemma py_in_raise (x : pystr) (v : pyval) (e : exn) :
  py_in x v = Raise e -> is_rate_limit e = false.
Proof.
  destruct v; simpl; intros H; inversion H; subst; reflexivity.
Qed.

Lemma py_iter_raise (v : pyval) (e : exn) :
  py_iter v = Raise e -> is_rate_limit e = false.
Proof.
  destruct v; simpl; intros H; inversion H; subst; reflexivity.
Qed.

Lemma validate_one_raise (c : pyval) (e : exn) :
  validate_one c = Raise e -> is_rate_limit e = false.
Proof.
  destruct c as [| | | | | |d]; simpl; try discriminate.
  destruct (negb _ || negb _ || negb _); [discriminate|].
  destruct (py_in blank (dict_get_default k_sentence (PStr []) d)) as [[|]|e'] eqn:E.
  - destruct (dict_get_default k_acceptedAnswers (PList []) d) as [| | | | |[|? ?]|];
      discriminate.
  - discriminate.
  - intros H. inversion H; subst. eapply py_in_raise. exact E.
Qed.

Lemma validate_loop_raise (cards valid : list pyval) (e : exn) :
  validate_loop valid cards = Raise e -> is_rate_limit e = false.
Proof.
  revert valid. induction cards as [|c cards IH]; intros valid; simpl.
  - discriminate.
  - destruct (validate_one c) as [[c'|]|e'] eqn:E.
    + apply IH.
    + apply IH.
    + intros H. inversion H; subst. eapply validate_one_raise. exact E.
Qed.

Lemma validate_card_raise (lemma : pystr) (cards : pyval) (e : exn) :
  validate_card lemma cards = Raise e -> is_rate_limit e = false.
Proof.
  unfold validate_card. destruct (py_iter cards) as [l|e'] eqn:E.
  - apply validate_loop_raise.
  - intros H. inversion H; subst. eapply py_iter_raise. exact E.
Qed.

Lemma collect_raise (data result : dict) (lemmas : list pystr) (e : exn) :
  collect data result lemmas = Raise e -> is_rate_limit e = false.
Proof.
  revert result. induction lemmas as [|l lemmas IH]; intros result; simpl.
  - discriminate.
  - destruct (dict_get l data) as [cards|]; [|apply IH].
    destruct (validate_card l cards) as [[|c v]|e'] eqn:E.
    + apply IH.
    + apply IH.
    + intros H. inversion H; subst. eapply validate_card_raise. exact E.
Qed.

(** Whatever makes an attempt fail, besides an exception of the service
    itself, is no rate-limit error. *)
Lemma response_outcome_raise (lemmas : list pystr) (r : outcome pyval) (e : exn) :
  response_outcome lemmas r = Raise e ->
  r = Raise e \/ is_rate_limit e = false.
Proof.
  destruct r as [v|e']; simpl.
  - intros H. right.
    destruct v; try (inversion H; subst; reflexivity).
    eapply collect_raise. exact H.
  - intros H. left. inversion H. reflexivity.
Qed.

(** ** The delays of the exponential backoff *)

Lemma sleeps_app (a b : list event) : sleeps (a ++ b) = sleeps a ++ sleeps b.
Proof. apply flat_map_app. Qed.

Lemma requests_app (a b : list event) : requests (a ++ b) = requests a ++ requests b.
Proof. apply flat_map_app. Qed.

Lemma saves_app (a b : list event) : saves (a ++ b) = saves a ++ saves b.
Proof. apply flat_map_app. Qed.

Section TransientErrors.

Variable client : service.
Variable prompt : pystr.
Variable lemmas : list pystr.

Lemma attempts_transient (todo : list Z) (w : world) :
  transient_from client prompt (calls w) (List.length todo) ->
  exists new k,
    log (snd (attempts client prompt lemmas todo w)) = log w ++ new /\
    (k <= List.length todo)%nat /\
    sleeps new = backoff_delays (firstn k todo) /\
    (List.length (requests new) <= List.length todo)%nat /\
    saves new = [].
Proof.
  revert w. induction todo as [|attempt todo IH]; intros w Hw.
  - exists [], 0%nat. simpl. rewrite app_nil_r. auto.
  - rewrite attempts_cons.
    destruct (response_outcome lemmas (client (calls w) prompt)) as [r|e] eqn:E.
    + exists [Request prompt], 0%nat. simpl. repeat split; auto; lia.
    + destruct (issubclass (exn_class_of e) Exception).
      * assert (He : is_rate_limit e = false).
        { destruct (response_outcome_raise _ _ E) as [H|H]; [|exact H].
          apply (Hw 0%nat); [simpl; lia|]. rewrite Nat.add_0_r. exact H. }
        rewrite (on_error_transient _ _ _ He), backoff_eq.
        set (w1 := if attempt <? MAX_RETRIES
                   then slept (2 ^ attempt) (requested prompt w)
                   else requested prompt w).
        assert (Hc : calls w1 = S (calls w))
          by (unfold w1; destruct (attempt <? MAX_RETRIES); reflexivity).
        destruct (IH w1) as (new & k & Hlog & Hk & Hs & Hr & Hsv).
        { intros i e' Hlt Hi. apply (Hw (S i)); [simpl; lia|].
          rewrite Hc in Hi. rewrite Nat.add_succ_r. exact Hi. }
        exists ((Request prompt
                 :: if attempt <? MAX_RETRIES then [Sleep (2 ^ attempt)] else [])
                ++ new), (S k).
        rewrite Hlog. unfold w1.
        rewrite sleeps_app, requests_app, saves_app, Hs, Hsv, length_app.
        unfold backoff_delays. cbn [firstn flat_map].
        destruct (attempt <? MAX_RETRIES); simpl;
          rewrite <- ?app_assoc; simpl; repeat split; auto; lia.
      * exists [Request prompt], 0%nat. simpl. repeat split; auto; lia.
Qed.

End TransientErrors.

Lemma attempts_of_generate_batch :
  py_range 1 (MAX_RETRIES + 1) = [1; 2; 3; 4; 5].
Proof. reflexivity. Qed.

(** C8: when the errors a batch meets in its five attempts are all
    transient (none takes the rate-limit branch), the sleeps of
    [generate_batch] are 2, 4, 8, 16 seconds as far as they go, one of
    [2 ^ attempt] seconds after each failed attempt but the last, so they
    never decrease; and at most five requests are made. *)
Theorem transient_backoff_nondecreasing (client : service)
  (template : pystr) (lemmas : list pystr) (w : world) :
  transient_from client (build_prompt template lemmas) (calls w) 5 ->
  exists new k,
    log (snd (generate_batch client template lemmas w)) = log w ++ new /\
    (k <= 4)%nat /\
    sleeps new = List.map (fun attempt => 2 ^ attempt) (py_range 1 (1 + Z.of_nat k)) /\
    Sorted Z.le (sleeps new) /\
    (List.length (requests new) <= Z.to_nat MAX_RETRIES)%nat.
Proof.
  intros H. unfold generate_batch. rewrite attempts_of_generate_batch.
  destruct (attempts_transient lemmas [1; 2; 3; 4; 5] w H)
    as (new & k & Hlog & Hk & Hs & Hr & _).
  assert (Hd : exists k', (k' <= 4)%nat /\
             backoff_delays (firstn k [1; 2; 3; 4; 5])
             = List.map (fun attempt => 2 ^ attempt) (py_range 1 (1 + Z.of_nat k'))).
  { simpl in Hk.
    destruct k as [|[|[|[|[|[|k]]]]]]; try lia;
      [exists 0%nat | exists 1%nat | exists 2%nat | exists 3%nat
      | exists 4%nat | exists 4%nat]; (split; [lia | reflexivity]). }
  destruct Hd as (k' & Hk' & Hd).
  exists new, k'. rewrite Hs, Hd. repeat split; auto.
  destruct k' as [|[|[|[|[|k']]]]]; try lia; simpl;
    repeat (constructor; try discriminate).
Qed.

(** The theorem at work on a service that always fails with an error that
    is no rate limit. *)
Lemma transient_backoff_nondecreasing_witness :
  exists new k,
    log (snd (generate_batch (failing APIError "503 UNAVAILABLE")
                (lit "{LEMMA_LIST}") [lit "le"] (World 0 Absent [])))
    = [] ++ new /\
    (k <= 4)%nat /\
    sleeps new = List.map (fun attempt => 2 ^ attempt) (py_range 1 (1 + Z.of_nat k)) /\
    Sorted Z.le (sleeps new) /\
    (List.length (requests new) <= Z.to_nat MAX_RETRIES)%nat.
Proof.
  apply (@transient_backoff_nondecreasing (failing APIError "503 UNAVAILABLE")
           (lit "{LEMMA_LIST}") [lit "le"] (World 0 Absent [])).
  intros i e _ H. unfold failing in H. inversion H. reflexivity.
Defined.

(** All five attempts fail with a transient error: four sleeps, five
    requests, and the empty mapping. *)
Example transient_backoff_run :
  generate_batch (failing APIError "503 UNAVAILABLE")
    (lit "Mots: {LEMMA_LIST}") [lit "le"; lit "la"] (World 0 Absent [])
  = (Ok [],
     World 5 Absent
       [Request (lit "Mots: le, la"); Sleep 2;
        Request (lit "Mots: le, la"); Sleep 4;
        Request (lit "Mots: le, la"); Sleep 8;
        Request (lit "Mots: le, la"); Sleep 16;
        Request (lit "Mots: le, la")]).
Proof. reflexivity. Qed.

(** ** Rate-limit errors *)



(** The hint may be written in any decimal digits: [\d] and [float] take
    the Arabic-Indic digits of 40 as they take the ASCII ones. *)
Example retry_hint_unicode_digits :
  re_search_retry (lit "429 retry in " ++ [1636; 1632]%N ++ lit "s")
  = Some [1636; 1632]%N /\
  int_float [1636; 1632]%N = Ok 40 /\
  sleeps (log (snd (generate_batch
                      (fun _ _ =>
                         Raise (Exn APIError
                                  (lit "429 retry in " ++ [1636; 1632]%N ++ lit "s")))
                      (lit "{LEMMA_LIST}") [lit "le"] (World 0 Absent []))))
  = [45; 60; 90; 120; 150] /\
  int_float [1636; 46; 1632; 46; 1633]%N
  = Raise (Exn ValueError
             (lit "could not convert string to float: '"
              ++ [1636; 46; 1632; 46; 1633]%N ++ lit "'")).
Proof. repeat split; reflexivity. Qed.


(** ** Exhausted retries *)

Lemma on_error_handled (attempt : Z) (e : exn) (w : world) :
  handled e ->
  0 <= 30 * attempt <= SURE_WAIT ->
  exists w', on_error attempt e w = (Ok tt, w') /\
             calls w' = calls w /\ disk w' = disk w /\
             exists new, log w' = log w ++ new /\ saves new = [] /\ requests new = [].
Proof.
  intros [_ H] Ha. destruct (is_rate_limit e) eqn:E.
  - rewrite (on_error_rate_limit _ _ _ E).
    destruct (re_search_retry (exn_msg e)) as [g|] eqn:Eg.
    + destruct (H eq_refl g eq_refl) as (v & -> & Hv).
      rewrite sleep_ok by (unfold SLEEP_MAX, SURE_WAIT in *; lia).
      eexists. split; [reflexivity|]. repeat split.
      eexists. split; [reflexivity|]. split; reflexivity.
    + rewrite sleep_ok by (unfold SLEEP_MAX, SURE_WAIT in *; lia).
      eexists. split; [reflexivity|]. repeat split.
      eexists. split; [reflexivity|]. split; reflexivity.
  - rewrite (on_error_transient _ _ _ E), backoff_eq.
    eexists. split; [reflexivity|].
    destruct (attempt <? MAX_RETRIES); repeat split.
    + eexists. split; [reflexivity|]. split; reflexivity.
    + exists []. rewrite app_nil_r. repeat split.
Qed.

Section Exhaustion.

Variable client : service.
Variable prompt : pystr.
Variable lemmas : list pystr.

(** When every attempt fails and is handled, the loop runs to its end and
    returns the empty mapping, having made one request per attempt and
    written nothing. *)
Lemma attempts_exhausted (todo : list Z) (w : world) :
  Forall (fun attempt => 0 <= 30 * attempt <= SURE_WAIT) todo ->
  all_fail client prompt lemmas (calls w) (List.length todo) ->
  exists w',
    attempts client prompt lemmas todo w = (Ok [], w') /\
    calls w' = (calls w + List.length todo)%nat /\
    disk w' = disk w /\
    exists new, log w' = log w ++ new /\ saves new = [] /\
                List.length (requests new) = List.length todo.
Proof.
  revert w. induction todo as [|attempt todo IH]; intros w Ht H.
  - exists w. simpl. repeat split; [lia|]. exists []. rewrite app_nil_r. auto.
  - rewrite attempts_cons.
    destruct (H 0%nat) as (e & He & Hh); [simpl; lia|].
    rewrite Nat.add_0_r in He. rewrite He.
    destruct Hh as [Hex Hh]. rewrite Hex.
    inversion Ht as [|? ? Ha Ht']. subst.
    destruct (@on_error_handled attempt e (requested prompt w) (conj Hex Hh) Ha)
      as (w1 & -> & Hc1 & Hd1 & new1 & Hl1 & Hs1 & Hr1).
    destruct (IH w1 Ht') as (w' & -> & Hc & Hd & new & Hl & Hs & Hr).
    { intros i Hi. destruct (H (S i)) as (e' & He' & Hh'); [simpl; lia|].
      exists e'. split; [|exact Hh'].
      rewrite Hc1. simpl. rewrite <- Nat.add_succ_r. exact He'. }
    exists w'. split; [reflexivity|]. rewrite Hc, Hd, Hc1, Hd1. simpl.
    repeat split; [lia|].
    exists (Request prompt :: new1 ++ new).
    rewrite Hl, Hl1. simpl. rewrite <- !app_assoc. simpl.
    rewrite saves_app, requests_app, length_app, Hs1, Hs, Hr1, Hr.
    repeat split.
Qed.

End Exhaustion.

(** C4, on the inputs where it holds: when each of the five attempts fails
    with an exception that the handler takes (for a rate-limit error with a
    hint: the hint reads as a number, and that number plus five is a wait
    of at most [SURE_WAIT] seconds), [generate_batch] returns the empty
    mapping after five requests, and [main]'s loop body records every lemma
    of the batch as failed, leaves [existing] as it is and writes nothing:
    the store file is untouched, so the lemmas stay absent. *)
Lemma retry_exhaustion_handled (client : service) (template : pystr)
  (total_batches i : nat) (batch : list pystr) (p : progress) (w : world) :
  all_fail client (build_prompt template batch) batch (calls w) 5 ->
  exists w',
    generate_batch client template batch w = (Ok [], w') /\
    exists w'',
      run_batch client template total_batches i batch p w
      = (Ok (Progress (p_existing p) (p_generated_count p)
               (p_failed_lemmas p ++ batch)), w'') /\
      calls w'' = (calls w + 5)%nat /\
      disk w'' = disk w /\
      exists new, log w'' = log w ++ new /\ saves new = [].
Proof.
  intros H.
  assert (Ht : Forall (fun attempt => 0 <= 30 * attempt <= SURE_WAIT)
                      [1; 2; 3; 4; 5])
    by (repeat constructor; unfold SURE_WAIT; lia).
  destruct (@attempts_exhausted client (build_prompt template batch) batch
              [1; 2; 3; 4; 5] w Ht H)
    as (w' & Hg & Hc & Hd & new & Hl & Hs & _).
  exists w'. split; [exact Hg|].
  unfold run_batch, bind. unfold generate_batch.
  rewrite attempts_of_generate_batch, Hg. unfold ret.
  destruct (Z.of_nat i <? Z.of_nat total_batches - 1).
  - eexists. split; [reflexivity|]. simpl. repeat split; auto.
    exists (new ++ [Sleep SLEEP_BETWEEN]). rewrite Hl, <- app_assoc.
    split; [reflexivity|]. rewrite saves_app, Hs. reflexivity.
  - eexists. split; [reflexivity|]. simpl. repeat split; auto.
    exists new. auto.
Qed.

(** C4, where the code leaves the claim: a rate-limit error whose text holds
    a hint that is no number ([retry in ...s], [retry in 1.2.3s]) makes
    [float] raise [ValueError] inside the handler.  Here four attempts fail
    with a transient error and the fifth with such a rate-limit error: all
    five attempts have failed, and [generate_batch] raises instead of
    returning the empty mapping.  [main]'s loop body raises with it, before
    any lemma is recorded as failed. *)
Lemma retry_exhaustion_escapes :
  generate_batch
    (failing_then 4 (Exn APIError (lit "503 UNAVAILABLE"))
       (Exn APIError (lit "429 RESOURCE_EXHAUSTED: quota exceeded, retry in ...s")))
    (lit "{LEMMA_LIST}") [lit "le"] (World 0 Absent [])
  = (Raise (Exn ValueError (lit "could not convert string to float: '...'")),
     World 5 Absent
       [Request (lit "le"); Sleep 2; Request (lit "le"); Sleep 4;
        Request (lit "le"); Sleep 8; Request (lit "le"); Sleep 16;
        Request (lit "le")]) /\
  fst (run_batch
         (failing_then 4 (Exn APIError (lit "503 UNAVAILABLE"))
            (Exn APIError (lit "429 RESOURCE_EXHAUSTED: quota exceeded, retry in ...s")))
         (lit "{LEMMA_LIST}") 1 0 [lit "le"] (Progress (PDict []) 0 [])
         (World 0 Absent []))
  = Raise (Exn ValueError (lit "could not convert string to float: '...'")).
Proof. split; reflexivity. Qed.

(* ================================================================== *)
(** * Dictionaries *)
(* ================================================================== *)

Lemma dict_get_set_same (k : pystr) (v : pyval) (d : dict) :
  dict_get k (dict_set k v d) = Some v.
Proof.
  induction d as [|[k' v'] d IH]; simpl.
  - rewrite str_eqb_refl. reflexivity.
  - destruct (str_eqb k k') eqn:E; simpl; rewrite E; [reflexivity | exact IH].
Qed.

Lemma dict_get_set_other (k k' : pystr) (v : pyval) (d : dict) :
  k <> k' -> dict_get k' (dict_set k v d) = dict_get k' d.
Proof.
  intros Hne. induction d as [|[k0 v0] d IH]; simpl.
  - apply str_eqb_neq in Hne. rewrite str_eqb_sym, Hne. reflexivity.
  - destruct (str_eqb k k0) eqn:E; simpl.
    + apply str_eqb_eq in E. subst k0.
      apply str_eqb_neq in Hne. rewrite str_eqb_sym, Hne. reflexivity.
    + rewrite IH. reflexivity.
Qed.

Lemma dict_in_set (k k' : pystr) (v : pyval) (d : dict) :
  dict_in k' (dict_set k v d) = str_eqb k k' || dict_in k' d.
Proof.
  unfold dict_in. destruct (str_eqb k k') eqn:E.
  - apply str_eqb_eq in E. subst. rewrite dict_get_set_same. reflexivity.
  - apply str_eqb_neq in E. rewrite (dict_get_set_other _ _ E). reflexivity.
Qed.

Lemma dict_in_cons (k k' : pystr) (v : pyval) (d : dict) :
  dict_in k ((k', v) :: d) = str_eqb k k' || dict_in k d.
Proof. unfold dict_in. simpl. destruct (str_eqb k k'); reflexivity. Qed.

(** [d.update(other)] leaves the entries whose key is not in [other]. *)
Lemma dict_update_other (d other : dict) (k : pystr) :
  dict_in k other = false ->
  dict_get k (dict_update d other) = dict_get k d.
Proof.
  unfold dict_update. revert d.
  induction other as [|[k' v'] other IH]; intros d H; simpl.
  - reflexivity.
  - rewrite dict_in_cons in H. apply orb_false_iff in H. destruct H as [H1 H2].
    rewrite (IH _ H2). apply dict_get_set_other.
    apply str_eqb_neq. rewrite str_eqb_sym. exact H1.
Qed.

(** The keys after [d.update(other)] are those of [d] and of [other]. *)
Lemma dict_in_update (d other : dict) (k : pystr) :
  dict_in k (dict_update d other) = dict_in k d || dict_in k other.
Proof.
  unfold dict_update. revert d.
  induction other as [|[k' v'] other IH]; intros d; simpl.
  - rewrite orb_false_r. reflexivity.
  - rewrite IH, dict_in_set, dict_in_cons. simpl.
    rewrite (str_eqb_sym k k').
    destruct (str_eqb k' k), (dict_in k d), (dict_in k other); reflexivity.
Qed.

(* ================================================================== *)
(** * What a batch returns and what it touches *)
(* ================================================================== *)

(** The keys of the result of the validation loop are lemmas of the batch:
    whatever else the response holds is never looked at.  And a lemma is
    given a key only with the non-empty list of its validated cards. *)
Lemma collect_keys (data : dict) (lemmas : list pystr) (result0 result : dict) :
  collect data result0 lemmas = Ok result ->
  forall k, dict_in k result = true ->
    dict_in k result0 = true \/
    (In k lemmas /\
     exists cards c valid,
       dict_get k data = Some cards /\
       validate_card k cards = Ok (c :: valid)).
Proof.
  revert result0. induction lemmas as [|l lemmas IH]; intros result0 H k Hk.
  - simpl in H. inversion H; subst. left. exact Hk.
  - simpl in H. destruct (dict_get l data) as [cards|] eqn:Ed.
    + destruct (validate_card l cards) as [[|c valid]|e] eqn:Ev.
      * destruct (IH _ H k Hk) as [H0 | [H1 H2]]; [left; exact H0|].
        right. split; [right; exact H1 | exact H2].
      * destruct (IH _ H k Hk) as [H0 | [H1 H2]].
        -- rewrite dict_in_set in H0. apply orb_true_iff in H0.
           destruct H0 as [H0|H0]; [|left; exact H0].
           apply str_eqb_eq in H0. subst k. right. split; [left; reflexivity|].
           exists cards, c, valid. auto.
        -- right. split; [right; exact H1 | exact H2].
      * discriminate.
    + destruct (IH _ H k Hk) as [H0 | [H1 H2]]; [left; exact H0|].
      right. split; [right; exact H1 | exact H2].
Qed.

Lemma response_outcome_keys (lemmas : list pystr) (r : outcome pyval) (result : dict) :
  response_outcome lemmas r = Ok result ->
  forall k, dict_in k result = true -> In k lemmas.
Proof.
  destruct r as [[| | | | | |data]|e]; simpl; try discriminate.
  intros H k Hk. destruct (collect_keys _ _ _ H k Hk) as [H0 | [H1 _]].
  - discriminate.
  - exact H1.
Qed.

Section Frame.

Variable client : service.

Lemma on_error_frame (attempt : Z) (e : exn) (w : world) :
  exists new,
    log_grows w (snd (on_error attempt e w)) new /\
    calls (snd (on_error attempt e w)) = calls w /\
    disk (snd (on_error attempt e w)) = disk w /\
    saves new = [] /\ requests new = [].
Proof.
  unfold log_grows.
  assert (S : forall seconds,
             exists new,
               log (snd (sleep seconds w)) = log w ++ new /\
               calls (snd (sleep seconds w)) = calls w /\
               disk (snd (sleep seconds w)) = disk w /\
               saves new = [] /\ requests new = []).
  { intros seconds. destruct (sleep_cases seconds w) as [->|[x ->]].
    - eexists. simpl. repeat split.
    - exists []. simpl. rewrite app_nil_r. repeat split. }
  destruct (is_rate_limit e) eqn:E.
  - rewrite (on_error_rate_limit _ _ _ E).
    destruct (re_search_retry (exn_msg e)) as [g|].
    + destruct (int_float g).
      * apply S.
      * exists []. simpl. rewrite app_nil_r. repeat split.
    + apply S.
  - rewrite (on_error_transient _ _ _ E), backoff_eq.
    destruct (attempt <? MAX_RETRIES).
    + eexists. simpl. repeat split.
    + exists []. simpl. rewrite app_nil_r. repeat split.
Qed.

(** The retry loop writes nothing, and what it returns has keys among the
    lemmas of the batch only. *)
Lemma attempts_frame (prompt : pystr) (lemmas : list pystr) (todo : list Z)
  (w : world) :
  exists new,
    log_grows w (snd (attempts client prompt lemmas todo w)) new /\
    disk (snd (attempts client prompt lemmas todo w)) = disk w /\
    saves new = [] /\
    forall result,
      fst (attempts client prompt lemmas todo w) = Ok result ->
      forall k, dict_in k result = true -> In k lemmas.
Proof.
  unfold log_grows. revert w. induction todo as [|attempt todo IH]; intros w.
  - exists []. simpl. rewrite app_nil_r. repeat split; auto.
    intros result H. inversion H; subst. discriminate.
  - rewrite attempts_cons.
    destruct (response_outcome lemmas (client (calls w) prompt)) as [r|e] eqn:E.
    + exists [Request prompt]. simpl. repeat split.
      intros result H. inversion H; subst.
        eapply response_outcome_keys. exact E.
    + destruct (issubclass (exn_class_of e) Exception).
      * destruct (on_error_frame attempt e (requested prompt w))
          as (new1 & Hl1 & Hc1 & Hd1 & Hs1 & _).
        unfold log_grows in Hl1.
        destruct (on_error attempt e (requested prompt w)) as [[[]|e'] w1];
          simpl in Hl1, Hc1, Hd1.
        -- destruct (IH w1) as (new & Hl & Hd & Hs & Hk).
           exists (Request prompt :: new1 ++ new).
           rewrite Hl, Hd, Hl1, Hd1. simpl. rewrite <- !app_assoc. simpl.
           rewrite saves_app, Hs1, Hs. repeat split.
           exact Hk.
        -- exists (Request prompt :: new1). simpl.
           rewrite Hl1, Hd1. simpl. rewrite <- app_assoc. simpl.
           repeat split; auto. discriminate.
      * exists [Request prompt]. simpl. repeat split. discriminate.
Qed.

Lemma generate_batch_frame (template : pystr) (lemmas : list pystr) (w : world) :
  exists new,
    log_grows w (snd (generate_batch client template lemmas w)) new /\
    disk (snd (generate_batch client template lemmas w)) = disk w /\
    saves new = [] /\
    forall result,
      fst (generate_batch client template lemmas w) = Ok result ->
      forall k, dict_in k result = true -> In k lemmas.
Proof.
  unfold generate_batch.
  destruct (attempts_frame (build_prompt template lemmas) lemmas
              (py_range 1 (MAX_RETRIES + 1)) w) as (new & H1 & H2 & H3 & H4).
  exists new. auto.
Qed.

End Frame.

(* ================================================================== *)
(** * The batch loop of [main] *)
(* ================================================================== *)

Lemma paused_frame (total_batches i : nat) (w : world) :
  exists new,
    log_grows w (paused total_batches i w) new /\
    disk (paused total_batches i w) = disk w /\
    calls (paused total_batches i w) = calls w /\
    saves new = [] /\ requests new = [].
Proof.
  unfold paused, log_grows. destruct (Z.of_nat i <? Z.of_nat total_batches - 1).
  - eexists. simpl. repeat split.
  - exists []. rewrite app_nil_r. repeat split.
Qed.

Section BatchLoop.

Variable client : service.
Variable template : pystr.

(** The body of the loop, by the outcome of [generate_batch]. *)
Lemma run_batch_cases (total_batches i : nat) (batch : list pystr)
  (p : progress) (w : world) :
  run_batch client template total_batches i batch p w =
  match generate_batch client template batch w with
  | (Raise e, wg) => (Raise e, wg)
  | (Ok [], wg) =>
      (Ok (Progress (p_existing p) (p_generated_count p)
             (p_failed_lemmas p ++ batch)),
       paused total_batches i wg)
  | (Ok (kv :: result), wg) =>
      match py_update (p_existing p) (kv :: result) with
      | Raise e => (Raise e, wg)
      | Ok existing =>
          (Ok (Progress existing
                 (p_generated_count p + List.length (kv :: result))
                 (p_failed_lemmas p
                  ++ filter (fun lemma => negb (dict_in lemma (kv :: result))) batch)),
           paused total_batches i (saved existing wg))
      end
  end.
Proof.
  unfold run_batch, bind, paused.
  destruct (generate_batch client template batch w) as [[[|kv result]|e] wg];
    try reflexivity.
  - unfold ret. destruct (Z.of_nat i <? Z.of_nat total_batches - 1); reflexivity.
  - unfold lift. destruct (py_update (p_existing p) (kv :: result)); [|reflexivity].
    unfold save_output, saved, ret.
    destruct (Z.of_nat i <? Z.of_nat total_batches - 1); reflexivity.
Qed.

Lemma run_batches_cons (total_batches i : nat) (batch : list pystr)
  (batches : list (list pystr)) (p : progress) (w : world) :
  run_batches client template total_batches i (batch :: batches) p w =
  match run_batch client template total_batches i batch p w with
  | (Ok p', w') => run_batches client template total_batches (S i) batches p' w'
  | (Raise e, w') => (Raise e, w')
  end.
Proof. reflexivity. Qed.

End BatchLoop.

(** [main], step by step. *)
Lemma main_unfold (client : service) (a : args) (inp : inputs) (w : world) :
  main client a inp w =
  match api_key inp with
  | None | Some [] => (Raise system_exit, w)
  | Some _ =>
    match GenerateCards.extract_lemmas (words_csv inp) with
    | Raise e => (Raise e, w)
    | Ok all_lemmas =>
      let target :=
        firstn (if 0 <? count a then Z.to_nat (count a)
                else List.length all_lemmas) all_lemmas in
      match prompt_md inp with
      | Raise e => (Raise e, w)
      | Ok template =>
        match load_existing (disk w) with
        | Raise e => (Raise e, w)
        | Ok store =>
          match py_len store with
          | Raise e => (Raise e, w)
          | Ok _ =>
            match not_in_existing store target with
            | Raise e => (Raise e, w)
            | Ok [] => (Ok (Report target [] store 0 []), w)
            | Ok (l :: todo) =>
              match py_range_step (List.length (l :: todo)) (batch_size a) with
              | Raise e => (Raise e, w)
              | Ok starts =>
                let batches :=
                  List.map (fun i => slice i (i + Z.to_nat (batch_size a)) (l :: todo))
                           starts in
                match run_batches client template (List.length batches) 0 batches
                        (Progress store 0 []) w with
                | (Ok p, w') =>
                    (Ok (Report target (l :: todo) (p_existing p)
                           (p_generated_count p) (p_failed_lemmas p)), w')
                | (Raise e, w') => (Raise e, w')
                end
              end
            end
          end
        end
      end
    end
  end.
Proof.
  unfold main. destruct (api_key inp) as [[|c k]|]; try reflexivity.
  unfold bind, lift, ret.
  destruct (GenerateCards.extract_lemmas (words_csv inp)); [|reflexivity].
  destruct (prompt_md inp); [|reflexivity].
  destruct (load_existing (disk w)) as [store|]; [|reflexivity].
  destruct (py_len store); [|reflexivity].
  destruct (not_in_existing store _) as [[|l todo]|]; reflexivity.
Qed.

(** ** The remaining lemmas and their batches *)

(** For a store that is a mapping, the remaining lemmas are the target
    lemmas that are not keys of the store, in their order. *)
Lemma not_in_existing_dict (d : dict) (target : list pystr) :
  not_in_existing (PDict d) target
  = Ok (filter (fun l => negb (dict_in l d)) target).
Proof.
  induction target as [|l target IH]; simpl; [reflexivity|].
  rewrite IH. destruct (dict_in l d); reflexivity.
Qed.

Lemma slice_incl {A} (i j : nat) (l : list A) (x : A) :
  In x (slice i j l) -> In x l.
Proof.
  unfold slice. intros H.
  rewrite <- (firstn_skipn i l). apply in_or_app. right.
  rewrite <- (firstn_skipn (j - i) (skipn i l)). apply in_or_app. left.
  exact H.
Qed.

Lemma ceil_div_bounds (n k : nat) :
  (0 < k)%nat ->
  (n <= k * ((n + k - 1) / k) /\ k * ((n + k - 1) / k) < n + k)%nat.
Proof.
  intros Hk.
  pose proof (Nat.div_mod_eq (n + k - 1) k) as E.
  pose proof (Nat.mod_upper_bound (n + k - 1) k) as B.
  lia.
Qed.


(* ================================================================== *)
(** * The store grows *)
(* ================================================================== *)

Lemma last_cons_default {A} (a d : A) (l : list A) :
  last (a :: l) d = last l a.
Proof.
  revert a d. induction l as [|b l IH]; intros a d; [reflexivity|].
  change (last (a :: b :: l) d) with (last (b :: l) d).
  rewrite (IH b d), (IH b a). reflexivity.
Qed.

Lemma extends_refl (d : dict) : extends d d.
Proof. intros k v H. exact H. Qed.

Lemma py_update_merged (batch : list pystr) (s s' : pyval) (result : dict) :
  (forall k, dict_in k result = true -> In k batch) ->
  py_update s result = Ok s' ->
  merged batch s s'.
Proof.
  intros Hk H. destruct s as [| | | | | |d]; try discriminate.
  simpl in H. inversion H; subst s'. exists d, (dict_update d result).
  repeat split.
  - intros k Hd. rewrite dict_in_update, Hd. reflexivity.
  - intros k Hd. rewrite dict_in_update in Hd. apply orb_true_iff in Hd.
    destruct Hd as [Hd|Hd]; [left; exact Hd | right; exact (Hk _ Hd)].
  - intros k Hn. apply dict_update_other.
    destruct (dict_in k result) eqn:E; [|reflexivity].
    exfalso. exact (Hn (Hk _ E)).
Qed.

Section StoreGrows.

Variable client : service.
Variable template : pystr.

(** One turn of the batch loop either leaves the store and the file alone,
    or merges a result for the batch into the store and writes the store. *)
Lemma run_batch_merge (total_batches i : nat) (batch : list pystr)
  (p : progress) (w : world) :
  exists new,
    log_grows w (snd (run_batch client template total_batches i batch p w)) new /\
    ((saves new = [] /\
      disk (snd (run_batch client template total_batches i batch p w)) = disk w /\
      forall p', fst (run_batch client template total_batches i batch p w) = Ok p' ->
                 p_existing p' = p_existing p)
     \/
     (exists s' p',
        saves new = [s'] /\
        disk (snd (run_batch client template total_batches i batch p w))
        = Document s' /\
        merged batch (p_existing p) s' /\
        fst (run_batch client template total_batches i batch p w) = Ok p' /\
        p_existing p' = s')).
Proof.
  rewrite run_batch_cases.
  destruct (generate_batch_frame client template batch w)
    as (newg & Hlg & Hdg & Hsg & Hkg).
  unfold log_grows in *.
  destruct (generate_batch client template batch w) as [[[|kv result]|e] wg];
    simpl in Hlg, Hdg, Hkg.
  - destruct (paused_frame total_batches i wg) as (newp & Hlp & Hdp & _ & Hsp & _).
    unfold log_grows in Hlp.
    exists (newg ++ newp). cbn [snd fst]. rewrite Hlp, Hlg, <- app_assoc.
    split; [reflexivity|]. left. rewrite saves_app, Hsg, Hsp, Hdp, Hdg.
    repeat split. intros p' H. inversion H. reflexivity.
  - destruct (py_update (p_existing p) (kv :: result)) as [s'|e] eqn:Eu.
    + destruct (paused_frame total_batches i (saved s' wg))
        as (newp & Hlp & Hdp & _ & Hsp & _).
      unfold log_grows in Hlp.
      exists (newg ++ [Save s'] ++ newp). cbn [snd fst].
      rewrite Hlp. simpl log. rewrite Hlg, <- !app_assoc.
      split; [reflexivity|]. right.
      eexists s', _. rewrite !saves_app, Hsg, Hsp, Hdp.
      repeat split.
      eapply py_update_merged; [exact (Hkg _ eq_refl) | exact Eu].
    + exists newg. cbn [snd fst]. split; [exact Hlg|]. left.
      repeat split; auto. discriminate.
  - exists newg. cbn [snd fst]. split; [exact Hlg|]. left.
    repeat split; auto. discriminate.
Qed.

(** The batch loop from a store that extends [d0], for batches that hold no
    key of [d0]: every store written extends [d0], each store written has
    the keys of the one before, and the loop ends with the last of them as
    its store. *)
Lemma run_batches_grow (d0 : dict) (total_batches : nat)
  (batches : list (list pystr)) :
  (forall b l, In b batches -> In l b -> dict_in l d0 = false) ->
  forall (i : nat) (p : progress) (w : world) (d : dict),
    p_existing p = PDict d -> extends d0 d ->
    exists new,
      log_grows w (snd (run_batches client template total_batches i batches p w)) new /\
      chain (p_existing p) (saves new) /\
      (forall s, In s (saves new) -> exists d', s = PDict d' /\ extends d0 d') /\
      (forall p', fst (run_batches client template total_batches i batches p w) = Ok p' ->
                  p_existing p' = last (saves new) (p_existing p)).
Proof.
  unfold log_grows.
  induction batches as [|batch batches IH]; intros Hb i p w d Hp Hext.
  - exists []. simpl. rewrite app_nil_r. repeat split.
    + intros s [].
    + intros p' H. inversion H. reflexivity.
  - rewrite run_batches_cons.
    destruct (run_batch_merge total_batches i batch p w) as (new1 & Hl1 & Hcase).
    unfold log_grows in Hl1.
    destruct (run_batch client template total_batches i batch p w) as [[p1|e] w1];
      cbn [fst snd] in *.
    + assert (Hb' : forall b l, In b batches -> In l b -> dict_in l d0 = false)
        by (intros b l H1 H2; apply (Hb b l); [right; exact H1 | exact H2]).
      destruct Hcase as [(Hs1 & _ & Hp1) | (s' & p1' & Hs1 & _ & Hm & Hf & Hp1)].
      * specialize (Hp1 _ eq_refl).
        destruct (IH Hb' (S i) p1 w1 d) as (new & Hl & Hch & Hall & Hlast);
          [congruence | exact Hext |].
        exists (new1 ++ new). rewrite Hl, Hl1, <- app_assoc, saves_app, Hs1.
        simpl. rewrite <- Hp1. auto.
      * inversion Hf; subst p1'. clear Hf.
        destruct Hm as (dp & d' & Hdp & Hd' & Hk1 & Hk2 & Hk3).
        assert (Hext' : extends d0 d').
        { intros k v Hkv. rewrite Hp in Hdp. inversion Hdp; subst dp.
          rewrite Hk3; [exact (Hext _ _ Hkv)|].
          intros Hin. pose proof (Hb batch k (or_introl eq_refl) Hin) as Hf'.
          unfold dict_in in Hf'. rewrite Hkv in Hf'. discriminate. }
        destruct (IH Hb' (S i) p1 w1 d') as (new & Hl & Hch & Hall & Hlast);
          [congruence | exact Hext' |].
        exists (new1 ++ new). rewrite Hl, Hl1, <- app_assoc, saves_app, Hs1.
        split; [reflexivity|]. split; [|split].
        -- simpl. split.
           ++ exists dp, d'. auto.
           ++ rewrite <- Hp1. exact Hch.
        -- intros s [Hs|Hs].
           ++ subst s. exists d'. auto.
           ++ apply Hall. exact Hs.
        -- intros p' H. rewrite (Hlast _ H), Hp1. simpl app.
           symmetry. apply last_cons_default.
    + destruct Hcase as [(Hs1 & _ & _) | (s' & p1' & _ & _ & _ & Hf & _)];
        [|discriminate].
      exists new1. rewrite Hs1. repeat split; auto.
      * intros s [].
      * discriminate.
Qed.

End StoreGrows.

(** C7: in a run of [main] that starts from a store that is a mapping, each
    store written has all the keys of the one written before it (the first
    those of the initial store), each of them still holds every entry of the
    initial store unchanged, and the run ends with the last store written.
    And every turn of the batch loop either leaves the store as it is or
    merges a result into it that adds only lemmas of that batch as keys,
    removes no key and changes no entry outside the batch: what else the
    response holds is ignored. *)
Theorem store_grows_monotonically (client : service) (a : args)
  (inp : inputs) (w : world) (d0 : dict) :
  load_existing (disk w) = Ok (PDict d0) ->
  (exists new,
      log_grows w (snd (main client a inp w)) new /\
      chain (PDict d0) (saves new) /\
      (forall s, In s (saves new) -> exists d, s = PDict d /\ extends d0 d) /\
      (forall rep, fst (main client a inp w) = Ok rep ->
                   existing rep = last (saves new) (PDict d0))) /\
  (forall template total_batches i batch p w1 p' w2,
      run_batch client template total_batches i batch p w1 = (Ok p', w2) ->
      p_existing p' = p_existing p \/
      merged batch (p_existing p) (p_existing p')).
Proof.
  intros Hload. split.
  - assert (Hstop : forall (r : outcome report),
               (forall rep, r = Ok rep -> existing rep = PDict d0) ->
               exists new,
                 log_grows w (snd (r, w)) new /\
                 chain (PDict d0) (saves new) /\
                 (forall s, In s (saves new) -> exists d, s = PDict d /\ extends d0 d) /\
                 (forall rep, fst (r, w) = Ok rep ->
                              existing rep = last (saves new) (PDict d0))).
    { intros r Hr. exists []. unfold log_grows. simpl. rewrite app_nil_r.
      repeat split; [intros s [] | exact Hr]. }
    rewrite main_unfold.
    destruct (api_key inp) as [[|c key]|]; try (apply Hstop; discriminate).
    destruct (GenerateCards.extract_lemmas (words_csv inp)) as [all_lemmas|e];
      [|apply Hstop; discriminate].
    cbv zeta.
    destruct (prompt_md inp) as [template|e]; [|apply Hstop; discriminate].
    rewrite Hload. cbn [py_len]. rewrite not_in_existing_dict.
    destruct (filter _ _) as [|l todo] eqn:Ef.
    { apply Hstop. intros rep H. inversion H. reflexivity. }
    destruct (py_range_step _ _) as [starts|e]; [|apply Hstop; discriminate].
    set (batches := List.map _ starts).
    destruct (@run_batches_grow client template d0 (List.length batches) batches)
      with (i := 0%nat) (p := Progress (PDict d0) 0 []) (w := w) (d := d0)
      as (new & Hl & Hch & Hall & Hlast).
    { intros b x Hb Hx. unfold batches in Hb. apply in_map_iff in Hb.
      destruct Hb as (j & <- & _). apply slice_incl in Hx.
      rewrite <- Ef in Hx. apply filter_In in Hx. destruct Hx as [_ Hx].
      apply negb_true_iff in Hx. exact Hx. }
    { reflexivity. }
    { apply extends_refl. }
    exists new.
    destruct (run_batches client template (List.length batches) 0 batches
                (Progress (PDict d0) 0 []) w) as [[p|e] w'];
      cbn [fst snd] in *; repeat split; auto.
    + intros rep H. inversion H. simpl. apply Hlast. reflexivity.
    + discriminate.
  - intros template total_batches i batch p w1 p' w2 H.
    destruct (run_batch_merge client template total_batches i batch p w1)
      as (new & _ & Hcase).
    rewrite H in Hcase. cbn [fst snd] in Hcase.
    destruct Hcase as [(_ & _ & Hp) | (s' & p1 & _ & _ & Hm & Hf & Hp)].
    + left. apply Hp. reflexivity.
    + right. inversion Hf; subst p1. rewrite Hp. exact Hm.
Qed.

(** ** A sample run *)

(** With one lemma per batch: [le] is generated and saved, [la] is missing
    from the response and is reported as failed; the key [zut] of the
    response never reaches the store. *)
Example sample_run :
  main (answering sample_response) (Args 0 1) sample_inputs sample_world
  = (let store :=
       PDict (sample_store
              ++ [(lit "le",
                   PList [card (PStr (lit "J'aime ___ pain.")) "article" ["le"%string]])]) in
     (Ok (Report [lit "le"; lit "la"; lit "et"] [lit "le"; lit "la"]
            store 1 [lit "la"]),
      World 2 (Document store)
        [Request (lit "Mots: le"); Save store; Sleep 8;
         Request (lit "Mots: la")])).
Proof. reflexivity. Qed.

(** The theorem at work on the sample run. *)
Lemma store_grows_monotonically_witness :
  (exists new,
      log_grows sample_world
        (snd (main (answering sample_response) (Args 0 1) sample_inputs sample_world))
        new /\
      chain (PDict sample_store) (saves new) /\
      (forall s, In s (saves new) ->
                 exists d, s = PDict d /\ extends sample_store d) /\
      (forall rep,
          fst (main (answering sample_response) (Args 0 1) sample_inputs sample_world)
          = Ok rep ->
          existing rep = last (saves new) (PDict sample_store))) /\
  (forall template total_batches i batch p w1 p' w2,
      run_batch (answering sample_response) template total_batches i batch p w1
      = (Ok p', w2) ->
      p_existing p' = p_existing p \/
      merged batch (p_existing p) (p_existing p')).
Proof.
  apply (@store_grows_monotonically (answering sample_response) (Args 0 1)
           sample_inputs sample_world sample_store).
  reflexivity.
Defined.

(* ================================================================== *)
(** * Resuming *)
(* ================================================================== *)

Section Resume.

Variable client : service.
Variable template : pystr.




End Resume.

Lemma filter_none {A} (f : A -> bool) (l : list A) :
  (forall x, In x l -> f x = false) -> filter f l = [].
Proof.
  induction l as [|x l IH]; intros H; [reflexivity|].
  simpl. rewrite (H x (or_introl eq_refl)). apply IH.
  intros y Hy. apply H. right. exact Hy.
Qed.


(** A first run that generates both missing lemmas in one batch. *)
Example first_run :
  main (answering full_response) (Args 0 BATCH_SIZE) sample_inputs sample_world
  = (Ok (Report [lit "le"; lit "la"; lit "et"] [lit "le"; lit "la"] full_store 2 []),
     World 1 (Document full_store) [Request (lit "Mots: le, la"); Save full_store]).
Proof. reflexivity. Qed.



(** A store file that is not UTF-8 stops [main] before anything else
    happens. *)
Example main_undecodable_store :
  main (answering full_response) (Args 0 BATCH_SIZE) sample_inputs
    (World 0 Undecodable [])
  = (Raise (Exn UnicodeDecodeError (lit "'utf-8' codec can't decode byte")),
     World 0 Undecodable []).
Proof. reflexivity. Qed.

(** A store file that holds [null], a JSON document that is no mapping:
    [load_existing] returns [None], and [main] stops at [len(existing)]. *)
Example main_null_store :
  load_existing (Document PNone) = Ok PNone /\
  main (answering full_response) (Args 0 BATCH_SIZE) sample_inputs
    (World 0 (Document PNone) [])
  = (Raise (Exn TypeError (lit "object of type 'NoneType' has no len()")),
     World 0 (Document PNone) []).
Proof. split; reflexivity. Qed.

(** A response in which one candidate has a number for its [sentence]
    fails the attempt as a whole: the valid card for [le] is not merged, the
    same response fails the next attempts too, and the batch ends empty. *)
Example generate_batch_numeric_sentence :
  fst (generate_batch
         (answering
            (PDict [(lit "le",
                     PList [card (PStr (lit "J'aime ___.")) "h" ["le"%string];
                            card (PInt 5) "h" ["x"%string]])]))
         (lit "{LEMMA_LIST}") [lit "le"] (World 0 Absent []))
  = Ok [].
Proof. reflexivity. Qed.

(* ================================================================== *)
(** * Trimming *)
(* ================================================================== *)

Lemma lstrip_idem (s : pystr) : lstrip (lstrip s) = lstrip s.
Proof.
  induction s as [|c s IH]; simpl; [reflexivity|].
  destruct (isspace c) eqn:E; [exact IH|]. simpl. rewrite E. reflexivity.
Qed.

Lemma lstrip_split (s : pystr) :
  exists ws, s = ws ++ lstrip s /\ forallb isspace ws = true.
Proof.
  induction s as [|c s (ws & H1 & H2)]; simpl.
  - exists []. auto.
  - destruct (isspace c) eqn:E.
    + exists (c :: ws). simpl. rewrite E, H2. split; [f_equal; exact H1|reflexivity].
    + exists []. auto.
Qed.

Lemma lstrip_head (s t : pystr) (c : char) :
  lstrip s = c :: t -> isspace c = false.
Proof.
  induction s as [|x s IH]; simpl; [discriminate|].
  destruct (isspace x) eqn:E; [exact IH|].
  intros H. injection H as -> _. exact E.
Qed.

Lemma lstrip_nonspace (c : char) (s : pystr) :
  isspace c = false -> lstrip (c :: s) = c :: s.
Proof. intros H. simpl. rewrite H. reflexivity. Qed.

Lemma lstrip_app_nonspace (u : pystr) (c : char) (t : pystr) :
  isspace c = false -> lstrip (u ++ c :: t) = lstrip u ++ c :: t.
Proof.
  intros H. induction u as [|x u IH]; simpl.
  - rewrite H. reflexivity.
  - destruct (isspace x); [exact IH|reflexivity].
Qed.

Lemma rstrip_split (s : pystr) :
  exists ws, s = rstrip s ++ ws /\ forallb isspace ws = true.
Proof.
  destruct (lstrip_split (rev s)) as (ws & H1 & H2).
  exists (rev ws). split.
  - unfold rstrip. rewrite <- rev_app_distr, <- H1, rev_involutive. reflexivity.
  - rewrite forallb_forall in *. intros x Hx. apply H2. apply in_rev. exact Hx.
Qed.

Lemma rstrip_idem (s : pystr) : rstrip (rstrip s) = rstrip s.
Proof. unfold rstrip. rewrite rev_involutive, lstrip_idem. reflexivity. Qed.

Lemma rstrip_app_nonspace (t : pystr) (c : char) (u : pystr) :
  isspace c = false -> rstrip (t ++ c :: u) = t ++ c :: rstrip u.
Proof.
  intros H. unfold rstrip.
  rewrite rev_app_distr. simpl rev. rewrite <- app_assoc. simpl.
  rewrite lstrip_app_nonspace by exact H.
  rewrite rev_app_distr. simpl. rewrite rev_involutive, <- app_assoc. reflexivity.
Qed.

(** Trimming a text that does not start with white space leaves its start
    as it is. *)
Lemma lstrip_rstrip_lstrip (s : pystr) :
  lstrip (rstrip (lstrip s)) = rstrip (lstrip s).
Proof.
  destruct (rstrip_split (lstrip s)) as (ws & H1 & _).
  destruct (rstrip (lstrip s)) as [|c t] eqn:E; [reflexivity|].
  apply lstrip_nonspace. simpl in H1. exact (lstrip_head _ H1).
Qed.

Lemma strip_idem (s : pystr) : strip (strip s) = strip s.
Proof.
  unfold strip. rewrite lstrip_rstrip_lstrip. apply rstrip_idem.
Qed.

Lemma strip_lstrip (s : pystr) : strip (lstrip s) = strip s.
Proof. unfold strip. rewrite lstrip_idem. reflexivity. Qed.

(* ================================================================== *)
(** * Lemma extraction: what the list holds *)
(* ================================================================== *)

Lemma candidate_trimmed (r : row) (x : pystr) :
  In x (candidate r) -> strip x = x /\ x <> [].
Proof.
  destruct r as [|c0 [|col1 r]]; simpl; try tauto.
  destruct (strip col1) as [|c s] eqn:E; simpl; [tauto|].
  intros [<-|[]]. split; [|discriminate].
  rewrite <- E. apply strip_idem.
Qed.

Lemma candidates_trimmed (rows : list row) (x : pystr) :
  In x (candidates rows) -> strip x = x /\ x <> [].
Proof.
  unfold candidates. rewrite in_flat_map. intros (r & _ & H).
  exact (candidate_trimmed _ _ H).
Qed.

(** X1.  Every lemma that [extract_lemmas] returns is trimmed: it is not
    empty and neither starts nor ends with white space, so that trimming it
    again changes nothing.  The keys that a run adds to the card store are
    therefore trimmed texts. *)
Theorem extract_lemmas_trimmed (h1 h2 : row) (rows : list row) :
  exists lemmas,
    GenerateCards.extract_lemmas (Rows (h1 :: h2 :: rows)) = Ok lemmas /\
    Forall (fun lemma => strip lemma = lemma /\ lemma <> []) lemmas.
Proof.
  eexists. split; [reflexivity|].
  rewrite scan_rows_candidates. apply Forall_forall. intros x Hx.
  apply (candidates_trimmed rows). apply firsts_In. exact Hx.
Qed.

Lemma add_new_grows (l : list pystr) (acc : list pystr) :
  exists extra,
    fold_left add_new l acc = acc ++ extra /\
    (forall x, In x extra -> ~ In x acc).
Proof.
  revert acc. induction l as [|c l IH]; intros acc; simpl.
  - exists []. rewrite app_nil_r. split; [reflexivity|]. intros x [].
  - unfold add_new at 2. destruct (str_in c acc) eqn:E.
    + apply IH.
    + destruct (IH (acc ++ [c])) as (extra & H1 & H2).
      exists (c :: extra). split.
      * rewrite H1, <- app_assoc. reflexivity.
      * intros x [<-|Hx].
        -- apply str_in_not_In. exact E.
        -- intros Hacc. apply (H2 x Hx). apply in_or_app. left. exact Hacc.
Qed.

(** X2.  Rows appended to the vocabulary file only append lemmas: the list
    for the longer file starts with the list for the shorter one, the
    lemmas that follow are new, and so the first [n] lemmas, which
    [--count n] targets, stay the same as the file grows. *)
Theorem extract_lemmas_append_rows (h1 h2 : row) (rows more : list row) :
  exists lemmas extra,
    GenerateCards.extract_lemmas (Rows (h1 :: h2 :: rows)) = Ok lemmas /\
    GenerateCards.extract_lemmas (Rows (h1 :: h2 :: rows ++ more))
    = Ok (lemmas ++ extra) /\
    (forall x, In x extra -> ~ In x lemmas) /\
    (forall n, (n <= List.length lemmas)%nat ->
               firstn n (lemmas ++ extra) = firstn n lemmas).
Proof.
  destruct (add_new_grows (candidates more)
              (fold_left GenerateCards.scan_row rows []))
    as (extra & H1 & H2).
  exists (fold_left GenerateCards.scan_row rows []), extra.
  split; [reflexivity|]. split; [|split].
  - simpl. rewrite fold_left_app, scan_rows_candidates with (rows := more).
    rewrite H1. reflexivity.
  - exact H2.
  - intros n Hn. rewrite firstn_app.
    replace (n - List.length _)%nat with 0%nat by lia.
    simpl. apply app_nil_r.
Qed.

(* ================================================================== *)
(** * The environment file *)
(* ================================================================== *)

Lemma contains_cons (p : pystr) (c : char) (s : pystr) :
  contains p (c :: s) = startswith p (c :: s) || contains p s.
Proof. reflexivity. Qed.

Lemma find_first_contains (p s : pystr) :
  contains p s = match find_first p s with Some _ => true | None => false end.
Proof.
  induction s as [|c s IH].
  - simpl. destruct (startswith p []); reflexivity.
  - rewrite contains_cons. simpl find_first.
    destruct (startswith p (c :: s)); [reflexivity|].
    simpl. rewrite IH. destruct (find_first p s) as [[a b]|]; reflexivity.
Qed.

Lemma find_first_split (p s a b : pystr) :
  find_first p s = Some (a, b) ->
  s = a ++ p ++ b /\ (p <> [] -> contains p a = false).
Proof.
  revert a b. induction s as [|c s IH]; intros a b; simpl find_first.
  - destruct (startswith p []) eqn:E; [|discriminate].
    destruct p; [|discriminate]. intros H. injection H as <- <-.
    split; [reflexivity|]. intros Hp. contradiction.
  - destruct (startswith p (c :: s)) eqn:E.
    + intros H. injection H as <- <-.
      destruct (@startswith_prefix _ _ E) as [t Ht].
      split.
      * rewrite Ht at 1. simpl. f_equal.
        rewrite Ht. clear. induction p; simpl; auto.
      * intros Hp. destruct p; [contradiction|]. reflexivity.
    + destruct (find_first p s) as [[a' b']|] eqn:F; [|discriminate].
      intros H. injection H as <- <-.
      destruct (IH _ _ eq_refl) as [H1 H2].
      split; [simpl; f_equal; exact H1|].
      intros Hp. rewrite contains_cons, (H2 Hp), orb_false_r.
      destruct (startswith p (c :: a')) eqn:E'; [|reflexivity].
      rewrite H1 in E. simpl app in E.
      change (c :: a' ++ p ++ b') with ((c :: a') ++ p ++ b') in E.
      rewrite (@startswith_extend _ _ (p ++ b') E') in E. discriminate.
Qed.

Lemma has_char_contains (c : char) (s : pystr) :
  has_char c s = contains [c] s.
Proof.
  induction s as [|x s IH]; [reflexivity|].
  rewrite contains_cons, <- IH. simpl.
  rewrite andb_true_r. reflexivity.
Qed.

Lemma has_char_app (c : char) (u v : pystr) :
  has_char c (u ++ v) = has_char c u || has_char c v.
Proof. unfold has_char. apply existsb_app. Qed.

Lemma has_char_strip (c : char) (s : pystr) :
  has_char c s = false -> has_char c (strip s) = false.
Proof.
  intros H. unfold strip.
  destruct (lstrip_split s) as (w1 & H1 & _).
  destruct (rstrip_split (lstrip s)) as (w2 & H2 & _).
  rewrite H1, H2, !has_char_app in H.
  apply orb_false_iff in H as [_ H]. apply orb_false_iff in H as [H _]. exact H.
Qed.

Lemma env_get_app (k : pystr) (e e2 : environ) :
  env_get k (e ++ e2) =
  match env_get k e with Some v => Some v | None => env_get k e2 end.
Proof.
  induction e as [|[k' v'] e IH]; simpl; [reflexivity|].
  destruct (str_eqb k k'); [reflexivity|exact IH].
Qed.

Lemma setdefault_keeps (key value : pystr) (e : environ) (k v : pystr) :
  env_get k e = Some v ->
  env_get k (snd (setdefault key value e)) = Some v.
Proof.
  intros H. unfold setdefault.
  destruct (env_get key e); [exact H|].
  destruct (has_char 0%N key || has_char 0%N value); [exact H|].
  destruct (has_char 61%N key); [exact H|].
  destruct key; [exact H|].
  simpl. rewrite env_get_app, H. reflexivity.
Qed.

Lemma load_line_entry (line : pystr) (e : environ) :
  load_line line e =
  match dotenv_entry line with
  | Some (key, value) => setdefault key value e
  | None => (Ok tt, e)
  end.
Proof.
  unfold load_line, dotenv_entry, str_partition.
  destruct (strip line) as [|c s]; [reflexivity|].
  destruct (startswith (lit "#") (c :: s)); [reflexivity|].
  rewrite find_first_contains.
  destruct (find_first (lit "=") (c :: s)) as [[a b]|]; reflexivity.
Qed.

Lemma load_line_keeps (line : pystr) (e : environ) (k v : pystr) :
  env_get k e = Some v -> env_get k (snd (load_line line e)) = Some v.
Proof.
  intros H. rewrite load_line_entry.
  destruct (dotenv_entry line) as [[key value]|]; [|exact H].
  apply setdefault_keeps. exact H.
Qed.

Lemma load_lines_keeps (lines : list pystr) (e : environ) (k v : pystr) :
  env_get k e = Some v -> env_get k (snd (load_lines lines e)) = Some v.
Proof.
  revert e. induction lines as [|line lines IH]; intros e H; [exact H|].
  simpl. pose proof (@load_line_keeps line e k v H) as H1.
  destruct (load_line line e) as [[[]|x] e1]; simpl in H1.
  - apply IH. exact H1.
  - exact H1.
Qed.

(** X3.  [load_dotenv] never changes a variable that is set: whatever the
    environment file holds, and also when a line makes it raise, every
    variable of the environment has the value afterwards that it had
    before.  A key exported in the shell thus wins over the file. *)
Theorem load_dotenv_keeps_environment (env_path : env_file) (e : environ)
  (k v : pystr) :
  env_get k e = Some v ->
  env_get k (snd (load_dotenv env_path e)) = Some v.
Proof.
  intros H. destruct env_path as [|lines]; [exact H|].
  apply load_lines_keeps. exact H.
Qed.

Lemma load_dotenv_keeps_environment_witness :
  env_get (lit "GEMINI_API_KEY")
    (snd (load_dotenv
            (EnvLines [lit "GEMINI_API_KEY=from-file"; lit "=x"; lit "A=1"])
            [(lit "GEMINI_API_KEY", lit "from-shell")]))
  = Some (lit "from-shell").
Proof.
  apply (@load_dotenv_keeps_environment
           (EnvLines [lit "GEMINI_API_KEY=from-file"; lit "=x"; lit "A=1"])
           [(lit "GEMINI_API_KEY", lit "from-shell")]).
  reflexivity.
Defined.

Lemma dotenv_entry_key (line key value : pystr) :
  dotenv_entry line = Some (key, value) -> has_char 61%N key = false.
Proof.
  unfold dotenv_entry.
  destruct (strip line) as [|c s]; [discriminate|].
  destruct (startswith (lit "#") (c :: s)); [discriminate|].
  destruct (find_first (lit "=") (c :: s)) as [[a b]|] eqn:F; [|discriminate].
  intros H. injection H as <- <-.
  apply has_char_strip. rewrite has_char_contains.
  apply (@find_first_split (lit "=") (c :: s) a b F). discriminate.
Qed.

Lemma setdefault_settable (key value : pystr) (e : environ) :
  settable (key, value) = true ->
  has_char 61%N key = false ->
  setdefault key value e =
  (Ok tt, match env_get key e with
          | Some _ => e
          | None => e ++ [(key, value)]
          end).
Proof.
  unfold settable, setdefault. simpl fst. simpl snd. intros H He.
  apply andb_true_iff in H as [H H3]. apply andb_true_iff in H as [H1 H2].
  apply negb_true_iff in H1, H2.
  destruct (env_get key e); [reflexivity|].
  rewrite H1, H2, He. simpl.
  destruct key; [discriminate|reflexivity].
Qed.

(** X4.  When every variable that the file defines can be set,
    [load_dotenv] returns, and afterwards each name has the value of the
    environment if it was set there, else the value of the first line of
    the file that defines it, else none: the environment wins over the
    file, and in the file the first definition wins. *)
Theorem load_dotenv_first_definition_wins (lines : list pystr) (e : environ) :
  forallb settable (dotenv_entries lines) = true ->
  exists e',
    load_dotenv (EnvLines lines) e = (Ok tt, e') /\
    forall k,
      env_get k e' =
      match env_get k e with
      | Some v => Some v
      | None => env_get k (dotenv_entries lines)
      end.
Proof.
  simpl load_dotenv. revert e.
  induction lines as [|line lines IH]; intros e H.
  - exists e. split; [reflexivity|]. intros k. simpl. destruct (env_get k e); reflexivity.
  - simpl load_lines. rewrite load_line_entry.
    simpl dotenv_entries in *.
    destruct (dotenv_entry line) as [[key value]|] eqn:E.
    + simpl in H. apply andb_true_iff in H as [Hs H].
      rewrite (@setdefault_settable key value e Hs (@dotenv_entry_key line key value E)).
      destruct (IH (match env_get key e with
                    | Some _ => e
                    | None => e ++ [(key, value)]
                    end) H) as (e' & H1 & H2).
      exists e'. split; [exact H1|].
      intros k. rewrite H2. simpl.
      destruct (env_get key e) as [x|] eqn:G.
      * destruct (env_get k e) eqn:G'; [reflexivity|].
        destruct (str_eqb k key) eqn:K; [|reflexivity].
        apply str_eqb_eq in K. subst k. congruence.
      * rewrite env_get_app. simpl.
        destruct (env_get k e); [reflexivity|].
        destruct (str_eqb k key); reflexivity.
    + simpl in H. apply (IH e H).
Qed.

Lemma load_dotenv_first_definition_wins_witness :
  exists e',
    load_dotenv
      (EnvLines [lit "# keys"; lit ""; lit "GEMINI_API_KEY = abc ";
                 lit "no equals sign"; lit "GEMINI_API_KEY=later";
                 lit "URL=http://x/?a=b"])
      [(lit "HOME", lit "/root")]
    = (Ok tt, e') /\
    forall k,
      env_get k e' =
      match env_get k [(lit "HOME", lit "/root")] with
      | Some v => Some v
      | None =>
          env_get k [(lit "GEMINI_API_KEY", lit "abc");
                     (lit "GEMINI_API_KEY", lit "later");
                     (lit "URL", lit "http://x/?a=b")]
      end.
Proof.
  apply (@load_dotenv_first_definition_wins
           [lit "# keys"; lit ""; lit "GEMINI_API_KEY = abc ";
            lit "no equals sign"; lit "GEMINI_API_KEY=later";
            lit "URL=http://x/?a=b"]
           [(lit "HOME", lit "/root")]).
  reflexivity.
Defined.

(* ================================================================== *)
(** * Code fences in the prompt template *)
(* ================================================================== *)

(** The equations of [sub_fence]. *)

Lemma sub_fence_pass (fence u t : pystr) :
  sub_fence fence (Matched (List.length u)) (u ++ t)
  = sub_fence fence (Matched 0) t.
Proof. induction u as [|c u IH]; simpl; [reflexivity|exact IH]. Qed.

Lemma sub_fence_match (c : char) (fence' t : pystr) :
  sub_fence (c :: fence') Copying ((c :: fence') ++ t)
  = sub_fence (c :: fence') (Matched 0) t.
Proof.
  simpl. rewrite N.eqb_refl, startswith_app. simpl.
  rewrite Nat.sub_0_r. apply sub_fence_pass.
Qed.

Lemma sub_fence_copy (fence : pystr) (c : char) (s : pystr) :
  startswith fence (c :: s) = false ->
  sub_fence fence Copying (c :: s) = c :: sub_fence fence Copying s.
Proof. intros H. simpl sub_fence. simpl in H. rewrite H. reflexivity. Qed.

Lemma sub_fence_open (fence : pystr) (c : char) (s : pystr) :
  startswith fence (c :: s) = true ->
  sub_fence fence Copying (c :: s)
  = sub_fence fence (Matched (List.length fence - 1)) s.
Proof. intros H. simpl sub_fence. simpl in H. rewrite H. reflexivity. Qed.

Lemma sub_fence_space (fence : pystr) (c : char) (s : pystr) :
  isspace c = true ->
  sub_fence fence (Matched 0) (c :: s) = sub_fence fence (Matched 0) s.
Proof. intros H. simpl. rewrite H. reflexivity. Qed.

Lemma sub_fence_resume (fence : pystr) (c : char) (s : pystr) :
  isspace c = false ->
  sub_fence fence (Matched 0) (c :: s) = sub_fence fence Copying (c :: s).
Proof. intros H. simpl. rewrite H. reflexivity. Qed.

Lemma sub_fence_absent (fence s : pystr) :
  contains fence s = false -> sub_fence fence Copying s = s.
Proof.
  induction s as [|c s IH]; intros H; [reflexivity|].
  apply contains_cons_false in H as [H1 H2].
  rewrite (sub_fence_copy _ _ _ H1), (IH H2). reflexivity.
Qed.

Lemma startswith_app_l (p q s : pystr) :
  startswith (p ++ q) s = true -> startswith p s = true.
Proof.
  revert s. induction p as [|x p IH]; intros s; [reflexivity|].
  destruct s as [|y s]; simpl; [discriminate|].
  intros H. apply andb_true_iff in H as [H1 H2].
  rewrite H1. simpl. exact (IH _ H2).
Qed.

Lemma contains_app_l (p q s : pystr) :
  contains p s = false -> contains (p ++ q) s = false.
Proof.
  induction s as [|c s IH].
  - simpl. rewrite !orb_false_r. intros H.
    destruct (startswith (p ++ q) []) eqn:E; [|reflexivity].
    rewrite (startswith_app_l _ _ _ E) in H. discriminate.
  - rewrite !contains_cons. intros H. apply orb_false_iff in H as [H1 H2].
    rewrite (IH H2), orb_false_r.
    destruct (startswith (p ++ q) (c :: s)) eqn:E; [|reflexivity].
    rewrite (startswith_app_l _ _ _ E) in H1. discriminate.
Qed.

(** X6.  A template without code fences is loaded as it is. *)
Theorem load_prompt_template_without_fence (content : pystr) :
  contains FENCE content = false ->
  load_prompt_template (Text content) = Ok content.
Proof.
  intros H. unfold load_prompt_template.
  assert (HJ : contains FENCE_JSON content = false).
  { exact (contains_app_l FENCE (lit "json") content H). }
  rewrite (sub_fence_absent _ _ HJ), (sub_fence_absent _ _ H). reflexivity.
Qed.

Lemma load_prompt_template_without_fence_witness :
  load_prompt_template (Text (lit "Write `cards` for: {LEMMA_LIST}"))
  = Ok (lit "Write `cards` for: {LEMMA_LIST}").
Proof.
  apply (@load_prompt_template_without_fence
           (lit "Write `cards` for: {LEMMA_LIST}")).
  reflexivity.
Defined.

Lemma no_fence_across (b : nat) (c : char) (rest : pystr) :
  (b <= 2)%nat -> N.eqb 96 c = false ->
  contains FENCE (repeat 96%N b ++ c :: rest) = contains FENCE rest.
Proof.
  intros Hb C. change FENCE with [96; 96; 96]%N.
  destruct b as [|[|[|b]]]; [| | |lia];
    cbn [repeat app contains startswith]; rewrite ?N.eqb_refl, ?C;
    cbn [andb orb]; rewrite ?andb_false_r; reflexivity.
Qed.

(** After [b] backquotes that have been copied, at most [2 - b] follow in
    the text: had three stood together, the first of them would have opened
    a match. *)
Lemma sub_fence_no_fence (s : pystr) :
  forall (st : sub_state) (b : nat),
    match st, b with
    | _, O => True
    | Copying, 1%nat => startswith [96; 96]%N s = false
    | Copying, 2%nat => startswith [96]%N s = false
    | _, _ => False
    end ->
    contains FENCE (repeat 96%N b ++ sub_fence FENCE st s) = false.
Proof.
  induction s as [|c s IH]; intros st b Hb.
  - destruct st, b as [|[|[|b]]]; try contradiction; reflexivity.
  - destruct st as [|[|k]].
    + (* copying *)
      destruct (startswith FENCE (c :: s)) eqn:E.
      * (* a fence opens here *)
        destruct (startswith_prefix _ _ E) as [t Ht].
        assert (b = 0%nat) as ->.
        { rewrite Ht in Hb. destruct b as [|[|[|b]]]; try contradiction;
            [reflexivity|discriminate Hb|discriminate Hb]. }
        rewrite (sub_fence_open _ _ _ E).
        apply (IH (Matched 2) 0%nat I).
      * rewrite (sub_fence_copy _ _ _ E).
        destruct (N.eqb 96 c) eqn:C.
        -- apply N.eqb_eq in C. subst c.
           destruct b as [|[|[|b]]]; try contradiction.
           ++ apply (IH Copying 1%nat). simpl in E. exact E.
           ++ apply (IH Copying 2%nat). simpl in Hb. exact Hb.
           ++ discriminate Hb.
        -- rewrite no_fence_across;
             [apply (IH Copying 0%nat I)| |exact C].
           destruct b as [|[|[|b]]]; try contradiction; lia.
    + (* in the white space after a fence *)
      destruct b; [|contradiction]. cbn [repeat app].
      destruct (isspace c) eqn:W.
      * rewrite (sub_fence_space _ _ _ W). apply (IH (Matched 0) 0%nat I).
      * rewrite (sub_fence_resume _ _ _ W).
        destruct (startswith FENCE (c :: s)) eqn:E.
        -- rewrite (sub_fence_open _ _ _ E).
           apply (IH (Matched 2) 0%nat I).
        -- rewrite (sub_fence_copy _ _ _ E).
           destruct (N.eqb 96 c) eqn:C.
           ++ apply N.eqb_eq in C. subst c.
              apply (IH Copying 1%nat). simpl in E. exact E.
           ++ rewrite <- (IH Copying 0%nat I).
              exact (@no_fence_across 0 c _ (Nat.le_0_l 2) C).
    + (* inside a fence *)
      destruct b; [|contradiction]. cbn [repeat app].
      apply (IH (Matched k) 0%nat I).
Qed.

(** X5.  The template that [load_prompt_template] returns holds no code
    fence: whatever the file holds, three backquotes in a row do not occur
    in the result. *)
Theorem load_prompt_template_no_fence (content : pystr) :
  exists template,
    load_prompt_template (Text content) = Ok template /\
    contains FENCE template = false.
Proof.
  eexists. split; [reflexivity|].
  apply (sub_fence_no_fence (sub_fence FENCE_JSON Copying content) Copying 0%nat I).
Qed.

Section KeepToken.

(** A fence and a token that do not interfere: the token does not start
    with white space or with a character of the fence, and the first
    character of the fence does not occur in the token. *)
Variable f0 : char.
Variable fence' : pystr.
Variable t0 : char.
Variable tok' : pystr.
Hypothesis token_start : has_char t0 (f0 :: fence') = false.
Hypothesis token_start_nonspace : isspace t0 = false.
Hypothesis fence_start : has_char f0 (t0 :: tok') = false.

Let fence := f0 :: fence'.
Let tok := t0 :: tok'.

Lemma sub_fence_copy_run (u t : pystr) :
  has_char f0 u = false ->
  sub_fence fence Copying (u ++ t) = u ++ sub_fence fence Copying t.
Proof.
  induction u as [|x u IH]; intros H; [reflexivity|].
  simpl in H. apply orb_false_iff in H as [Hx Hu].
  change ((x :: u) ++ t) with (x :: (u ++ t)).
  rewrite sub_fence_copy.
  - rewrite (IH Hu). reflexivity.
  - unfold fence. simpl. rewrite Hx. reflexivity.
Qed.

Lemma contains_skip (u t : pystr) :
  has_char t0 u = false -> contains tok (u ++ t) = contains tok t.
Proof.
  induction u as [|x u IH]; intros H; [reflexivity|].
  simpl in H. apply orb_false_iff in H as [Hx Hu].
  change ((x :: u) ++ t) with (x :: (u ++ t)).
  rewrite contains_cons, (IH Hu). unfold tok at 1. simpl startswith.
  rewrite Hx. reflexivity.
Qed.

Lemma sub_fence_keeps_token (n : nat) :
  forall (s : pystr) (st : sub_state),
    (List.length s <= n)%nat ->
    st = Copying \/ st = Matched 0 ->
    contains tok s = true ->
    contains tok (sub_fence fence st s) = true.
Proof.
  induction n as [|n IH]; intros s st Hn Hst H.
  - destruct s; [discriminate H|simpl in Hn; lia].
  - destruct s as [|c s]; [discriminate H|]. simpl in Hn.
    assert (HC : contains tok (sub_fence fence Copying (c :: s)) = true).
    { destruct (startswith tok (c :: s)) eqn:T.
      - destruct (startswith_prefix _ _ T) as [t Ht]. rewrite Ht.
        rewrite sub_fence_copy_run by exact fence_start.
        apply contains_startswith. apply startswith_app.
      - rewrite contains_cons, T in H. simpl in H.
        destruct (startswith fence (c :: s)) eqn:F.
        + destruct (startswith_prefix _ _ F) as [t Ht].
          rewrite Ht. unfold fence.
          rewrite sub_fence_match. fold fence.
          assert (Hc : contains tok t = true).
          { rewrite <- (contains_skip fence' t).
            - assert (Hs : s = fence' ++ t) by (injection Ht; auto).
              rewrite <- Hs. exact H.
            - simpl in token_start. apply orb_false_iff in token_start. tauto. }
          apply IH; [|right; reflexivity|exact Hc].
          assert (Hs : s = fence' ++ t) by (injection Ht; auto).
          rewrite Hs, length_app in Hn. lia.
        + rewrite (sub_fence_copy _ _ _ F), contains_cons.
          rewrite (IH s Copying); [apply orb_true_r|lia|left; reflexivity|exact H]. }
    destruct Hst as [->| ->]; [exact HC|].
    destruct (isspace c) eqn:W.
    + rewrite (sub_fence_space _ _ _ W).
      apply IH; [lia|right; reflexivity|].
      rewrite contains_cons in H. unfold tok at 1 in H. simpl startswith in H.
      destruct (N.eqb t0 c) eqn:C; [|exact H].
      apply N.eqb_eq in C. subst c. congruence.
    + rewrite (sub_fence_resume _ _ _ W). exact HC.
Qed.

End KeepToken.

(** X7.  Stripping the code fences does not lose the placeholder: a
    template file that holds [{LEMMA_LIST}] is loaded as a template that
    holds it, so that [build_prompt] has a place for the lemmas. *)
Theorem load_prompt_template_keeps_placeholder (content : pystr) :
  contains LEMMA_LIST content = true ->
  exists template,
    load_prompt_template (Text content) = Ok template /\
    contains LEMMA_LIST template = true.
Proof.
  intros H. eexists. split; [reflexivity|].
  rewrite LEMMA_LIST_chars in *.
  apply (@sub_fence_keeps_token 96%N [96; 96]%N 123%N
           [76; 69; 77; 77; 65; 95; 76; 73; 83; 84; 125]%N
           eq_refl eq_refl eq_refl _ _ Copying (le_n _) (or_introl eq_refl)).
  apply (@sub_fence_keeps_token 96%N [96; 96; 106; 115; 111; 110]%N 123%N
           [76; 69; 77; 77; 65; 95; 76; 73; 83; 84; 125]%N
           eq_refl eq_refl eq_refl _ _ Copying (le_n _) (or_introl eq_refl)).
  exact H.
Qed.

Lemma load_prompt_template_keeps_placeholder_witness :
  exists template,
    load_prompt_template
      (Text (lit "Answer as ```json {} ``` for the words {LEMMA_LIST}"))
    = Ok template /\
    contains LEMMA_LIST template = true.
Proof.
  apply (@load_prompt_template_keeps_placeholder
           (lit "Answer as ```json {} ``` for the words {LEMMA_LIST}")).
  reflexivity.
Defined.

(* ================================================================== *)
(** * The response of the service *)
(* ================================================================== *)

Lemma find_first_here (f0 : char) (f' pre rest : pystr) :
  has_char f0 pre = false ->
  find_first (f0 :: f') (pre ++ (f0 :: f') ++ rest) = Some (pre, rest).
Proof.
  induction pre as [|x pre IH]; intros H.
  - change ([] ++ (f0 :: f') ++ rest) with (f0 :: (f' ++ rest)).
    cbn [find_first startswith]. rewrite N.eqb_refl, startswith_app.
    cbn [andb List.length skipn]. f_equal. f_equal.
    clear. induction f'; simpl; auto.
  - simpl in H. apply orb_false_iff in H as [Hx Hp].
    change ((x :: pre) ++ (f0 :: f') ++ rest)
      with (x :: (pre ++ (f0 :: f') ++ rest)).
    cbn [find_first startswith]. rewrite Hx. cbn [andb].
    rewrite (IH Hp). reflexivity.
Qed.

Lemma has_char_lstrip (c : char) (s : pystr) :
  has_char c s = false -> has_char c (lstrip s) = false.
Proof.
  intros H. destruct (lstrip_split s) as (w & H1 & _).
  rewrite H1, has_char_app in H. apply orb_false_iff in H. tauto.
Qed.

Lemma has_char_rstrip (c : char) (s : pystr) :
  has_char c s = false -> has_char c (rstrip s) = false.
Proof.
  intros H. destruct (rstrip_split s) as (w & H1 & _).
  rewrite H1, has_char_app in H. apply orb_false_iff in H. tauto.
Qed.

Lemma has_char_skipn (c : char) (n : nat) (s : pystr) :
  has_char c s = false -> has_char c (skipn n s) = false.
Proof.
  intros H. rewrite <- (firstn_skipn n s), has_char_app in H.
  apply orb_false_iff in H. tauto.
Qed.

Lemma no_backquote_no_fence (s : pystr) :
  has_char 96%N s = false -> find_first FENCE s = None.
Proof.
  intros H. rewrite has_char_contains in H.
  pose proof (@contains_app_l [96%N] [96%N; 96%N] s H) as HF.
  change ([96%N] ++ [96%N; 96%N]) with FENCE in HF.
  rewrite find_first_contains in HF.
  destruct (find_first FENCE s); [discriminate|reflexivity].
Qed.

Lemma contains_app_r (p u v : pystr) :
  contains p v = true -> contains p (u ++ v) = true.
Proof.
  intros H. induction u as [|x u IH]; [exact H|].
  change ((x :: u) ++ v) with (x :: (u ++ v)).
  rewrite contains_cons, IH. apply orb_true_r.
Qed.

Lemma contains_app_left (p u v : pystr) :
  contains p u = true -> contains p (u ++ v) = true.
Proof.
  induction u as [|x u IH]; intros H.
  - simpl in H. rewrite orb_false_r in H.
    apply contains_startswith. exact (@startswith_extend _ _ v H).
  - change ((x :: u) ++ v) with (x :: (u ++ v)).
    rewrite contains_cons in *. apply orb_true_iff in H as [H|H].
    + change (x :: (u ++ v)) with ((x :: u) ++ v).
      rewrite (@startswith_extend _ _ v H). reflexivity.
    + rewrite (IH H). apply orb_true_r.
Qed.

Lemma contains_strip (p s : pystr) :
  contains p s = false -> contains p (strip s) = false.
Proof.
  intros H. destruct (contains p (strip s)) eqn:E; [|reflexivity].
  destruct (lstrip_split s) as (w1 & H1 & _).
  destruct (rstrip_split (lstrip s)) as (w2 & H2 & _).
  rewrite H1, H2 in H. fold (strip s) in H.
  rewrite (@contains_app_r _ w1 _ (@contains_app_left _ _ w2 E)) in H. discriminate.
Qed.

(** Trimming a text that holds a fence: the white space before the first
    fence and after the last one goes, at most. *)
Lemma strip_fenced (pre mid post : pystr) :
  strip (pre ++ FENCE ++ mid ++ FENCE ++ post)
  = lstrip pre ++ FENCE ++ mid ++ FENCE ++ rstrip post.
Proof.
  unfold strip. change FENCE with [96; 96; 96]%N.
  cbn [app]. rewrite lstrip_app_nonspace by reflexivity.
  transitivity
    (rstrip ((lstrip pre ++ 96%N :: 96%N :: 96%N :: mid ++ [96%N; 96%N])
             ++ 96%N :: post)).
  - f_equal. rewrite <- ?app_assoc. cbn [app]. rewrite <- ?app_assoc. reflexivity.
  - etransitivity.
    { exact (@rstrip_app_nonspace
               (lstrip pre ++ 96%N :: 96%N :: 96%N :: mid ++ [96%N; 96%N])
               96%N post eq_refl). }
    rewrite <- ?app_assoc. cbn [app]. rewrite <- ?app_assoc. reflexivity.
Qed.

Lemma strip_open_fence (pre rest : pystr) :
  strip (pre ++ FENCE ++ rest) = lstrip pre ++ FENCE ++ rstrip rest.
Proof.
  unfold strip. change FENCE with [96; 96; 96]%N.
  cbn [app]. rewrite lstrip_app_nonspace by reflexivity.
  transitivity (rstrip ((lstrip pre ++ [96%N; 96%N]) ++ 96%N :: rest)).
  - f_equal. rewrite <- ?app_assoc. reflexivity.
  - etransitivity.
    { exact (@rstrip_app_nonspace (lstrip pre ++ [96%N; 96%N]) 96%N rest eq_refl). }
    rewrite <- ?app_assoc. reflexivity.
Qed.

Lemma find_fence (pre rest : pystr) :
  has_char 96%N pre = false ->
  find_first FENCE (pre ++ FENCE ++ rest) = Some (pre, rest).
Proof. intros H. exact (@find_first_here 96%N [96; 96]%N pre rest H). Qed.

Lemma lstrip_before_fence (body post : pystr) :
  lstrip (body ++ FENCE ++ post) = lstrip body ++ FENCE ++ post.
Proof. exact (@lstrip_app_nonspace body 96%N ([96; 96]%N ++ post) eq_refl). Qed.

Lemma re_search_fence_tagged (pre body post : pystr) :
  has_char 96%N pre = false -> has_char 96%N body = false ->
  re_search_fence (pre ++ FENCE ++ lit "json" ++ body ++ FENCE ++ post)
  = Some (lstrip body).
Proof.
  intros Hp Hb. unfold re_search_fence.
  rewrite (@find_fence _ _ Hp), startswith_app.
  change (skipn 4 (lit "json" ++ body ++ FENCE ++ post))
    with (body ++ FENCE ++ post).
  rewrite lstrip_before_fence, (@find_fence _ _ (@has_char_lstrip _ _ Hb)).
  reflexivity.
Qed.

Lemma re_search_fence_plain (pre body post : pystr) :
  has_char 96%N pre = false -> has_char 96%N body = false ->
  startswith (lit "json") body = false ->
  re_search_fence (pre ++ FENCE ++ body ++ FENCE ++ post) = Some (lstrip body).
Proof.
  intros Hp Hb Hj. unfold re_search_fence.
  rewrite (@find_fence _ _ Hp).
  assert (E : startswith (lit "json") (body ++ FENCE ++ post) = false).
  { destruct (startswith (lit "json") (body ++ FENCE ++ post)) eqn:E;
      [|reflexivity].
    apply startswith_app_cases in E as [E|(p2 & Hp2 & Hn & Hs)]; [congruence|].
    destruct p2 as [|x p2]; [contradiction|].
    simpl in Hs. apply andb_true_iff in Hs as [Hx _]. apply N.eqb_eq in Hx. subst x.
    assert (F : has_char 96%N (lit "json") = true).
    { rewrite Hp2, has_char_app. simpl. apply orb_true_r. }
    discriminate F. }
  rewrite E, lstrip_before_fence, (@find_fence _ _ (@has_char_lstrip _ _ Hb)).
  reflexivity.
Qed.

Lemma extract_json_tagged (json_loads : pystr -> outcome pyval)
  (pre body post : pystr) :
  has_char 96%N pre = false ->
  has_char 96%N body = false ->
  extract_json_from_response json_loads
    (pre ++ FENCE_JSON ++ body ++ FENCE ++ post)
  = json_loads (strip body).
Proof.
  intros Hp Hb. unfold extract_json_from_response.
  change (pre ++ FENCE_JSON ++ body ++ FENCE ++ post)
    with (pre ++ FENCE ++ (lit "json" ++ body) ++ FENCE ++ post).
  rewrite strip_fenced, <- app_assoc.
  rewrite (@re_search_fence_tagged _ _ _ (@has_char_lstrip _ _ Hp) Hb).
  rewrite strip_lstrip. reflexivity.
Qed.

(** X8.  A response that wraps its JSON in a code fence: when neither the
    text before the fence nor the text inside it holds a backquote,
    [extract_json_from_response] parses exactly the trimmed inside of the
    fence, whatever surrounds the fence.  This holds for a fence opened
    with [```json], and for one opened with a bare [```] unless the inside
    itself starts with [json]. *)
Theorem extract_json_fenced (json_loads : pystr -> outcome pyval)
  (pre body post : pystr) :
  has_char 96%N pre = false ->
  has_char 96%N body = false ->
  extract_json_from_response json_loads
    (pre ++ FENCE_JSON ++ body ++ FENCE ++ post)
  = json_loads (strip body) /\
  (startswith (lit "json") body = false ->
   extract_json_from_response json_loads (pre ++ FENCE ++ body ++ FENCE ++ post)
   = json_loads (strip body)).
Proof.
  intros Hp Hb. split; [exact (@extract_json_tagged json_loads pre body post Hp Hb)|].
  intros Hj. unfold extract_json_from_response. rewrite strip_fenced.
  rewrite (@re_search_fence_plain _ _ _ (@has_char_lstrip _ _ Hp) Hb Hj).
  rewrite strip_lstrip. reflexivity.
Qed.

Lemma extract_json_fenced_witness :
  extract_json_from_response (fun text => Ok (PStr text))
    (lit "Here you are: " ++ FENCE_JSON ++ lit "  {}  " ++ FENCE ++ lit " Enjoy!")
  = Ok (PStr (lit "{}")) /\
  (startswith (lit "json") (lit "  {}  ") = false ->
   extract_json_from_response (fun text => Ok (PStr text))
     (lit "Here you are: " ++ FENCE ++ lit "  {}  " ++ FENCE ++ lit " Enjoy!")
   = Ok (PStr (lit "{}"))).
Proof.
  apply (@extract_json_fenced (fun text => Ok (PStr text))
           (lit "Here you are: ") (lit "  {}  ") (lit " Enjoy!")); reflexivity.
Defined.

(** X9.  A response without a pair of fences is parsed whole: when the
    text holds no fence, or one fence that nothing closes, the text handed
    to [json.loads] is the trimmed response; an opening fence alone is not
    taken off. *)
Theorem extract_json_unfenced (json_loads : pystr -> outcome pyval) :
  (forall text,
      contains FENCE text = false ->
      extract_json_from_response json_loads text = json_loads (strip text)) /\
  (forall pre rest,
      has_char 96%N pre = false -> has_char 96%N rest = false ->
      extract_json_from_response json_loads (pre ++ FENCE ++ rest)
      = json_loads (strip (pre ++ FENCE ++ rest))).
Proof.
  split.
  - intros text H. unfold extract_json_from_response, re_search_fence.
    pose proof (@contains_strip _ _ H) as H'.
    rewrite find_first_contains in H'.
    destruct (find_first FENCE (strip text)); [discriminate|reflexivity].
  - intros pre rest Hp Hr. unfold extract_json_from_response.
    rewrite strip_open_fence. unfold re_search_fence.
    rewrite (@find_fence _ _ (@has_char_lstrip _ _ Hp)).
    rewrite no_backquote_no_fence; [reflexivity|].
    apply has_char_lstrip.
    destruct (startswith (lit "json") (rstrip rest));
      [apply has_char_skipn|]; apply has_char_rstrip; exact Hr.
Qed.

(* ================================================================== *)
(** * Placeholder cards *)
(* ================================================================== *)

Lemma dict_set_new (k : pystr) (v : pyval) (d : dict) :
  dict_in k d = false -> dict_set k v d = d ++ [(k, v)].
Proof.
  unfold dict_in. induction d as [|[k' v'] d IH]; simpl; [reflexivity|].
  destruct (str_eqb k k'); [discriminate|].
  intros H. rewrite (IH H). reflexivity.
Qed.

Lemma dict_in_app (k : pystr) (d d' : dict) :
  dict_in k (d ++ d') = dict_in k d || dict_in k d'.
Proof.
  unfold dict_in. induction d as [|[k' v'] d IH]; simpl.
  - destruct (dict_get k d'); reflexivity.
  - destruct (str_eqb k k'); [reflexivity|exact IH].
Qed.

Lemma add_cards_all (lemmas : list pystr) :
  NoDup lemmas ->
  forall acc : dict,
    (forall l, In l lemmas -> dict_in l acc = false) ->
    fold_left Placeholders.add_cards lemmas acc
    = acc ++ List.map
               (fun l => (l, PList (Placeholders.generate_placeholder_prompts l 3)))
               lemmas.
Proof.
  induction 1 as [|l lemmas Hl Hnd IH]; intros acc Hacc.
  - simpl. rewrite app_nil_r. reflexivity.
  - cbn [fold_left List.map].
    assert (E : Placeholders.add_cards acc l
                = acc ++ [(l, PList (Placeholders.generate_placeholder_prompts l 3))]).
    { unfold Placeholders.add_cards.
      rewrite <- (@dict_set_new l _ acc (Hacc l (or_introl eq_refl))). reflexivity. }
    rewrite E, IH.
    + rewrite <- app_assoc. reflexivity.
    + intros x Hx. rewrite dict_in_app, (Hacc x (or_intror Hx)).
      unfold dict_in. simpl.
      destruct (str_eqb x l) eqn:K; [|reflexivity].
      apply str_eqb_eq in K. subst x. contradiction.
Qed.

(** X10.  The deck that process_words.py writes has exactly one entry per
    lemma of the vocabulary file, in the order of [extract_lemmas], and
    each entry holds the three placeholder cards of its lemma. *)
Theorem process_words_main_cards (h1 h2 : row) (rows : list row) :
  exists lemmas,
    ProcessWords.extract_lemmas (Rows (h1 :: h2 :: rows)) = Ok lemmas /\
    Placeholders.main (Rows (h1 :: h2 :: rows))
    = Ok (List.map
            (fun l => (l, PList (Placeholders.generate_placeholder_prompts l 3)))
            lemmas) /\
    keys (List.map
            (fun l => (l, PList (Placeholders.generate_placeholder_prompts l 3)))
            lemmas) = lemmas.
Proof.
  eexists. split; [reflexivity|]. split.
  - unfold Placeholders.main. cbn [ProcessWords.extract_lemmas].
    f_equal.
    change (fold_left ProcessWords.scan_row rows [])
      with (fold_left GenerateCards.scan_row rows []).
    rewrite scan_rows_candidates.
    apply (@add_cards_all _ (firsts_NoDup _) []).
    reflexivity.
  - unfold keys. rewrite map_map. apply map_id.
Qed.

Lemma digits_no_underscore (d : Decimal.uint) : has_char 95%N (digits d) = false.
Proof. induction d; simpl; auto. Qed.

Lemma str_of_int_no_underscore (z : Z) : has_char 95%N (str_of_int z) = false.
Proof. destruct z; simpl; auto using digits_no_underscore. Qed.

Lemma startswith_before (p s v : pystr) :
  (forall x, In x p -> has_char x v = false) ->
  startswith p (s ++ v) = startswith p s.
Proof.
  revert s. induction p as [|x p IH]; intros s H; [reflexivity|].
  destruct s as [|c s].
  - simpl. destruct v as [|y v]; [reflexivity|].
    pose proof (H x (or_introl eq_refl)) as Hx. simpl in Hx.
    apply orb_false_iff in Hx as [Hx _]. rewrite Hx. reflexivity.
  - simpl. rewrite IH; [reflexivity|].
    intros y Hy. apply H. right. exact Hy.
Qed.

Lemma blank_before (s v : pystr) :
  has_char 95%N v = false -> contains blank (s ++ v) = contains blank s.
Proof.
  intros H.
  assert (Hp : forall x, In x blank -> has_char x v = false).
  { intros x [<-|[<-|[<-|[]]]]; exact H. }
  induction s as [|c s IH].
  - simpl app. simpl (contains blank []).
    rewrite has_char_contains in H.
    exact (@contains_app_l [95%N] [95%N; 95%N] v H).
  - change ((c :: s) ++ v) with (c :: (s ++ v)).
    rewrite !contains_cons, IH.
    change (c :: (s ++ v)) with ((c :: s) ++ v).
    rewrite (@startswith_before blank (c :: s) v Hp). reflexivity.
Qed.

Lemma placeholder_blank (lemme : pystr) (i : Z) :
  contains blank
    (lit "PLACEHOLDER: Sentence for '" ++ lemme
     ++ lit "' (context " ++ str_of_int (i + 1) ++ lit ").")
  = contains blank lemme.
Proof.
  change blank with (95%N :: [95; 95]%N).
  rewrite (@contains_skip 95%N [95; 95]%N
             (lit "PLACEHOLDER: Sentence for '") _ eq_refl).
  apply blank_before.
  rewrite !has_char_app, str_of_int_no_underscore. reflexivity.
Qed.

Lemma placeholder_valid (lemme : pystr) (i : Z) :
  sentence_is_text (Placeholders.placeholder lemme i) = true /\
  is_valid_card (Placeholders.placeholder lemme i) = contains blank lemme /\
  cleaned (Placeholders.placeholder lemme i) = Placeholders.placeholder lemme i.
Proof.
  split; [reflexivity|]. split; [|reflexivity].
  rewrite <- (placeholder_blank lemme i), <- (andb_true_r (contains blank _)).
  reflexivity.
Qed.

(** X11.  The placeholder cards of process_words.py are no cards for the
    generator: [validate_card] drops every placeholder card of a lemma,
    unless the lemma itself holds the blank marker [___], in which case it
    keeps them all. *)
Theorem placeholder_cards_validated (lemma lemme : pystr) (num_prompts : Z) :
  validate_card lemma
    (PList (Placeholders.generate_placeholder_prompts lemme num_prompts))
  = Ok (if contains blank lemme
        then Placeholders.generate_placeholder_prompts lemme num_prompts
        else []).
Proof.
  unfold validate_card, Placeholders.generate_placeholder_prompts. cbn [py_iter].
  generalize (py_range 0 num_prompts) as l. intros l.
  rewrite validate_loop_text.
  - f_equal. cbn [app]. induction l as [|i l IH]; cbn [List.map filter].
    + destruct (contains blank lemme); reflexivity.
    + destruct (placeholder_valid lemme i) as (_ & -> & Hc).
      destruct (contains blank lemme); [|exact IH].
      cbn [List.map]. rewrite Hc, IH. reflexivity.
  - induction l as [|i l IH]; [reflexivity|].
    cbn [List.map forallb]. rewrite IH. reflexivity.
Qed.

(* ================================================================== *)
(** * Card validation: what is kept *)
(* ================================================================== *)

Lemma validate_one_kept (c c' : pyval) :
  validate_one c = Ok (Some c') ->
  stored_card c' = true /\ validate_one c' = Ok (Some c').
Proof.
  destruct c as [| | | | | |d]; try discriminate.
  unfold validate_one.
  set (sentence := dict_get_default k_sentence (PStr []) d).
  set (hint := dict_get_default k_hint (PStr []) d).
  set (answers := dict_get_default k_acceptedAnswers (PList []) d).
  destruct (truthy sentence) eqn:Ts; [|discriminate].
  destruct (truthy hint) eqn:Th; [|discriminate].
  destruct (truthy answers) eqn:Ta; [|discriminate].
  cbn [negb orb].
  destruct (py_in blank sentence) as [[|]|e] eqn:B; try discriminate.
  destruct answers as [| | | | |[|a answers]|]; try discriminate.
  intros H. injection H as <-.
  split.
  - cbn [stored_card]. rewrite !str_eqb_refl, Ts, Th, B. reflexivity.
  - change (dict_get_default k_sentence (PStr [])
              [(k_sentence, sentence); (k_hint, hint);
               (k_acceptedAnswers, PList (a :: answers))]) with sentence.
    change (dict_get_default k_hint (PStr [])
              [(k_sentence, sentence); (k_hint, hint);
               (k_acceptedAnswers, PList (a :: answers))]) with hint.
    change (dict_get_default k_acceptedAnswers (PList [])
              [(k_sentence, sentence); (k_hint, hint);
               (k_acceptedAnswers, PList (a :: answers))])
      with (PList (a :: answers)).
    rewrite Ts, Th, B. reflexivity.
Qed.

Lemma validate_loop_kept (cards valid0 valid : list pyval) :
  validate_loop valid0 cards = Ok valid ->
  Forall (fun c => stored_card c = true /\ validate_one c = Ok (Some c)) valid0 ->
  Forall (fun c => stored_card c = true /\ validate_one c = Ok (Some c)) valid /\
  (List.length valid <= List.length valid0 + List.length cards)%nat.
Proof.
  revert valid0. induction cards as [|c cards IH]; intros valid0 H H0.
  - injection H as <-. split; [exact H0|simpl; lia].
  - simpl in H. destruct (validate_one c) as [[c'|]|e] eqn:E; [| |discriminate].
    + destruct (IH _ H) as [H1 H2].
      * apply Forall_app. split; [exact H0|].
        constructor; [exact (@validate_one_kept _ _ E)|constructor].
      * split; [exact H1|]. rewrite length_app in H2. simpl in *. lia.
    + destruct (IH _ H H0) as [H1 H2]. split; [exact H1|simpl; lia].
Qed.

Lemma validate_loop_again (cards valid0 : list pyval) :
  Forall (fun c => stored_card c = true /\ validate_one c = Ok (Some c)) cards ->
  validate_loop valid0 cards = Ok (valid0 ++ cards).
Proof.
  intros H. revert valid0. induction H as [|c cards [_ Hc] _ IH]; intros valid0.
  - rewrite app_nil_r. reflexivity.
  - simpl. rewrite Hc, IH, <- app_assoc. reflexivity.
Qed.

Lemma validate_card_kept (lemma : pystr) (cards : pyval) (valid : list pyval) :
  validate_card lemma cards = Ok valid ->
  Forall (fun c => stored_card c = true /\ validate_one c = Ok (Some c)) valid.
Proof.
  unfold validate_card. destruct (py_iter cards) as [l|e]; [|discriminate].
  intros H. apply (@validate_loop_kept _ _ _ H). constructor.
Qed.

(** X12.  What [validate_card] returns is clean: every card it keeps has
    exactly the fields [sentence], [hint] and [acceptedAnswers], a sentence
    and a hint that are not empty, the blank marker in the sentence and at
    least one accepted answer; there are no more cards than candidates; and
    validating the result again, for any lemma, returns it unchanged. *)
Theorem validate_card_result_clean (lemma lemma' : pystr) (cards : list pyval)
  (valid : list pyval) :
  validate_card lemma (PList cards) = Ok valid ->
  forallb stored_card valid = true /\
  (List.length valid <= List.length cards)%nat /\
  validate_card lemma' (PList valid) = Ok valid.
Proof.
  intros H. unfold validate_card in *. cbn [py_iter] in *.
  destruct (@validate_loop_kept _ _ _ H (Forall_nil _)) as [H1 H2].
  split; [|split].
  - apply forallb_forall. intros c Hc.
    rewrite Forall_forall in H1. apply (H1 c Hc).
  - exact H2.
  - exact (@validate_loop_again _ [] H1).
Qed.

Lemma validate_card_result_clean_witness :
  forallb stored_card
    [PDict [(k_sentence, PStr (lit "Il ___ la."));
            (k_hint, PStr (lit "verbe")); (k_acceptedAnswers, PList [PStr (lit "est")])]]
  = true /\
  (1 <= 3)%nat /\
  validate_card (lit "avoir")
    (PList [PDict [(k_sentence, PStr (lit "Il ___ la."));
                   (k_hint, PStr (lit "verbe"));
                   (k_acceptedAnswers, PList [PStr (lit "est")])]])
  = Ok [PDict [(k_sentence, PStr (lit "Il ___ la."));
               (k_hint, PStr (lit "verbe"));
               (k_acceptedAnswers, PList [PStr (lit "est")])]].
Proof.
  apply (@validate_card_result_clean (lit "etre") (lit "avoir")
           [PDict [(lit "level", PInt 2);
                   (k_acceptedAnswers, PList [PStr (lit "est")]);
                   (k_hint, PStr (lit "verbe"));
                   (k_sentence, PStr (lit "Il ___ la."))];
            PStr (lit "no card");
            PDict [(k_sentence, PStr (lit "Il est la.")); (k_hint, PStr (lit "verbe"));
                   (k_acceptedAnswers, PList [PStr (lit "est")])]]).
  reflexivity.
Defined.

(** X13, on a list with a card that is kept, a value that is no mapping, a
    card without blank, a card without sentence and a card without
    answers. *)
Lemma validate_card_text_sentences_witness :
  validate_card (lit "le")
    (PList [card (PStr (lit "J'aime ___.")) "h" ["le"%string];
            PInt 3;
            card (PStr (lit "no blank")) "h" ["x"%string];
            PDict [(k_hint, PStr (lit "h"))];
            card (PStr (lit "___ pain")) "h" []])
  = Ok [card (PStr (lit "J'aime ___.")) "h" ["le"%string]].
Proof.
  apply (@validate_card_text_sentences (lit "le")
           [card (PStr (lit "J'aime ___.")) "h" ["le"%string];
            PInt 3;
            card (PStr (lit "no blank")) "h" ["x"%string];
            PDict [(k_hint, PStr (lit "h"))];
            card (PStr (lit "___ pain")) "h" []]).
  reflexivity.
Defined.

(* ================================================================== *)
(** * What one batch costs and what it returns *)
(* ================================================================== *)

Lemma on_error_step (attempt : Z) (e : exn) (w : world) :
  snd (on_error attempt e w) = w \/
  exists s, snd (on_error attempt e w) = slept s w.
Proof.
  assert (B : snd (backoff attempt w) = w \/
              exists s, snd (backoff attempt w) = slept s w).
  { rewrite backoff_eq. simpl.
    destruct (attempt <? MAX_RETRIES); [right; eexists; reflexivity|left; reflexivity]. }
  assert (S : forall seconds,
             snd (sleep seconds w) = w \/
             exists s, snd (sleep seconds w) = slept s w).
  { intros seconds. destruct (sleep_cases seconds w) as [->|[x ->]];
      [right; eexists; reflexivity|left; reflexivity]. }
  unfold on_error.
  destruct (issubclass (exn_class_of e) JSONDecodeError); [exact B|].
  destruct (contains (lit "429") (exn_msg e)
            || contains (lit "RESOURCE_EXHAUSTED") (exn_msg e)); [|exact B].
  destruct (re_search_retry (exn_msg e)) as [g|].
  - unfold bind, lift. destruct (int_float g) as [v|e'].
    + apply S.
    + left. reflexivity.
  - apply S.
Qed.

Section Budget.

Variable client : service.
Variable prompt : pystr.
Variable lemmas : list pystr.

Lemma attempts_budget (todo : list Z) :
  forall w : world,
  exists new k,
    log (snd (attempts client prompt lemmas todo w)) = log w ++ new /\
    disk (snd (attempts client prompt lemmas todo w)) = disk w /\
    calls (snd (attempts client prompt lemmas todo w)) = (calls w + k)%nat /\
    saves new = [] /\
    requests new = repeat prompt k /\
    (k <= List.length todo)%nat /\
    (todo = [] \/ 1 <= k)%nat /\
    (List.length (sleeps new) <= k)%nat.
Proof.
  induction todo as [|attempt todo IH]; intros w.
  - exists [], 0%nat. simpl. rewrite app_nil_r, Nat.add_0_r.
    repeat split; auto.
  - assert (One : exists new k,
               log (requested prompt w) = log w ++ new /\
               disk (requested prompt w) = disk w /\
               calls (requested prompt w) = (calls w + k)%nat /\
               saves new = [] /\ requests new = repeat prompt k /\
               (k <= List.length (attempt :: todo))%nat /\
               (attempt :: todo = [] \/ 1 <= k)%nat /\
               (List.length (sleeps new) <= k)%nat).
    { exists [Request prompt], 1%nat. simpl. rewrite Nat.add_1_r.
      repeat split; auto; lia. }
    rewrite attempts_cons.
    destruct (response_outcome lemmas (client (calls w) prompt)) as [r|e];
      [exact One|].
    destruct (issubclass (exn_class_of e) Exception); [|exact One].
    pose proof (on_error_step attempt e (requested prompt w)) as Hs.
    destruct (on_error attempt e (requested prompt w)) as [[[]|e'] w1];
      simpl snd in Hs.
    + destruct (IH w1) as (new & k & Hl & Hd & Hc & Hsv & Hr & Hk & _ & Hsl).
      destruct Hs as [->|[s ->]].
      * exists (Request prompt :: new), (S k).
        rewrite Hl, Hd, Hc. simpl. rewrite <- app_assoc. simpl.
        repeat split; auto; try lia.
        -- f_equal. exact Hr.
      * exists (Request prompt :: Sleep s :: new), (S k).
        rewrite Hl, Hd, Hc. simpl. rewrite <- !app_assoc. simpl.
        repeat split; auto; try lia.
        -- f_equal. exact Hr.
    + destruct Hs as [->|[s ->]].
      * exact One.
      * exists [Request prompt; Sleep s], 1%nat. simpl.
        rewrite <- app_assoc, Nat.add_1_r. simpl.
        repeat split; auto; lia.
Qed.

Lemma attempts_result (todo : list Z) :
  forall (w : world) (result : dict),
    fst (attempts client prompt lemmas todo w) = Ok result ->
    result = [] \/
    exists n data,
      client n prompt = Ok (PDict data) /\ collect data [] lemmas = Ok result.
Proof.
  induction todo as [|attempt todo IH]; intros w result.
  - simpl. intros H. injection H as <-. left. reflexivity.
  - rewrite attempts_cons.
    destruct (response_outcome lemmas (client (calls w) prompt)) as [r|e] eqn:R.
    + simpl. intros H. injection H as <-. right.
      exists (calls w). unfold response_outcome in R.
      destruct (client (calls w) prompt) as [[| | | | | |data]|e0]; try discriminate.
      exists data. split; [reflexivity|exact R].
    + destruct (issubclass (exn_class_of e) Exception); [|discriminate].
      destruct (on_error attempt e (requested prompt w)) as [[[]|e'] w1];
        [apply IH|discriminate].
Qed.

End Budget.

(** X14.  What one batch costs, whatever the service answers: between one
    and five requests, all of them with the prompt of the batch, at most
    one sleep per request, and no write to the store. *)
Theorem generate_batch_budget (client : service) (template : pystr)
  (lemmas : list pystr) (w : world) :
  exists new k,
    log_grows w (snd (generate_batch client template lemmas w)) new /\
    disk (snd (generate_batch client template lemmas w)) = disk w /\
    calls (snd (generate_batch client template lemmas w)) = (calls w + k)%nat /\
    saves new = [] /\
    requests new = repeat (build_prompt template lemmas) k /\
    (1 <= k <= Z.to_nat MAX_RETRIES)%nat /\
    (List.length (sleeps new) <= k)%nat.
Proof.
  unfold generate_batch, log_grows. rewrite attempts_of_generate_batch.
  destruct (attempts_budget client (build_prompt template lemmas) lemmas
              [1; 2; 3; 4; 5] w)
    as (new & k & Hl & Hd & Hc & Hsv & Hr & Hk & H1 & Hsl).
  exists new, k. repeat split; auto.
  - destruct H1 as [H1|H1]; [discriminate|exact H1].
Qed.

Lemma keys_dict_set (k : pystr) (v : pyval) (d : dict) :
  keys (dict_set k v d) = if dict_in k d then keys d else keys d ++ [k].
Proof.
  unfold dict_in. induction d as [|[k' v'] d IH]; simpl; [reflexivity|].
  destruct (str_eqb k k') eqn:E; [reflexivity|].
  simpl. rewrite IH. destruct (dict_get k d); reflexivity.
Qed.

Lemma dict_in_keys (k : pystr) (d : dict) :
  dict_in k d = true <-> In k (keys d).
Proof.
  unfold dict_in. induction d as [|[k' v'] d IH]; simpl.
  - split; [discriminate|tauto].
  - destruct (str_eqb k k') eqn:E.
    + apply str_eqb_eq in E. subst. tauto.
    + apply str_eqb_neq in E. rewrite IH. split; [tauto|].
      intros [H|H]; [congruence|exact H].
Qed.

Lemma dict_set_NoDup (k : pystr) (v : pyval) (d : dict) :
  NoDup (keys d) -> NoDup (keys (dict_set k v d)).
Proof.
  intros H. rewrite keys_dict_set.
  destruct (dict_in k d) eqn:E; [exact H|].
  apply NoDup_app; [exact H|repeat constructor; tauto|].
  intros x Hx [<-|[]]. apply dict_in_keys in Hx. congruence.
Qed.

Lemma dict_get_item (d : dict) (k : pystr) (v : pyval) :
  NoDup (keys d) -> In (k, v) d -> dict_get k d = Some v.
Proof.
  induction d as [|[k' v'] d IH]; simpl; [tauto|].
  intros Hn [H|H].
  - injection H as -> ->. rewrite str_eqb_refl. reflexivity.
  - inversion Hn as [|? ? Hk Hd]. subst.
    destruct (str_eqb k k') eqn:E.
    + apply str_eqb_eq in E. subst k'. exfalso. apply Hk.
      apply (in_map fst) in H. exact H.
    + apply IH; assumption.
Qed.

Lemma collect_NoDup (data : dict) (lemmas : list pystr) (result0 result : dict) :
  collect data result0 lemmas = Ok result ->
  NoDup (keys result0) -> NoDup (keys result).
Proof.
  revert result0. induction lemmas as [|l lemmas IH]; intros result0 H H0.
  - injection H as <-. exact H0.
  - simpl in H. destruct (dict_get l data) as [cards|]; [|exact (IH _ H H0)].
    destruct (validate_card l cards) as [[|c valid]|e]; [exact (IH _ H H0)| |discriminate].
    apply (IH _ H). apply dict_set_NoDup. exact H0.
Qed.

Lemma collect_values (data : dict) (lemmas : list pystr) (result0 result : dict) :
  collect data result0 lemmas = Ok result ->
  forall k v, dict_get k result = Some v ->
    dict_get k result0 = Some v \/
    (In k lemmas /\
     exists cards c valid,
       dict_get k data = Some cards /\
       validate_card k cards = Ok (c :: valid) /\
       v = PList (c :: valid)).
Proof.
  revert result0. induction lemmas as [|l lemmas IH]; intros result0 H k v Hk.
  - injection H as <-. left. exact Hk.
  - simpl in H. destruct (dict_get l data) as [cards|] eqn:D.
    + destruct (validate_card l cards) as [[|c valid]|e] eqn:V; [| |discriminate].
      * destruct (IH _ H k v Hk) as [H1|(H1 & H2)]; [left; exact H1|].
        right. split; [right; exact H1|exact H2].
      * destruct (IH _ H k v Hk) as [H1|(H1 & H2)].
        -- destruct (str_eqb l k) eqn:E.
           ++ apply str_eqb_eq in E. subst k.
              rewrite dict_get_set_same in H1. injection H1 as <-.
              right. split; [left; reflexivity|].
              exists cards, c, valid. auto.
           ++ apply str_eqb_neq in E.
              rewrite (dict_get_set_other _ _ E) in H1. left. exact H1.
        -- right. split; [right; exact H1|exact H2].
    + destruct (IH _ H k v Hk) as [H1|(H1 & H2)]; [left; exact H1|].
      right. split; [right; exact H1|exact H2].
Qed.

(** X15.  What a batch returns is fit for the store: every key of the
    result is a lemma of the batch and occurs once, and its value is a list
    of at least one card, each of them clean.  A lemma for which no card
    survives has no entry rather than an empty one. *)
Theorem generate_batch_result_cards (client : service) (template : pystr)
  (lemmas : list pystr) (w : world) (result : dict) :
  fst (generate_batch client template lemmas w) = Ok result ->
  NoDup (keys result) /\
  Forall (fun kv =>
            In (fst kv) lemmas /\
            exists c valid,
              snd kv = PList (c :: valid) /\
              forallb stored_card (c :: valid) = true) result.
Proof.
  unfold generate_batch. intros H.
  apply attempts_result in H as [->|(n & data & _ & H)].
  - split; constructor.
  - pose proof (@collect_NoDup _ _ _ _ H (NoDup_nil _)) as Hn.
    split; [exact Hn|].
    apply Forall_forall. intros [k v] Hkv. cbn [fst snd].
    destruct (@collect_values _ _ _ _ H k v (@dict_get_item _ _ _ Hn Hkv))
      as [H0|(Hin & cards & c & valid & _ & Hv & ->)]; [discriminate|].
    split; [exact Hin|]. exists c, valid. split; [reflexivity|].
    apply forallb_forall. intros x Hx.
    pose proof (@validate_card_kept _ _ _ Hv) as Hall.
    rewrite Forall_forall in Hall. apply (Hall x Hx).
Qed.

Lemma generate_batch_result_cards_witness :
  NoDup (keys [(lit "le",
                PList [card (PStr (lit "J'aime ___ pain.")) "article" ["le"%string]])]) /\
  Forall (fun kv =>
            In (fst kv) [lit "le"; lit "la"] /\
            exists c valid,
              snd kv = PList (c :: valid) /\
              forallb stored_card (c :: valid) = true)
    [(lit "le",
      PList [card (PStr (lit "J'aime ___ pain.")) "article" ["le"%string]])].
Proof.
  apply (@generate_batch_result_cards (answering sample_response)
           (lit "Mots: {LEMMA_LIST}") [lit "le"; lit "la"] (World 0 Absent [])).
  reflexivity.
Defined.

(** X16, for a service that answers every request with a rate-limit error
    whose hint is 40 seconds: the handler sleeps 45, 60, 90, 120 and 150
    seconds, and the batch is recorded as failed. *)
Lemma retry_exhaustion_handled_witness :
  exists w',
    generate_batch (failing APIError "429 RESOURCE_EXHAUSTED. Please retry in 40s.")
      (lit "Mots: {LEMMA_LIST}") [lit "le"; lit "la"] (World 0 Absent [])
    = (Ok [], w') /\
    exists w'',
      run_batch (failing APIError "429 RESOURCE_EXHAUSTED. Please retry in 40s.")
        (lit "Mots: {LEMMA_LIST}") 2 0 [lit "le"; lit "la"]
        (Progress (PDict []) 0 []) (World 0 Absent [])
      = (Ok (Progress (PDict []) 0 ([] ++ [lit "le"; lit "la"])), w'') /\
      calls w'' = (0 + 5)%nat /\
      disk w'' = Absent /\
      exists new, log w'' = [] ++ new /\ saves new = [].
Proof.
  apply (@retry_exhaustion_handled
           (failing APIError "429 RESOURCE_EXHAUSTED. Please retry in 40s.")
           (lit "Mots: {LEMMA_LIST}") 2 0 [lit "le"; lit "la"]
           (Progress (PDict []) 0 []) (World 0 Absent [])).
  intros i Hi. eexists. split; [reflexivity|].
  split; [reflexivity|]. intros Hr g Hg.
  vm_compute in Hg. injection Hg as <-.
  exists 40. split; [reflexivity|]. unfold SURE_WAIT. lia.
Defined.

(** X17.  A response in a code fence is taken at the first attempt: when
    the text of the first response wraps a JSON object in a [```json]
    fence, with no backquote before the fence or inside it, and the cards
    of the object validate, [generate_batch] returns the validated cards
    after one request, without a sleep. *)
Theorem fenced_response_first_attempt
  (json_loads : pystr -> outcome pyval)
  (generate_content : nat -> pystr -> outcome (option pystr))
  (template : pystr) (lemmas : list pystr) (w : world)
  (pre body post : pystr) (data result : dict) :
  generate_content (calls w) (build_prompt template lemmas)
  = Ok (Some (pre ++ FENCE_JSON ++ body ++ FENCE ++ post)) ->
  has_char 96%N pre = false ->
  has_char 96%N body = false ->
  json_loads (strip body) = Ok (PDict data) ->
  collect data [] lemmas = Ok result ->
  generate_batch (served json_loads generate_content) template lemmas w
  = (Ok result, requested (build_prompt template lemmas) w).
Proof.
  intros Hg Hp Hb Hj Hc. unfold generate_batch.
  rewrite attempts_of_generate_batch, attempts_cons.
  unfold served. rewrite Hg, (@extract_json_tagged json_loads pre body post Hp Hb), Hj.
  simpl. rewrite Hc. reflexivity.
Qed.

Lemma fenced_response_first_attempt_witness :
  generate_batch (served sample_json_loads sample_generate_content)
    (lit "Mots: {LEMMA_LIST}") [lit "le"; lit "la"] (World 0 Absent [])
  = (Ok [(lit "le",
          PList [card (PStr (lit "J'aime ___ pain.")) "article" ["le"%string]])],
     requested (build_prompt (lit "Mots: {LEMMA_LIST}") [lit "le"; lit "la"])
       (World 0 Absent [])).
Proof.
  apply (@fenced_response_first_attempt sample_json_loads sample_generate_content
           (lit "Mots: {LEMMA_LIST}") [lit "le"; lit "la"] (World 0 Absent [])
           (lit "Voici : ") (lit " DOC ") (lit " !")
           [(lit "le", PList [card (PStr (lit "J'aime ___ pain.")) "article" ["le"%string]]);
            (lit "zut", PList [card (PStr (lit "___ !")) "interjection" ["zut"%string]])]
           [(lit "le",
             PList [card (PStr (lit "J'aime ___ pain.")) "article" ["le"%string]])]);
    reflexivity.
Defined.

(* ================================================================== *)
(** * The batches of a run *)
(* ================================================================== *)

Lemma firstn_add_skipn {A} (a b : nat) (l : list A) :
  firstn (a + b) l = firstn a l ++ firstn b (skipn a l).
Proof.
  revert l. induction a as [|a IH]; intros l; [reflexivity|].
  destruct l as [|x l]; simpl.
  - rewrite firstn_nil. reflexivity.
  - rewrite IH. reflexivity.
Qed.

Lemma chunks_concat {A} (k m : nat) (l : list A) :
  concat (List.map (fun j => slice (j * k) (j * k + k) l) (seq 0 m))
  = firstn (m * k) l.
Proof.
  induction m as [|m IH]; [reflexivity|].
  rewrite seq_S, map_app, concat_app, IH. simpl.
  rewrite app_nil_r. unfold slice.
  replace (m * k + k - m * k)%nat with k by lia.
  replace (k + m * k)%nat with (m * k + k)%nat by lia.
  symmetry. apply firstn_add_skipn.
Qed.

(** The batches of [main] for a positive batch size, by their number. *)
Lemma batches_eq {A} (remaining : list A) (batch_size : Z) :
  0 < batch_size ->
  exists starts,
    py_range_step (List.length remaining) batch_size = Ok starts /\
    List.map (fun i => slice i (i + Z.to_nat batch_size) remaining) starts
    = List.map (fun j => slice (j * Z.to_nat batch_size)
                               (j * Z.to_nat batch_size + Z.to_nat batch_size)
                               remaining)
               (seq 0 ((List.length remaining + Z.to_nat batch_size - 1)
                       / Z.to_nat batch_size)).
Proof.
  intros H. unfold py_range_step.
  destruct (batch_size =? 0) eqn:E0; [lia|].
  destruct (batch_size <? 0) eqn:E1; [lia|].
  eexists. split; [reflexivity|]. rewrite map_map. reflexivity.
Qed.

Lemma batches_concat {A} (remaining : list A) (k : nat) :
  (0 < k)%nat ->
  concat (List.map (fun j => slice (j * k) (j * k + k) remaining)
                   (seq 0 ((List.length remaining + k - 1) / k)))
  = remaining.
Proof.
  intros Hk. rewrite chunks_concat.
  destruct (ceil_div_bounds (List.length remaining) Hk) as [B1 _].
  apply firstn_all2. lia.
Qed.

(** X18.  For a positive batch size the batches of [main] cut [remaining]
    into consecutive pieces: put end to end they give [remaining] again, so
    that every lemma is in exactly one batch, at its place; no batch is
    empty or longer than the batch size, and every batch but the last has
    exactly the batch size. *)
Theorem batches_partition (remaining : list pystr) (batch_size : Z) :
  0 < batch_size ->
  exists starts,
    py_range_step (List.length remaining) batch_size = Ok starts /\
    let batches :=
      List.map (fun i => slice i (i + Z.to_nat batch_size) remaining) starts in
    concat batches = remaining /\
    Forall (fun b => b <> [] /\ (List.length b <= Z.to_nat batch_size)%nat)
           batches /\
    (forall j, (S j < List.length batches)%nat ->
               List.length (nth j batches []) = Z.to_nat batch_size).
Proof.
  intros H. destruct (batches_eq remaining H) as (starts & Hs & Hb).
  exists starts. split; [exact Hs|]. cbv zeta. rewrite Hb. clear starts Hs Hb.
  assert (Hk : (0 < Z.to_nat batch_size)%nat) by lia.
  set (k := Z.to_nat batch_size) in *.
  destruct (ceil_div_bounds (List.length remaining) Hk) as [B1 B2].
  set (m := ((List.length remaining + k - 1) / k)%nat) in *.
  split; [exact (batches_concat remaining Hk)|]. split.
  - apply Forall_forall. intros b Hb.
    apply in_map_iff in Hb as (j & <- & Hj). apply in_seq in Hj.
    unfold slice. replace (j * k + k - j * k)%nat with k by lia.
    assert (Hlen : (List.length (firstn k (skipn (j * k) remaining)) =
                    Nat.min k (List.length remaining - j * k))%nat)
      by (rewrite length_firstn, length_skipn; reflexivity).
    split.
    + intros Hnil. rewrite Hnil in Hlen. simpl in Hlen. nia.
    + rewrite Hlen. lia.
  - intros j Hj. rewrite length_map, length_seq in Hj.
    rewrite (nth_indep _ [] ((fun j => slice (j * k) (j * k + k) remaining) 0%nat))
      by (rewrite length_map, length_seq; lia).
    pose proof (map_nth (fun j => slice (j * k) (j * k + k) remaining)
                  (seq 0 m) 0%nat j) as E.
    cbv beta in E. rewrite E, seq_nth by lia. simpl plus.
    unfold slice. replace (j * k + k - j * k)%nat with k by lia.
    rewrite length_firstn, length_skipn. nia.
Qed.

Lemma batches_partition_witness :
  exists starts,
    py_range_step (List.length [lit "le"; lit "la"; lit "et"; lit "un"; lit "de"]) 2
    = Ok starts /\
    let batches :=
      List.map (fun i => slice i (i + Z.to_nat 2)
                           [lit "le"; lit "la"; lit "et"; lit "un"; lit "de"])
               starts in
    concat batches = [lit "le"; lit "la"; lit "et"; lit "un"; lit "de"] /\
    Forall (fun b => b <> [] /\ (List.length b <= Z.to_nat 2)%nat) batches /\
    (forall j, (S j < List.length batches)%nat ->
               List.length (nth j batches []) = Z.to_nat 2).
Proof.
  apply (@batches_partition [lit "le"; lit "la"; lit "et"; lit "un"; lit "de"] 2).
  reflexivity.
Defined.

(* ================================================================== *)
(** * The summary of a run *)
(* ================================================================== *)

Lemma generate_batch_keys (client : service) (template : pystr)
  (lemmas : list pystr) (w : world) (result : dict) :
  fst (generate_batch client template lemmas w) = Ok result ->
  NoDup (keys result) /\
  (forall k, dict_in k result = true -> In k lemmas).
Proof.
  unfold generate_batch. intros H.
  apply attempts_result in H as [->|(n & data & _ & H)].
  - split; [constructor|discriminate].
  - split; [exact (@collect_NoDup _ _ _ _ H (NoDup_nil _))|].
    intros k Hk.
    destruct (@collect_keys _ _ _ _ H k Hk) as [H0|[H0 _]];
      [discriminate|exact H0].
Qed.

Lemma NoDup_app_disjoint {A} (l1 l2 : list A) (x : A) :
  NoDup (l1 ++ l2) -> In x l1 -> In x l2 -> False.
Proof.
  induction l1 as [|a l1 IH]; simpl; [tauto|].
  intros H [->|H1] H2.
  - inversion H as [|? ? Hn _]. apply Hn. apply in_or_app. right. exact H2.
  - inversion H. apply IH; assumption.
Qed.

Lemma NoDup_firstn {A} (n : nat) (l : list A) : NoDup l -> NoDup (firstn n l).
Proof.
  intros H. rewrite <- (firstn_skipn n l) in H.
  exact (NoDup_app_remove_r _ _ H).
Qed.

Lemma extract_lemmas_NoDup (f : csv_file) (lemmas : list pystr) :
  GenerateCards.extract_lemmas f = Ok lemmas -> NoDup lemmas.
Proof.
  destruct f as [|[|h1 [|h2 rows]]]; simpl; try discriminate.
  intros H. injection H as <-.
  rewrite scan_rows_candidates. apply firsts_NoDup.
Qed.

Lemma filter_keys_length (result : dict) (batch : list pystr) :
  NoDup (keys result) -> NoDup batch ->
  (forall k, dict_in k result = true -> In k batch) ->
  List.length (filter (fun l => dict_in l result) batch) = List.length result.
Proof.
  intros Hr Hb Hin.
  rewrite <- (length_map fst result). fold (keys result).
  apply Nat.le_antisymm.
  - apply NoDup_incl_length; [apply NoDup_filter; exact Hb|].
    intros x Hx. apply filter_In in Hx as [_ Hx].
    apply dict_in_keys. exact Hx.
  - apply NoDup_incl_length; [exact Hr|].
    intros x Hx. apply dict_in_keys in Hx.
    apply filter_In. split; [exact (Hin x Hx)|exact Hx].
Qed.

Section Account.

Variable client : service.
Variable template : pystr.

(** One turn of the loop: either nothing came back and the whole batch is
    counted as failed, or the result is merged, counted, and the lemmas
    that did not come back are counted as failed. *)
Lemma run_batch_step (total_batches i : nat) (batch : list pystr)
  (p p' : progress) (w w' : world) :
  run_batch client template total_batches i batch p w = (Ok p', w') ->
  (p_existing p' = p_existing p /\
   p_generated_count p' = p_generated_count p /\
   p_failed_lemmas p' = p_failed_lemmas p ++ batch) \/
  (exists d result,
      p_existing p = PDict d /\
      NoDup (keys result) /\
      (forall k, dict_in k result = true -> In k batch) /\
      p_existing p' = PDict (dict_update d result) /\
      p_generated_count p' = (p_generated_count p + List.length result)%nat /\
      p_failed_lemmas p' =
      p_failed_lemmas p ++ filter (fun l => negb (dict_in l result)) batch).
Proof.
  rewrite run_batch_cases.
  destruct (generate_batch client template batch w) as [[[|kv result]|e] wg] eqn:G.
  - intros H. injection H as <- _. left. repeat split.
  - destruct (p_existing p) as [| | | | | |d] eqn:E; simpl; try discriminate.
    intros H. injection H as <- _. right.
    exists d, (kv :: result).
    destruct (@generate_batch_keys client template batch w (kv :: result))
      as [H1 H2]; [rewrite G; reflexivity|].
    repeat split; auto.
  - discriminate.
Qed.

Lemma run_batches_account (d0 : dict) (total_batches : nat)
  (batches : list (list pystr)) :
  forall (i : nat) (p p' : progress) (w w' : world)
         (finished : list pystr) (d : dict),
    run_batches client template total_batches i batches p w = (Ok p', w') ->
    p_existing p = PDict d ->
    NoDup (finished ++ concat batches) ->
    (forall l, In l (finished ++ concat batches) -> dict_in l d0 = false) ->
    (forall k, dict_in k d = true -> dict_in k d0 = true \/ In k finished) ->
    p_failed_lemmas p = filter (fun l => negb (dict_in l d)) finished ->
    p_generated_count p = List.length (filter (fun l => dict_in l d) finished) ->
    exists d',
      p_existing p' = PDict d' /\
      p_failed_lemmas p'
      = filter (fun l => negb (dict_in l d')) (finished ++ concat batches) /\
      p_generated_count p'
      = List.length (filter (fun l => dict_in l d') (finished ++ concat batches)).
Proof.
  induction batches as [|batch batches IH];
    intros i p p' w w' finished d H Hd Hnd H0 Hk Hf Hc.
  - injection H as <- _. exists d. simpl. rewrite app_nil_r. auto.
  - rewrite run_batches_cons in H.
    destruct (run_batch client template total_batches i batch p w)
      as [[p1|e] w1] eqn:R; [|discriminate].
    simpl concat in *. rewrite app_assoc in Hnd, H0 |- *.
    assert (Hb : NoDup batch).
    { apply NoDup_app_remove_r in Hnd. exact (NoDup_app_remove_l _ _ Hnd). }
    assert (Hfresh : forall l, In l batch -> dict_in l d = false).
    { intros l Hl. destruct (dict_in l d) eqn:E; [|reflexivity].
      destruct (Hk l E) as [E0|E0].
      - rewrite H0 in E0; [discriminate|].
        apply in_or_app. left. apply in_or_app. right. exact Hl.
      - exfalso. apply NoDup_app_remove_r in Hnd.
        exact (NoDup_app_disjoint _ _ _ Hnd E0 Hl). }
    apply run_batch_step in R
      as [(E1 & E2 & E3)|(d1 & result & E0 & Hr1 & Hr2 & E1 & E2 & E3)].
    + (* the batch failed entirely *)
      apply (IH (S i) p1 p' w1 w' (finished ++ batch) d H).
      * rewrite E1. exact Hd.
      * exact Hnd.
      * exact H0.
      * intros k Hkd. destruct (Hk k Hkd) as [E|E]; [left; exact E|].
        right. apply in_or_app. left. exact E.
      * rewrite E3, Hf, filter_app. f_equal.
        symmetry. apply forallb_filter_id. apply forallb_forall.
        intros l Hl. rewrite (Hfresh l Hl). reflexivity.
      * rewrite E2, Hc, filter_app, length_app.
        rewrite (@filter_none _ (fun l => dict_in l d) batch Hfresh).
        simpl. lia.
    + (* some cards came back *)
      rewrite Hd in E0. injection E0 as <-.
      assert (Hin1 : forall l, In l finished ->
                               dict_in l (dict_update d result) = dict_in l d).
      { intros l Hl. rewrite dict_in_update.
        destruct (dict_in l result) eqn:E; [|apply orb_false_r].
        exfalso. apply NoDup_app_remove_r in Hnd.
        exact (NoDup_app_disjoint _ _ _ Hnd Hl (Hr2 l E)). }
      assert (Hin2 : forall l, In l batch ->
                               dict_in l (dict_update d result) = dict_in l result).
      { intros l Hl. rewrite dict_in_update, (Hfresh l Hl). reflexivity. }
      apply (IH (S i) p1 p' w1 w' (finished ++ batch) (dict_update d result) H).
      * exact E1.
      * exact Hnd.
      * exact H0.
      * intros k Hkd. rewrite dict_in_update in Hkd.
        apply orb_true_iff in Hkd as [E|E].
        -- destruct (Hk k E) as [E'|E']; [left; exact E'|].
           right. apply in_or_app. left. exact E'.
        -- right. apply in_or_app. right. exact (Hr2 k E).
      * rewrite E3, Hf, filter_app. f_equal.
        -- apply filter_ext_in. intros l Hl. rewrite (Hin1 l Hl). reflexivity.
        -- apply filter_ext_in. intros l Hl. rewrite (Hin2 l Hl). reflexivity.
      * rewrite E2, Hc, filter_app, length_app.
        rewrite (filter_ext_in _ _ finished Hin1).
        rewrite (filter_ext_in _ _ batch Hin2).
        rewrite (@filter_keys_length result batch Hr1 Hb Hr2). reflexivity.
Qed.

End Account.

(** X19.  The summary of a run adds up.  For a run that starts from a store
    that is a mapping, with a positive batch size, and that returns: the
    remaining lemmas are the target lemmas that the store did not hold; the
    lemmas reported as failed are exactly the remaining lemmas that the
    final store does not hold, in their order; the number reported as
    generated is the number of remaining lemmas that it holds; and so every
    remaining lemma is counted once, as generated or as failed. *)
Theorem main_accounting (client : service) (a : args) (inp : inputs)
  (w w' : world) (rep : report) (d0 : dict) :
  main client a inp w = (Ok rep, w') ->
  load_existing (disk w) = Ok (PDict d0) ->
  0 < batch_size a ->
  exists d',
    existing rep = PDict d' /\
    remaining rep
    = filter (fun l => negb (dict_in l d0)) (target_lemmas rep) /\
    failed_lemmas rep
    = filter (fun l => negb (dict_in l d')) (remaining rep) /\
    generated_count rep
    = List.length (filter (fun l => dict_in l d') (remaining rep)) /\
    (generated_count rep + List.length (failed_lemmas rep)
     = List.length (remaining rep))%nat.
Proof.
  intros H Hload Hbs. rewrite main_unfold, Hload in H.
  destruct (api_key inp) as [[|c key]|]; try discriminate.
  destruct (GenerateCards.extract_lemmas (words_csv inp)) as [all|] eqn:X;
    [|discriminate].
  destruct (prompt_md inp) as [template|]; [|discriminate].
  cbv zeta in H. cbn [py_len] in H. rewrite not_in_existing_dict in H.
  set (target := firstn (if 0 <? count a then Z.to_nat (count a)
                         else List.length all) all) in *.
  assert (Hnd : NoDup (filter (fun l => negb (dict_in l d0)) target)).
  { apply NoDup_filter. apply NoDup_firstn. exact (extract_lemmas_NoDup _ X). }
  destruct (filter (fun l => negb (dict_in l d0)) target) as [|l todo] eqn:F.
  - injection H as <- _. exists d0. simpl. rewrite F. auto.
  - destruct (batches_eq (l :: todo) Hbs) as (starts & Hs & Hb).
    rewrite Hs, Hb in H.
    destruct (run_batches _ _ _ _ _ _ _) as [[p|e] w1] eqn:R; [|discriminate].
    injection H as <- _. cbn [existing remaining failed_lemmas generated_count
                              target_lemmas].
    assert (Hk : (0 < Z.to_nat (batch_size a))%nat) by lia.
    pose proof (batches_concat (l :: todo) Hk) as Hcat.
    destruct (@run_batches_account client template d0 _ _ _ _ _ _ _ [] d0 R eq_refl)
      as (d' & E1 & E2 & E3).
    + cbn [app]. rewrite Hcat. exact Hnd.
    + cbn [app]. rewrite Hcat. intros x Hx. rewrite <- F in Hx.
      apply filter_In in Hx as [_ Hx]. apply negb_true_iff. exact Hx.
    + intros k Hkd. left. exact Hkd.
    + reflexivity.
    + reflexivity.
    + cbn [app] in E2, E3. rewrite Hcat in E2, E3.
      exists d'. rewrite F. repeat split; auto.
      rewrite E2, E3. apply filter_length.
Qed.

Lemma main_accounting_witness :
  exists d',
    PDict (sample_store
           ++ [(lit "le",
                PList [card (PStr (lit "J'aime ___ pain.")) "article" ["le"%string]])])
    = PDict d' /\
    [lit "le"; lit "la"]
    = filter (fun l => negb (dict_in l sample_store)) [lit "le"; lit "la"; lit "et"] /\
    [lit "la"] = filter (fun l => negb (dict_in l d')) [lit "le"; lit "la"] /\
    1%nat = List.length (filter (fun l => dict_in l d') [lit "le"; lit "la"]) /\
    (1 + List.length [lit "la"] = List.length [lit "le"; lit "la"])%nat.
Proof.
  apply (@main_accounting (answering sample_response) (Args 0 1) sample_inputs
           sample_world
           (World 2
              (Document
                 (PDict (sample_store
                         ++ [(lit "le",
                              PList [card (PStr (lit "J'aime ___ pain."))
                                       "article" ["le"%string]])])))
              [Request (lit "Mots: le");
               Save (PDict (sample_store
                            ++ [(lit "le",
                                 PList [card (PStr (lit "J'aime ___ pain."))
                                          "article" ["le"%string]])]));
               Sleep 8; Request (lit "Mots: la")])
           (Report [lit "le"; lit "la"; lit "et"] [lit "le"; lit "la"]
              (PDict (sample_store
                      ++ [(lit "le",
                           PList [card (PStr (lit "J'aime ___ pain."))
                                    "article" ["le"%string]])]))
              1 [lit "la"])
           sample_store).
  - reflexivity.
  - reflexivity.
  - reflexivity.
Defined.

(* ================================================================== *)
(** * What a run costs *)
(* ================================================================== *)

Section Cost.

Variable client : service.
Variable template : pystr.

Lemma run_batch_budget (total_batches i : nat) (batch : list pystr)
  (p : progress) (w : world) :
  exists new,
    log (snd (run_batch client template total_batches i batch p w))
    = log w ++ new /\
    calls (snd (run_batch client template total_batches i batch p w))
    = (calls w + List.length (requests new))%nat /\
    (1 <= List.length (requests new) <= 5)%nat /\
    (List.length (saves new) <= 1)%nat.
Proof.
  rewrite run_batch_cases. unfold generate_batch.
  rewrite attempts_of_generate_batch.
  destruct (attempts_budget client (build_prompt template batch) batch
              [1; 2; 3; 4; 5] w)
    as (new & k & Hl & _ & Hc & Hsv & Hr & Hk & H1 & _).
  assert (Hreq : List.length (requests new) = k)
    by (rewrite Hr; apply repeat_length).
  assert (Hk1 : (1 <= k <= 5)%nat).
  { destruct H1 as [H1|H1]; [discriminate|]. simpl in Hk. lia. }
  destruct (attempts client (build_prompt template batch) batch [1; 2; 3; 4; 5] w)
    as [[[|kv result]|e] wg]; simpl snd in *.
  - destruct (paused_frame total_batches i wg) as (n2 & G1 & _ & G2 & G3 & G4).
    exists (new ++ n2). unfold log_grows in G1.
    rewrite G1, G2, Hl, Hc, requests_app, saves_app, G3, G4, Hsv, !app_nil_r,
      <- app_assoc, Hreq.
    simpl. repeat split; lia.
  - destruct (py_update (p_existing p) (kv :: result)) as [existing|e'];
      cbn [snd].
    + destruct (paused_frame total_batches i (saved existing wg))
        as (n2 & G1 & _ & G2 & G3 & G4).
      exists (new ++ Save existing :: n2). unfold log_grows in G1.
      rewrite G1, G2. simpl. rewrite Hl, Hc, requests_app, saves_app, Hsv.
      simpl. rewrite G3, G4, app_nil_r, <- !app_assoc, Hreq.
      simpl. repeat split; lia.
    + exists new. simpl. rewrite Hsv, Hreq. simpl. repeat split; auto; lia.
  - exists new. simpl. rewrite Hsv, Hreq. simpl. repeat split; auto; lia.
Qed.

Lemma run_batches_budget (total_batches : nat) (batches : list (list pystr)) :
  forall (i : nat) (p : progress) (w : world),
  exists new,
    log (snd (run_batches client template total_batches i batches p w))
    = log w ++ new /\
    calls (snd (run_batches client template total_batches i batches p w))
    = (calls w + List.length (requests new))%nat /\
    (List.length (requests new) <= 5 * List.length batches)%nat /\
    (List.length (saves new) <= List.length batches)%nat /\
    (is_ok (fst (run_batches client template total_batches i batches p w)) = true ->
     List.length batches <= List.length (requests new))%nat.
Proof.
  induction batches as [|batch batches IH]; intros i p w.
  - exists []. simpl. rewrite app_nil_r. repeat split; auto; lia.
  - rewrite run_batches_cons.
    destruct (run_batch_budget total_batches i batch p w)
      as (n1 & H1 & H2 & H3 & H4).
    destruct (run_batch client template total_batches i batch p w)
      as [[p1|e] w1]; simpl snd in *.
    + destruct (IH (S i) p1 w1) as (n2 & G1 & G2 & G3 & G4 & G5).
      exists (n1 ++ n2).
      rewrite G1, G2, H1, H2, requests_app, saves_app, !length_app, <- app_assoc.
      simpl List.length. repeat split; try lia.
      intros Hok. specialize (G5 Hok). lia.
    + exists n1. simpl. repeat split; auto; try lia; try discriminate.
Qed.

End Cost.

(** X21.  What a run costs: a run with a positive batch size that returns
    has made, in all, at least as many requests as it has batches and at
    most five times as many, and has written the store at most as many
    times; the number of batches is the number of remaining lemmas over
    the batch size, rounded up, so that a run with nothing remaining makes
    no request at all. *)
Theorem main_request_budget (client : service) (a : args) (inp : inputs)
  (w w' : world) (rep : report) :
  main client a inp w = (Ok rep, w') ->
  0 < batch_size a ->
  exists new,
    log_grows w w' new /\
    calls w' = (calls w + List.length (requests new))%nat /\
    let n := ((List.length (remaining rep) + Z.to_nat (batch_size a) - 1)
              / Z.to_nat (batch_size a))%nat in
    (n <= List.length (requests new) <= 5 * n)%nat /\
    (List.length (saves new) <= n)%nat.
Proof.
  intros H Hbs. rewrite main_unfold in H. unfold log_grows.
  assert (Hk : (0 < Z.to_nat (batch_size a))%nat) by lia.
  destruct (api_key inp) as [[|c key]|]; try discriminate.
  destruct (GenerateCards.extract_lemmas (words_csv inp)) as [all|];
    [|discriminate].
  destruct (prompt_md inp) as [template|]; [|discriminate].
  destruct (load_existing (disk w)) as [store|]; [|discriminate].
  destruct (py_len store); [|discriminate].
  cbv zeta in H.
  destruct (not_in_existing store _) as [[|l todo]|]; [| |discriminate].
  - injection H as <- <-. exists []. cbn [remaining List.length requests saves flat_map].
    rewrite app_nil_r, Nat.add_0_r, Nat.add_0_l.
    rewrite (Nat.div_small (Z.to_nat (batch_size a) - 1)) by lia.
    repeat split; lia.
  - destruct (batches_eq (l :: todo) Hbs) as (starts & Hs & Hb).
    rewrite Hs, Hb in H.
    match type of H with
    | context [run_batches ?c ?t ?n ?i ?b ?p w] =>
        destruct (@run_batches_budget c t n b i p w) as (new & G1 & G2 & G3 & G4 & G5);
        destruct (run_batches c t n i b p w) as [[p1|e1] w1]; [|discriminate]
    end.
    injection H as <- <-. simpl snd in *. simpl fst in G5.
    rewrite length_map, length_seq in G3, G4, G5.
    exists new. cbn [remaining]. repeat split; auto.
Qed.

Lemma main_request_budget_witness :
  exists new,
    log_grows sample_world
      (World 2
         (Document
            (PDict (sample_store
                    ++ [(lit "le",
                         PList [card (PStr (lit "J'aime ___ pain."))
                                  "article" ["le"%string]])])))
         [Request (lit "Mots: le");
          Save (PDict (sample_store
                       ++ [(lit "le",
                            PList [card (PStr (lit "J'aime ___ pain."))
                                     "article" ["le"%string]])]));
          Sleep 8; Request (lit "Mots: la")])
      new /\
    2%nat = (0 + List.length (requests new))%nat /\
    let n := ((List.length [lit "le"; lit "la"] + Z.to_nat 1 - 1) / Z.to_nat 1)%nat in
    (n <= List.length (requests new) <= 5 * n)%nat /\
    (List.length (saves new) <= n)%nat.
Proof.
  apply (@main_request_budget (answering sample_response) (Args 0 1) sample_inputs
           sample_world
           (World 2
              (Document
                 (PDict (sample_store
                         ++ [(lit "le",
                              PList [card (PStr (lit "J'aime ___ pain."))
                                       "article" ["le"%string]])])))
              [Request (lit "Mots: le");
               Save (PDict (sample_store
                            ++ [(lit "le",
                                 PList [card (PStr (lit "J'aime ___ pain."))
                                          "article" ["le"%string]])]));
               Sleep 8; Request (lit "Mots: la")])
           (Report [lit "le"; lit "la"; lit "et"] [lit "le"; lit "la"]
              (PDict (sample_store
                      ++ [(lit "le",
                           PList [card (PStr (lit "J'aime ___ pain."))
                                    "article" ["le"%string]])]))
              1 [lit "la"])).
  - reflexivity.
  - reflexivity.
Defined.

(* ================================================================== *)
(** * The prompt names every lemma *)
(* ================================================================== *)

Lemma contains_refl (p : pystr) : contains p p = true.
Proof.
  apply contains_startswith. rewrite <- (app_nil_r p) at 2.
  apply startswith_app.
Qed.

Lemma contains_join (sep l : pystr) (lemmas : list pystr) :
  In l lemmas -> contains l (join sep lemmas) = true.
Proof.
  induction lemmas as [|x lemmas IH]; [intros []|].
  destruct lemmas as [|y lemmas].
  - intros [->|[]]. apply contains_refl.
  - rewrite join_cons2. intros [->|H].
    + apply contains_app_left. apply contains_refl.
    + apply contains_app_r. apply contains_app_r. exact (IH H).
Qed.

(** X22.  When the template holds the placeholder, the prompt of a batch
    names every lemma of the batch. *)
Theorem build_prompt_names_lemmas (template : pystr) (lemmas : list pystr) :
  contains LEMMA_LIST template = true ->
  Forall (fun l => contains l (build_prompt template lemmas) = true) lemmas.
Proof.
  intros H. apply Forall_forall. intros l Hl.
  destruct (first_token _ H) as (pre & post & -> & Hpre).
  unfold build_prompt, replace. rewrite LEMMA_LIST_chars.
  rewrite <- LEMMA_LIST_chars.
  rewrite (@replace_segment _ pre post Hpre).
  apply contains_app_r. apply contains_app_left.
  apply contains_join. exact Hl.
Qed.

Lemma build_prompt_names_lemmas_witness :
  Forall (fun l => contains l (build_prompt (lit "Mots: {LEMMA_LIST}.")
                                 [lit "le"; lit "la"]) = true)
         [lit "le"; lit "la"].
Proof.
  apply (@build_prompt_names_lemmas (lit "Mots: {LEMMA_LIST}.") [lit "le"; lit "la"]).
  reflexivity.
Defined.

(* ================================================================== *)
(** * A batch size that is not positive *)
(* ================================================================== *)

(** X23.  With a batch size of zero or less a run does nothing: it makes no
    request, sleeps and writes nothing, whatever there is to generate. *)
Theorem main_nonpositive_batch_size (client : service) (a : args)
  (inp : inputs) (w : world) :
  batch_size a <= 0 ->
  snd (main client a inp w) = w.
Proof.
  intros H. rewrite main_unfold.
  destruct (api_key inp) as [[|c key]|]; try reflexivity.
  destruct (GenerateCards.extract_lemmas (words_csv inp)) as [all|];
    [|reflexivity].
  destruct (prompt_md inp) as [template|]; [|reflexivity].
  destruct (load_existing (disk w)) as [store|]; [|reflexivity].
  destruct (py_len store); [|reflexivity].
  cbv zeta.
  destruct (not_in_existing store _) as [[|l todo]|]; try reflexivity.
  unfold py_range_step.
  destruct (batch_size a =? 0) eqn:E0; [reflexivity|].
  destruct (batch_size a <? 0) eqn:E1; [reflexivity|]. lia.
Qed.

Lemma main_nonpositive_batch_size_witness :
  snd (main (answering sample_response) (Args 0 0) sample_inputs sample_world)
  = sample_world.
Proof.
  apply (@main_nonpositive_batch_size (answering sample_response) (Args 0 0)
           sample_inputs sample_world).
  simpl. lia.
Defined.

(* ================================================================== *)
(** * The trace of a run *)
(* ================================================================== *)

Section Trace.

Variable client : service.
Variable template : pystr.

Lemma run_batch_trace (total_batches i : nat) (batch : list pystr)
  (p p' : progress) (w w' : world) :
  run_batch client template total_batches i batch p w = (Ok p', w') ->
  exists seg k,
    log w' = log w ++ seg
             ++ (if Z.of_nat i <? Z.of_nat total_batches - 1
                 then [Sleep SLEEP_BETWEEN] else []) /\
    (1 <= k <= 5)%nat /\
    requests seg = repeat (build_prompt template batch) k /\
    (List.length (saves seg) <= 1)%nat.
Proof.
  rewrite run_batch_cases. unfold generate_batch.
  rewrite attempts_of_generate_batch.
  destruct (attempts_budget client (build_prompt template batch) batch
              [1; 2; 3; 4; 5] w)
    as (new & k & Hl & _ & _ & Hsv & Hr & Hk & H1 & _).
  assert (Hk1 : (1 <= k <= 5)%nat).
  { destruct H1 as [H1|H1]; [discriminate|]. simpl in Hk. lia. }
  destruct (attempts client (build_prompt template batch) batch [1; 2; 3; 4; 5] w)
    as [[[|kv result]|e] wg]; simpl snd in *; [| |discriminate].
  - intros H. injection H as _ <-. exists new, k. unfold paused.
    split; [|rewrite Hsv; simpl; auto].
    destruct (Z.of_nat i <? Z.of_nat total_batches - 1); simpl; rewrite Hl.
    + rewrite <- app_assoc. reflexivity.
    + rewrite app_nil_r. reflexivity.
  - destruct (py_update (p_existing p) (kv :: result)) as [existing|e'];
      [|discriminate].
    intros H. injection H as _ <-. exists (new ++ [Save existing]), k.
    unfold paused. rewrite requests_app, saves_app, Hsv, Hr. simpl.
    rewrite app_nil_r.
    split; [|auto].
    destruct (Z.of_nat i <? Z.of_nat total_batches - 1); simpl; rewrite Hl.
    + rewrite <- !app_assoc. reflexivity.
    + rewrite <- !app_assoc. reflexivity.
Qed.

Lemma run_batches_trace (total_batches : nat) (batches : list (list pystr)) :
  forall (i : nat) (p p' : progress) (w w' : world),
    run_batches client template total_batches i batches p w = (Ok p', w') ->
    total_batches = (i + List.length batches)%nat ->
    exists segments,
      log w' = log w ++ paced segments /\
      Forall2 (fun batch seg =>
                 exists k,
                   (1 <= k <= 5)%nat /\
                   requests seg = repeat (build_prompt template batch) k /\
                   (List.length (saves seg) <= 1)%nat)
              batches segments.
Proof.
  induction batches as [|batch batches IH]; intros i p p' w w' H Ht.
  - injection H as _ <-. exists []. simpl. rewrite app_nil_r. auto.
  - rewrite run_batches_cons in H.
    destruct (run_batch client template total_batches i batch p w)
      as [[p1|e] w1] eqn:R; [|discriminate].
    destruct (run_batch_trace _ _ _ _ _ R) as (seg & k & Hl & Hk & Hr & Hs).
    destruct (IH (S i) p1 p' w1 w' H) as (segments & Gl & Gf);
      [simpl in Ht; lia|].
    exists (seg :: segments). split.
    + rewrite Gl, Hl. destruct batches as [|b2 batches].
      * destruct segments as [|s2 rest]; [|inversion Gf]. simpl in Ht.
        replace (Z.of_nat i <? Z.of_nat total_batches - 1) with false
          by (symmetry; apply Z.ltb_ge; lia).
        simpl. rewrite !app_nil_r. reflexivity.
      * destruct segments as [|s2 rest]; [inversion Gf|]. simpl in Ht.
        replace (Z.of_nat i <? Z.of_nat total_batches - 1) with true
          by (symmetry; apply Z.ltb_lt; lia).
        cbn [paced]. rewrite <- !app_assoc. reflexivity.
    + constructor; [|exact Gf]. exists k. auto.
Qed.

End Trace.

(** X24.  The trace of a run.  A run with a positive batch size that
    returns has gone through its batches in order: for each batch it has
    sent the prompt of that batch between one and five times and written
    the store at most once, and between the events of one batch and those
    of the next it has slept [SLEEP_BETWEEN] seconds. *)
Theorem main_trace (client : service) (a : args) (inp : inputs)
  (w w' : world) (rep : report) :
  main client a inp w = (Ok rep, w') ->
  0 < batch_size a ->
  exists template starts segments,
    prompt_md inp = Ok template /\
    py_range_step (List.length (remaining rep)) (batch_size a) = Ok starts /\
    log_grows w w' (paced segments) /\
    Forall2 (fun i seg =>
               exists k,
                 (1 <= k <= 5)%nat /\
                 requests seg
                 = repeat (build_prompt template
                             (slice i (i + Z.to_nat (batch_size a))
                                (remaining rep))) k /\
                 (List.length (saves seg) <= 1)%nat)
            starts segments.
Proof.
  intros H Hbs. rewrite main_unfold in H. unfold log_grows.
  destruct (api_key inp) as [[|c key]|]; try discriminate.
  destruct (GenerateCards.extract_lemmas (words_csv inp)) as [all|];
    [|discriminate].
  destruct (prompt_md inp) as [template|]; [|discriminate].
  destruct (load_existing (disk w)) as [store|]; [|discriminate].
  destruct (py_len store); [|discriminate].
  cbv zeta in H.
  destruct (not_in_existing store _) as [[|l todo]|]; [| |discriminate].
  - injection H as <- <-. exists template, [], []. cbn [remaining List.length].
    split; [reflexivity|]. split.
    + unfold py_range_step.
      destruct (batch_size a =? 0) eqn:E0; [lia|].
      destruct (batch_size a <? 0) eqn:E1; [lia|].
      rewrite Nat.add_0_l, Nat.div_small by lia. reflexivity.
    + split; [simpl; rewrite app_nil_r; reflexivity|constructor].
  - destruct (py_range_step (List.length (l :: todo)) (batch_size a))
      as [starts|] eqn:Hs; [|discriminate].
    destruct (run_batches _ _ _ _ _ _ _) as [[p1|e1] w1] eqn:R; [|discriminate].
    injection H as <- <-. cbn [remaining].
    destruct (@run_batches_trace client template _ _ _ _ _ _ _ R eq_refl)
      as (segments & Gl & Gf).
    exists template, starts, segments.
    split; [reflexivity|]. split; [exact Hs|]. split; [exact Gl|].
    clear - Gf. revert segments Gf.
    induction starts as [|i starts IH]; intros segments Gf;
      inversion Gf; subst; constructor; auto.
Qed.

Lemma main_trace_witness :
  exists template starts segments,
    prompt_md sample_inputs = Ok template /\
    py_range_step (List.length [lit "le"; lit "la"]) 1 = Ok starts /\
    log_grows sample_world
      (World 2
         (Document
            (PDict (sample_store
                    ++ [(lit "le",
                         PList [card (PStr (lit "J'aime ___ pain."))
                                  "article" ["le"%string]])])))
         [Request (lit "Mots: le");
          Save (PDict (sample_store
                       ++ [(lit "le",
                            PList [card (PStr (lit "J'aime ___ pain."))
                                     "article" ["le"%string]])]));
          Sleep 8; Request (lit "Mots: la")])
      (paced segments) /\
    Forall2 (fun i seg =>
               exists k,
                 (1 <= k <= 5)%nat /\
                 requests seg
                 = repeat (build_prompt template
                             (slice i (i + Z.to_nat 1) [lit "le"; lit "la"])) k /\
                 (List.length (saves seg) <= 1)%nat)
            starts segments.
Proof.
  apply (@main_trace (answering sample_response) (Args 0 1) sample_inputs
           sample_world
           (World 2
              (Document
                 (PDict (sample_store
                         ++ [(lit "le",
                              PList [card (PStr (lit "J'aime ___ pain."))
                                       "article" ["le"%string]])])))
              [Request (lit "Mots: le");
               Save (PDict (sample_store
                            ++ [(lit "le",
                                 PList [card (PStr (lit "J'aime ___ pain."))
                                          "article" ["le"%string]])]));
               Sleep 8; Request (lit "Mots: la")])
           (Report [lit "le"; lit "la"; lit "et"] [lit "le"; lit "la"]
              (PDict (sample_store
                      ++ [(lit "le",
                           PList [card (PStr (lit "J'aime ___ pain."))
                                    "article" ["le"%string]])]))
              1 [lit "la"])).
  - reflexivity.
  - reflexivity.
Defined.
